(** * Sunbeam: plan execution, feature gates and role validation

    A shallow embedding of the step/plan engine ([sunbeam/core/common.py]),
    the feature-gate resolver ([sunbeam/feature_gates.py]), the gate
    synchroniser ([sunbeam/hooks.py], [sunbeam/steps/sync_feature_gates.py])
    and the MicroOVN steps ([sunbeam/steps/microovn.py]), followed by the
    properties proved about them.

    Python values are modelled as follows: a [dict] or a [set] keyed by
    strings is a [gmap]/[gset]; a call that may raise returns an [outcome];
    a call that reads or writes the cluster database threads the state of the
    collaborator explicitly. *)

From stdpp Require Import base option list strings gmap sets fin_maps sorting.
From Equations Require Import Equations.
From Stdlib Require Import Ascii.

Set Warnings "-register-all,-clear-no-such-hyp".
Local Open Scope string_scope.
Local Open Scope list_scope.

(* ===================================================================== *)
(** * Part I: the embedding                                               *)
(* ===================================================================== *)

(** ** Python values, exceptions and results of calls *)

Module Py.

(** The exception classes the modelled code raises, catches or lets
    through.  [OtherException] stands for any class without a handler of
    its own in the modelled code. *)
Inductive exn_class : Type :=
| ValueError
| KeyError
| TypeError
| AttributeError
| TimeoutError
| JSONDecodeError
| UnknownConfigKey
| ConfigItemNotFoundException
| ClusterServiceUnavailableException
| ClickException
| BadParameter
| TerraformException
| TerraformStateLockedException
| OtherException (cls : string).

Global Instance exn_class_eq_dec : EqDecision exn_class.
Proof. solve_decision. Defined.

(** An exception instance: its class and what [str(e)] gives. *)
Record exn : Type := Exn { exn_cls : exn_class; exn_msg : string }.

Global Instance exn_eq_dec : EqDecision exn.
Proof. solve_decision. Defined.

(** A call either returns or raises. *)
Inductive outcome (A : Type) : Type :=
| Ok (a : A)
| Raise (e : exn).
Global Arguments Ok {A} a.
Global Arguments Raise {A} e.

Definition obind {A B} (o : outcome A) (k : A -> outcome B) : outcome B :=
  match o with
  | Ok a => k a
  | Raise e => Raise e
  end.

Definition returns {A} (o : outcome A) : bool :=
  match o with Ok _ => true | Raise _ => false end.

(** [try: body  except (classes): handler]: only the listed classes are
    caught, anything else goes on to the caller. *)
Definition try_except {A} (body : outcome A) (classes : list exn_class)
    (handler : exn -> outcome A) : outcome A :=
  match body with
  | Ok a => Ok a
  | Raise e => if bool_decide (exn_cls e ∈ classes) then handler e else Raise e
  end.

(** [try: body  except Exception: handler]. *)
Definition try_except_Exception {A} (body : outcome A)
    (handler : exn -> outcome A) : outcome A :=
  match body with
  | Ok a => Ok a
  | Raise e => handler e
  end.

(** The values a snap configuration option can hold. *)
Inductive value : Type :=
| VNone
| VBool (b : bool)
| VInt (z : Z)
| VStr (s : string)
| VDict (items : list (string * value)).

(** [bool(v)]. *)
Definition truthy (v : value) : bool :=
  match v with
  | VNone => false
  | VBool b => b
  | VInt z => negb (Z.eqb z 0)
  | VStr s => negb (String.eqb s "")
  | VDict items => match items with [] => false | _ => true end
  end.

(** A decoded JSON document. *)
Inductive json : Type :=
| JNull
| JBool (b : bool)
| JNum (z : Z)
| JStr (s : string)
| JArr (items : list json)
| JObj (members : list (string * json)).

Definition json_is_str (x : string) (j : json) : bool :=
  match j with JStr s => String.eqb x s | _ => false end.

Fixpoint is_substring (x s : string) : bool :=
  String.prefix x s ||
  match s with
  | EmptyString => false
  | String _ s' => is_substring x s'
  end.

(** [x in j] for a string [x] and a decoded document [j]: membership in
    an array, key membership in an object, substring of a string, and
    [TypeError] for the scalars that are not containers. *)
Definition py_in (x : string) (j : json) : outcome bool :=
  match j with
  | JArr items => Ok (existsb (json_is_str x) items)
  | JObj members => Ok (existsb (fun kv => String.eqb x (fst kv)) members)
  | JStr s => Ok (is_substring x s)
  | _ => Raise (Exn TypeError "argument is not iterable")
  end.

End Py.
Import Py.

(** ** The external collaborators *)

(** The local snap configuration store ([snaphelpers.Snap]): [config.get]
    answers with the value of a key or raises ([UnknownConfigKey] for a key
    that is not set), [config.get_options(prefix).as_dict()] answers with the
    nested options below the requested top-level key. *)
Record Snap : Type := {
  config_get : string -> outcome value;
  config_get_options : string -> outcome (list (string * value));
}.

(** [sunbeam/clusterd/models.py], [FeatureGate]. *)
Record FeatureGate : Type := {
  gate_key_of : string;
  enabled : bool;
}.

(** The two cluster lookups the resolver makes, as the replies the cluster
    client gives to them.  A lookup returns, or raises. *)
Record ClusterView : Type := {
  get_feature_gate : string -> outcome (option FeatureGate);
  get_config : string -> outcome string;
}.

(** ** sunbeam/feature_gates.py *)

Module FeatureGates.

(** [FeatureGateMixin]: the class attribute [generally_available] and the
    two identity attributes a subclass may carry.  [None] is an attribute
    the object does not have ([hasattr] is false). *)
Record FeatureGateMixin : Type := {
  generally_available : bool;
  backend_type : option string;
  name : option string;
}.

(** Instantiation: the mixin has no [__init__], creating the object runs no
    code that looks at the identity attributes. *)
Definition new (ga : bool) (bt nm : option string) : outcome FeatureGateMixin :=
  Ok {| generally_available := ga; backend_type := bt; name := nm |}.

Definition missing_identity : exn :=
  Exn ValueError
      "FeatureGateMixin requires either 'backend_type' or 'name' attribute".

(** [FeatureGateMixin.gate_key]. *)
Definition gate_key (self : FeatureGateMixin) : outcome string :=
  match backend_type self with
  | Some bt => Ok ("feature.storage." +:+ bt)
  | None =>
      match name self with
      | Some n => Ok ("feature." +:+ n)
      | None => Raise missing_identity
      end
  end.

Section check_gated.
(** [json.loads] of the standard library, and the snap object [Snap()]
    builds from the process environment. *)
Variable json_loads : string -> outcome json.
Variable Snap_new : Snap.

(** Second source: the gate record of the cluster database.  Everything
    raised inside the [try] is swallowed, the evaluation of
    [self.gate_key] included. *)
Definition cluster_gate_enabled (self : FeatureGateMixin)
    (client : option ClusterView) : bool :=
  match client with
  | None => false
  | Some c =>
      match obind (gate_key self) (get_feature_gate c) with
      | Ok (Some gate) => enabled gate
      | Ok None => false
      | Raise _ => false
      end
  end.

(** Third source: the enabled list kept in the cluster configuration.
    [Ok true] is "listed"; [Ok false] is no opinion; the [except] clause
    names two classes only. *)
Definition cluster_list_enabled (self : FeatureGateMixin)
    (client : option ClusterView) (enabled_config_key : option string)
    : outcome bool :=
  match client, enabled_config_key with
  | Some c, Some key =>
      try_except
        (obind (get_config c key) (fun enabled_items =>
           match backend_type self with
           | Some bt => obind (json_loads enabled_items) (py_in bt)
           | None =>
               match name self with
               | Some n => obind (json_loads enabled_items) (py_in n)
               | None => Ok false
               end
           end))
        [ConfigItemNotFoundException; ClusterServiceUnavailableException]
        (fun _ => Ok false)
  | _, _ => Ok false
  end.

(** Fourth source: the local snap configuration. *)
Definition snap_config_enabled (self : FeatureGateMixin) (snap : Snap)
    : outcome bool :=
  try_except
    (obind (gate_key self) (fun k =>
       obind (config_get snap k) (fun v => Ok (truthy v))))
    [UnknownConfigKey]
    (fun _ => Ok false).

(** [FeatureGateMixin.check_gated]: [Ok true] is "gated (hidden)",
    [Ok false] is "not gated". *)
Definition check_gated (self : FeatureGateMixin)
    (client : option ClusterView) (snap : option Snap)
    (enabled_config_key : option string) : outcome bool :=
  if generally_available self then Ok false
  else
    let snap := match snap with Some s => s | None => Snap_new end in
    if cluster_gate_enabled self client then Ok false
    else
      obind (cluster_list_enabled self client enabled_config_key)
        (fun listed =>
           if listed then Ok false
           else
             obind (snap_config_enabled self snap) (fun on =>
               if on then Ok false else Ok true)).

End check_gated.

(** *** What a source says

    The states of a source the resolver is specified for: it answers, it has
    no record, or it cannot be reached.  These predicates read the replies of
    the collaborators; they are used to state the precedence rules. *)

(** The identity the enabled list is searched for. *)
Definition listed_identity (self : FeatureGateMixin) : option string :=
match backend_type self with
| Some bt => Some bt
| None => name self
end.

(** The cluster holds no enabled gate record under [k]: no client, no
    record, a record that is switched off, or a lookup that raises. *)
Definition gate_record_silent (client : option ClusterView) (k : string) : Prop :=
match client with
| None => True
| Some c =>
    match get_feature_gate c k with
    | Ok (Some gate) => enabled gate = false
    | Ok None => True
    | Raise _ => True
    end
end.





(** The snap object the resolver reads: the one passed in, or [Snap()]. *)
Definition effective_snap (Snap_new : Snap) (snap : option Snap) : Snap :=
match snap with Some s => s | None => Snap_new end.

(** [FEATURE_GATES] and [is_feature_gate_enabled]. *)
Definition FEATURE_GATES : gmap string (gmap string bool) := ∅.

Definition is_feature_gate_enabled_in
    (gates : gmap string (gmap string bool)) (gate_key : string)
    (snap : Snap) : outcome bool :=
  let ga :=
    match gates !! gate_key with
    | Some gate_config =>
        negb (bool_decide (gate_config = ∅)) &&
        match gate_config !! "generally_available" with
        | Some b => b
        | None => false
        end
    | None => false
    end in
  if ga then Ok true
  else
    try_except (obind (config_get snap gate_key) (fun v => Ok (truthy v)))
               [UnknownConfigKey] (fun _ => Ok false).

Definition is_feature_gate_enabled := is_feature_gate_enabled_in FEATURE_GATES.

(** The properties [is_gated] and [is_visible]: [check_gated] with none of
    its arguments. *)
Definition is_gated (json_loads : string -> outcome json) (Snap_new : Snap)
    (self : FeatureGateMixin) : outcome bool :=
  check_gated json_loads Snap_new self None None None.

Definition is_visible (json_loads : string -> outcome json) (Snap_new : Snap)
    (self : FeatureGateMixin) : outcome bool :=
  obind (is_gated json_loads Snap_new self) (fun gated => Ok (negb gated)).

End FeatureGates.

(** ** sunbeam/core/common.py *)

Module Common.

Inductive Role : Type :=
| CONTROL
| COMPUTE
| STORAGE
| NETWORK
| REGION_CONTROLLER.

Global Instance Role_eq_dec : EqDecision Role.
Proof. solve_decision. Defined.

(** [role.value], and the member a value belongs to. *)
Definition Role_value (role : Role) : nat :=
  match role with
  | CONTROL => 1
  | COMPUTE => 2
  | STORAGE => 3
  | NETWORK => 4
  | REGION_CONTROLLER => 5
  end.

Definition Role_of_value (n : nat) : Role :=
  match n with
  | 1 => CONTROL
  | 2 => COMPUTE
  | 3 => STORAGE
  | 4 => NETWORK
  | _ => REGION_CONTROLLER
  end.

Global Instance Role_countable : Countable Role.
Proof.
  apply (inj_countable' Role_value Role_of_value). by intros [].
Defined.

Definition Role_members : list Role :=
  [CONTROL; COMPUTE; STORAGE; NETWORK; REGION_CONTROLLER].

(** [role.name]. *)
Definition Role_name (role : Role) : string :=
  match role with
  | CONTROL => "CONTROL"
  | COMPUTE => "COMPUTE"
  | STORAGE => "STORAGE"
  | NETWORK => "NETWORK"
  | REGION_CONTROLLER => "REGION_CONTROLLER"
  end.

Definition is_control_node (role : Role) : bool := bool_decide (role = CONTROL).
Definition is_compute_node (role : Role) : bool := bool_decide (role = COMPUTE).
Definition is_storage_node (role : Role) : bool := bool_decide (role = STORAGE).
Definition is_network_node (role : Role) : bool := bool_decide (role = NETWORK).
Definition is_region_controller (role : Role) : bool :=
  bool_decide (role = REGION_CONTROLLER).

(** [ROLE_GATES.get(role)]. *)
Definition ROLE_GATES (role : Role) : option string :=
  match role with
  | REGION_CONTROLLER => Some "feature.multi-region"
  | _ => None
  end.

Inductive ResultType : Type :=
| COMPLETED
| FAILED
| SKIPPED.

Global Instance ResultType_eq_dec : EqDecision ResultType.
Proof. solve_decision. Defined.

(** [Result]; the message payload is modelled as the text it carries, the
    default being the empty string. *)
Record Result : Type := mkResult {
  result_type : ResultType;
  message : string;
}.

Global Instance Result_eq_dec : EqDecision Result.
Proof. solve_decision. Defined.

(** *** Steps and plans

    The methods of a step read and change the world around the plan (the
    cluster, the snap, the fields of the step object), which is threaded as
    a value of type [W].  A method returns or raises. *)

Inductive method : Type :=
| HasPrompts
| Prompt
| IsSkip
| Run.

(** What [run_plan] does that can be observed from outside: the calls it
    makes on the step at a position of the plan, and the assignments
    [results[cls] = r] it performs. *)
Inductive event : Type :=
| Called (pos : nat) (m : method)
| Assigned (pos : nat) (cls : string) (r : Result).

Global Instance method_eq_dec : EqDecision method.
Proof. solve_decision. Defined.
Global Instance event_eq_dec : EqDecision event.
Proof. solve_decision. Defined.

Definition event_pos (ev : event) : nat :=
  match ev with
  | Called pos _ => pos
  | Assigned pos _ _ => pos
  end.

Section plan.
Context {W : Type}.

(** [BaseStep]: [cls_name] is [step.__class__.__name__]. *)
Record BaseStep : Type := {
  cls_name : string;
  step_name : string;
  description : string;
  has_prompts : W -> outcome bool * W;
  prompt : W -> outcome unit * W;
  is_skip : W -> outcome Result * W;
  run : W -> outcome Result * W;
}.

(** The defaults of [BaseStep]. *)
Definition BaseStep_has_prompts (w : W) : outcome bool * W := (Ok false, w).
Definition BaseStep_prompt (w : W) : outcome unit * W := (Ok tt, w).
Definition BaseStep_is_skip (w : W) : outcome Result * W :=
  (Ok (mkResult COMPLETED ""), w).
Definition BaseStep_run (w : W) : outcome Result * W :=
  (Ok (mkResult COMPLETED ""), w).

(** The state [run_plan] runs in: the world and the events so far. *)
Definition plan_state : Type := W * list event.
Definition Plan (A : Type) : Type := plan_state -> outcome A * plan_state.

Definition ret {A} (a : A) : Plan A := fun st => (Ok a, st).
Definition raise {A} (e : exn) : Plan A := fun st => (Raise e, st).
Definition bind {A B} (m : Plan A) (k : A -> Plan B) : Plan B :=
  fun st =>
    match m st with
    | (Ok a, st') => k a st'
    | (Raise e, st') => (Raise e, st')
    end.

(** A method call on the step at position [pos]. *)
Definition call {A} (pos : nat) (m : method) (f : W -> outcome A * W) : Plan A :=
  fun st =>
    let '(o, w') := f (fst st) in
    (o, (w', snd st ++ [Called pos m])).

(** [results[step.__class__.__name__] = r]. *)
Definition assign (pos : nat) (cls : string) (r : Result)
    (results : gmap string Result) : Plan (gmap string Result) :=
  fun st => (Ok (<[cls := r]> results), (fst st, snd st ++ [Assigned pos cls r])).

(** How the body of the loop leaves: on to the next step, or [break]. *)
Inductive verdict : Type :=
| Continue (results : gmap string Result)
| Break (results : gmap string Result).

(** The body of the [for] loop of [run_plan] for one step.  The console
    status display it drives is not modelled. *)
Definition run_step (no_raise : bool) (pos : nat) (step : BaseStep)
    (results : gmap string Result) : Plan verdict :=
  bind (call pos HasPrompts (has_prompts step)) (fun hp =>
  bind (if hp : bool then call pos Prompt (prompt step) else ret tt) (fun _ =>
  bind (call pos IsSkip (is_skip step)) (fun skip_result =>
  match result_type skip_result with
  | SKIPPED =>
      bind (assign pos (cls_name step) skip_result results) (fun results =>
      ret (Continue results))
  | FAILED =>
      if no_raise then
        bind (assign pos (cls_name step) skip_result results) (fun results =>
        ret (Break results))
      else raise (Exn ClickException (message skip_result))
  | COMPLETED =>
      bind (call pos Run (run step)) (fun result =>
      bind (assign pos (cls_name step) result results) (fun results =>
      match result_type result with
      | FAILED =>
          if no_raise then ret (Break results)
          else raise (Exn ClickException (message result))
      | _ => ret (Continue results)
      end))
  end))).

Fixpoint run_steps (no_raise : bool) (pos : nat) (plan : list BaseStep)
    (results : gmap string Result) : Plan (gmap string Result) :=
  match plan with
  | [] => ret results
  | step :: rest =>
      bind (run_step no_raise pos step results) (fun v =>
      match v with
      | Continue results => run_steps no_raise (S pos) rest results
      | Break results => ret results
      end)
  end.

(** [run_plan(plan, console, no_hint, no_raise)]. *)
Definition run_plan (plan : list BaseStep) (no_raise : bool) (w : W)
    : outcome (gmap string Result) * plan_state :=
  run_steps no_raise 0 plan ∅ (w, []).

(** The first lines of the loop body, as they act on the world: ask
    [has_prompts], and [prompt] if it says so. *)
Definition prompt_phase (step : BaseStep) (w : W) : outcome bool * W :=
  match has_prompts step w with
  | (Ok true, w1) =>
      match prompt step w1 with
      | (Ok _, w2) => (Ok true, w2)
      | (Raise e, w2) => (Raise e, w2)
      end
  | (Ok false, w1) => (Ok false, w1)
  | (Raise e, w1) => (Raise e, w1)
  end.

(** The dictionary a sequence of assignments builds. *)
Definition record (results : gmap string Result) (a : nat * string * Result)
    : gmap string Result :=
  <[a.1.2 := a.2]> results.

Definition results_of (results : gmap string Result)
    (log : list (nat * string * Result)) : gmap string Result :=
  foldl record results log.

(** A step none of whose methods raises, in whatever world it is called. *)
Definition never_raises (step : BaseStep) : Prop :=
  forall w,
    returns (has_prompts step w).1 = true
    /\ returns (prompt step w).1 = true
    /\ returns (is_skip step w).1 = true
    /\ returns (run step w).1 = true.

(** The events a step at [pos] contributes before its [is_skip] answer is
    looked at. *)
Definition preflight_events (pos : nat) (hp : bool) : list event :=
  [Called pos HasPrompts] ++ (if hp then [Called pos Prompt] else [])
  ++ [Called pos IsSkip].

(** One event belongs to a step that is not later in the plan than the
    step of the other. *)
Definition not_after (a b : event) : Prop := event_pos a <= event_pos b.

(** The assignments among the events, in order. *)
Definition assignments (tr : list event) : list (nat * string * Result) :=
  omap (fun ev => match ev with
                  | Assigned pos cls r => Some (pos, cls, r)
                  | Called _ _ => None
                  end) tr.

End plan.
Global Arguments BaseStep : clear implicits.



(** *** Role parsing *)

(** [s.split(",")]. *)
Fixpoint split_on (sep : ascii) (s : string) : list string :=
  match s with
  | EmptyString => [EmptyString]
  | String c s' =>
      if Ascii.eqb c sep then EmptyString :: split_on sep s'
      else
        match split_on sep s' with
        | h :: t => String c h :: t
        | [] => [String c EmptyString]
        end
  end.

Definition upper_ascii (c : ascii) : ascii :=
  let n := Ascii.nat_of_ascii c in
  if (97 <=? n)%nat && (n <=? 122)%nat then Ascii.ascii_of_nat (n - 32) else c.

Definition lower_ascii (c : ascii) : ascii :=
  let n := Ascii.nat_of_ascii c in
  if (65 <=? n)%nat && (n <=? 90)%nat then Ascii.ascii_of_nat (n + 32) else c.

(** [s.upper()] and [s.lower()], on the ASCII letters. *)
Fixpoint upper (s : string) : string :=
  match s with
  | EmptyString => EmptyString
  | String c s' => String (upper_ascii c) (upper s')
  end.

Fixpoint lower (s : string) : string :=
  match s with
  | EmptyString => EmptyString
  | String c s' => String (lower_ascii c) (lower s')
  end.

(** [Role[name]]: [None] is the [KeyError]. *)
Definition Role_of_name (name : string) : option Role :=
  List.find (fun role => String.eqb (Role_name role) name) Role_members.

(** [sep.join(items)]. *)
Fixpoint join (sep : string) (items : list string) : string :=
  match items with
  | [] => ""
  | [x] => x
  | x :: rest => x +:+ sep +:+ join sep rest
  end.

Section roles.
(** The snap object [Snap()] builds from the process environment. *)
Variable Snap_new : Snap.

(** [_is_role_enabled]. *)
Definition _is_role_enabled (role : Role) : outcome bool :=
  match ROLE_GATES role with
  | None => Ok true
  | Some gate_key =>
      if String.eqb gate_key "" then Ok true
      else FeatureGates.is_feature_gate_enabled gate_key Snap_new
  end.

(** [Role.enabled_values]. *)
Fixpoint enabled_values_of (roles : list Role) : outcome (list string) :=
  match roles with
  | [] => Ok []
  | role :: rest =>
      obind (_is_role_enabled role) (fun on =>
      obind (enabled_values_of rest) (fun names =>
      Ok (if on then lower (Role_name role) :: names else names)))
  end.

Definition enabled_values : outcome (list string) := enabled_values_of Role_members.

(** The strings the first loop of [validate_roles] collects into the set
    [roles]. *)
Definition role_strings (value : list string) : gset string :=
  list_to_set (concat (split_on ","%char <$> value)).

(** One turn of the second loop of [validate_roles]. *)
Definition validate_role (role_str : string) : outcome Role :=
  match Role_of_name (upper role_str) with
  | None =>
      obind enabled_values (fun enabled_roles =>
      Raise (Exn BadParameter
               ("'" +:+ upper role_str +:+ "'. Valid choices are "
                +:+ join ", " enabled_roles)))
  | Some role =>
      obind (_is_role_enabled role) (fun on =>
      if on then Ok role
      else
        Raise (Exn BadParameter
                 ("Role '" +:+ role_str +:+ "' is not enabled. "
                  +:+ "To use this role, enable the feature gate: "
                  +:+ "sudo snap set openstack "
                  +:+ default "None" (ROLE_GATES role) +:+ "=true")))
  end.

Fixpoint validate_each (role_strs : list string) : outcome (list Role) :=
  match role_strs with
  | [] => Ok []
  | role_str :: rest =>
      obind (validate_role role_str) (fun role =>
      obind (validate_each rest) (fun validated_roles =>
      Ok (role :: validated_roles)))
  end.

(** [validate_roles(ctx, param, value)].  The set is walked in the order
    [elements] gives; Python leaves the order of a set unspecified, and
    nothing below depends on it. *)
Definition validate_roles (value : list string) : outcome (list Role) :=
  validate_each (elements (role_strings value)).

(** What [validate_roles] asks of one string: it names a role, and the
    role is enabled. *)
Definition names_enabled_role (s : string) (role : Role) : Prop :=
  Role_of_name (upper s) = Some role /\ _is_role_enabled role = Ok true.

End roles.

(** [roles_to_str_list]. *)
Definition roles_to_str_list (roles : list Role) : list string :=
  (fun role => lower (Role_name role)) <$> roles.

(** *** The background status thread *)

Definition STATUS_READY : string := "ready".
Definition STATUS_NOT_READY : string := "not_ready".

(** What the thread meets at the top of a turn of its loop: the stop event
    is set, the queue stayed empty for the timeout, or the queue delivered
    [(status, app)]. *)
Inductive tick : Type :=
| StopSet
| QueueEmpty
| Got (status : string) (app : string).

(** The lines written with [status.update]: the progress line with its two
    numbers, and the closing line. *)
Inductive status_line : Type :=
| WaitingOnline (nb_active_apps nb_apps : nat)
| AllOnline.

Inductive thread_exit : Type :=
| NoStatus
| Finished
| Cancelled
| Blocked.

Record thread_state : Type := {
  apps : gmap string nat;
  nb_active_apps : nat;
  shown : list status_line;
  unread : list tick;
}.

(** [_UpdateStatusThread._nb_active_apps]. *)
Definition _nb_active_apps (apps : gmap string nat) : nat :=
  length (filter (fun count => 4 <= count) (snd <$> map_to_list apps)).

(** What one delivered event does to the counters. *)
Definition on_event (apps : gmap string nat) (status app : string)
    : gmap string nat :=
  match apps !! app with
  | None => apps
  | Some count =>
      if String.eqb status STATUS_READY then <[app := S count]> apps
      else <[app := 0]> apps
  end.

(** The [while] loop of [_UpdateStatusThread.run], over the ticks the
    thread meets.  [Blocked] is the thread still waiting when the ticks run
    out. *)
Fixpoint status_loop (nb_apps : nat) (ticks : list tick)
    (apps : gmap string nat) (nb_active_apps : nat) (shown : list status_line)
    : thread_exit * thread_state :=
  if (nb_apps <=? nb_active_apps)%nat then
    (Finished, Build_thread_state apps nb_active_apps (shown ++ [AllOnline]) ticks)
  else
    match ticks with
    | [] => (Blocked, Build_thread_state apps nb_active_apps shown [])
    | StopSet :: rest =>
        (Cancelled, Build_thread_state apps nb_active_apps shown rest)
    | QueueEmpty :: rest => status_loop nb_apps rest apps nb_active_apps shown
    | Got status app :: rest =>
        match apps !! app with
        | None => status_loop nb_apps rest apps nb_active_apps shown
        | Some _ =>
            let apps := on_event apps status app in
            let nb_active_apps := _nb_active_apps apps in
            status_loop nb_apps rest apps nb_active_apps
              (shown ++ [WaitingOnline nb_active_apps nb_apps])
        end
    end.

(** [dict.fromkeys(applications, 0)]. *)
Definition fromkeys (applications : list string) : gmap string nat :=
  list_to_map ((fun app => (app, 0)) <$> applications).

(** [_UpdateStatusThread.run]; [has_status] is [self.status is not None]. *)
Definition UpdateStatusThread_run (has_status : bool)
    (applications : list string) (ticks : list tick)
    : thread_exit * thread_state :=
  if has_status then
    let apps := fromkeys applications in
    let nb_apps := length applications in
    status_loop nb_apps ticks apps 0 [WaitingOnline 0 nb_apps]
  else (NoStatus, Build_thread_state ∅ 0 [] ticks).

(** The reports the queue delivered for [app], oldest first. *)
Definition reports_for (app : string) (ticks : list tick) : list string :=
  omap (fun t => match t with
                 | Got status a => if String.eqb a app then Some status else None
                 | _ => None
                 end) ticks.

Fixpoint take_while {A} (p : A -> bool) (l : list A) : list A :=
  match l with
  | [] => []
  | x :: l' => if p x then x :: take_while p l' else []
  end.

(** How many times in a row [app] has reported ready, counting back from
    its latest report. *)
Definition ready_streak (app : string) (ticks : list tick) : nat :=
  length (take_while (fun status => String.eqb status STATUS_READY)
                     (reverse (reports_for app ticks))).

(** The ticks the thread acts on: the stop event and the reports of the
    services it watches.  A timeout of the queue and a report of any other
    service only send it back to the top of the loop. *)
Definition attended (applications : list string) (t : tick) : bool :=
  match t with
  | StopSet => true
  | QueueEmpty => false
  | Got _ app => bool_decide (app ∈ applications)
  end.

(** The reports of the debounce scenario, for one service. *)
Definition flapping (app : string) : list tick :=
  [Got "ready" app; Got "ready" app; Got "ready" app; Got "not_ready" app;
   Got "ready" app; Got "ready" app; Got "ready" app; Got "ready" app].

(** *** Retry callbacks *)

(** [convert_retry_failure_as_result]: [outcome] is the exception of the
    last attempt, if the last attempt has an outcome. *)
Definition convert_retry_failure_as_result (outcome : option exn) : Result :=
  match outcome with
  | Some e => mkResult FAILED (exn_msg e)
  | None => mkResult FAILED ""
  end.

(** *** Risk levels *)

Inductive RiskLevel : Type :=
| STABLE
| CANDIDATE
| BETA
| EDGE.

Global Instance RiskLevel_eq_dec : EqDecision RiskLevel.
Proof. solve_decision. Defined.

(** [str(level)]: the value of the member. *)
Definition RiskLevel_value (level : RiskLevel) : string :=
  match level with
  | STABLE => "stable"
  | CANDIDATE => "candidate"
  | BETA => "beta"
  | EDGE => "edge"
  end.

(** [RiskLevel.__ordering__]. *)
Definition RiskLevel_ordering : list string :=
  [RiskLevel_value STABLE; RiskLevel_value CANDIDATE; RiskLevel_value BETA;
   RiskLevel_value EDGE].

(** [RiskLevel.__eq__]; the second argument is [str(value)], which for a
    string is the string and for a level is its value. *)
Definition RiskLevel_eq (self : RiskLevel) (other : string) : bool :=
  String.eqb (RiskLevel_value self) other.

(** The [for] loop of [RiskLevel.__lt__]. *)
Fixpoint RiskLevel_lt_from (str_self str_other : string)
    (ordering : list string) : bool :=
  match ordering with
  | [] => false
  | elem :: rest =>
      if String.eqb str_self elem then true
      else if String.eqb str_other elem then false
      else RiskLevel_lt_from str_self str_other rest
  end.

(** [RiskLevel.__lt__], [__le__], [__gt__] and [__ge__]. *)
Definition RiskLevel_lt (self : RiskLevel) (other : string) : bool :=
  if RiskLevel_eq self other then false
  else RiskLevel_lt_from (RiskLevel_value self) other RiskLevel_ordering.

Definition RiskLevel_le (self : RiskLevel) (other : string) : bool :=
  RiskLevel_lt self other || RiskLevel_eq self other.

Definition RiskLevel_gt (self : RiskLevel) (other : string) : bool :=
  negb (RiskLevel_lt self other) && negb (RiskLevel_eq self other).

Definition RiskLevel_ge (self : RiskLevel) (other : string) : bool :=
  negb (RiskLevel_lt self other) || RiskLevel_eq self other.

(** [infer_risk]. *)
Definition infer_risk (snap : Snap) : outcome RiskLevel :=
  try_except
    (obind (config_get snap "deployment.risk") (fun risk =>
       Ok (match risk with
           | VStr s =>
               if String.eqb s "candidate" then CANDIDATE
               else if String.eqb s "beta" then BETA
               else if String.eqb s "edge" then EDGE
               else STABLE
           | _ => STABLE
           end)))
    [UnknownConfigKey]
    (fun _ => Ok STABLE).

End Common.

(** ** Calls on the cluster client

    A call on the cluster client runs against the state [S] of whatever
    answers it, may change that state, and returns or raises.  What was
    changed before an exception stays changed. *)

Module Cluster.

Definition Call (S A : Type) : Type := S -> outcome A * S.

Definition ret {S A} (a : A) : Call S A := fun s => (Ok a, s).
Definition raise {S A} (e : exn) : Call S A := fun s => (Raise e, s).
Definition bind {S A B} (m : Call S A) (k : A -> Call S B) : Call S B :=
  fun s =>
    match m s with
    | (Ok a, s') => k a s'
    | (Raise e, s') => (Raise e, s')
    end.

(** [try: body  except Exception: handler]. *)
Definition try_Exception {S A} (body : Call S A) (handler : exn -> Call S A)
    : Call S A :=
  fun s =>
    match body s with
    | (Ok a, s') => (Ok a, s')
    | (Raise e, s') => handler e s'
    end.

(** The gate calls of [client.cluster]. *)
Record GateClient (S : Type) : Type := {
  get_feature_gate : string -> Call S (option FeatureGate);
  add_feature_gate : string -> bool -> Call S unit;
  update_feature_gate : string -> bool -> Call S unit;
}.
Global Arguments get_feature_gate {S} _ _ _.
Global Arguments add_feature_gate {S} _ _ _ _.
Global Arguments update_feature_gate {S} _ _ _ _.

(** *** The gate table of the cluster database *)

Inductive db_call : Type :=
| GetGate (key : string)
| AddGate (key : string) (enabled : bool)
| UpdateGate (key : string) (enabled : bool).


(** The gate records, and every call received so far. *)
Record ClusterDb : Type := {
  gates : gmap string bool;
  calls : list db_call;
}.

Definition logged (c : db_call) (db : ClusterDb) : ClusterDb :=
  {| gates := gates db; calls := calls db ++ [c] |}.

Definition not_found (key : string) : exn :=
  Exn (OtherException "FeatureGateNotFoundException") key.

Definition already_exists (key : string) : exn :=
  Exn (OtherException "FeatureGateAlreadyExistsException") key.

(** Modelled from the spec: the cluster database client
    ([sunbeam/clusterd/client.py]) is not among the sources.  Its gate
    calls are given as [get_feature_gate(key) -> {enabled} | not-found],
    [add_feature_gate(key, enabled)] and [update_feature_gate(key, enabled)]
    over records keyed by gate key: a database that is up answers a lookup
    with the record or with not-found, creates a record that is absent and
    updates one that is present. *)
Definition db_client : GateClient ClusterDb :=
  {| get_feature_gate := fun key db =>
       (match gates db !! key with
        | Some on => Ok (Some {| gate_key_of := key; enabled := on |})
        | None => Raise (not_found key)
        end, logged (GetGate key) db);
     add_feature_gate := fun key on db =>
       match gates db !! key with
       | Some _ => (Raise (already_exists key), logged (AddGate key on) db)
       | None =>
           (Ok tt, {| gates := <[key := on]> (gates db);
                      calls := calls db ++ [AddGate key on] |})
       end;
     update_feature_gate := fun key on db =>
       match gates db !! key with
       | Some _ =>
           (Ok tt, {| gates := <[key := on]> (gates db);
                      calls := calls db ++ [UpdateGate key on] |})
       | None => (Raise (not_found key), logged (UpdateGate key on) db)
       end |}.

(** The write a sync of one gate owes the database: an update when the
    record is there with the other value, a creation when it is not there,
    nothing when it is there with the same value. *)
Definition gate_write (records : gmap string bool) (key : string) (on : bool)
    : list db_call :=
  match records !! key with
  | Some recorded => if Bool.eqb recorded on then [] else [UpdateGate key on]
  | None => [AddGate key on]
  end.

End Cluster.

(** ** sunbeam/hooks.py *)

Module Hooks.
Import Cluster.

(** [d[k] = v] on a dictionary kept as its items in insertion order. *)
Fixpoint dict_set {A} (k : string) (v : A) (d : list (string * A))
    : list (string * A) :=
  match d with
  | [] => [(k, v)]
  | (k', v') :: rest =>
      if String.eqb k k' then (k', v) :: rest else (k', v') :: dict_set k v rest
  end.

(** [dict(items)]. *)
Definition dict_of_items {A} (items : list (string * A)) : list (string * A) :=
  foldl (fun d kv => dict_set kv.1 kv.2 d) [] items.

(** [f"{parent_key}{sep}{k}" if parent_key else k], with [sep = "."]. *)
Definition child_key (parent_key k : string) : string :=
  if String.eqb parent_key "" then k else parent_key +:+ "." +:+ k.

(** What one item of the dictionary adds to [items] in [flatten_dict]:
    [new_key] is the key already built for it. *)
Fixpoint flatten_entry (new_key : string) (v : value) : list (string * value) :=
  match v with
  | VDict d =>
      dict_of_items
        (flat_map (fun kv => flatten_entry (child_key new_key kv.1) kv.2) d)
  | _ => [(new_key, v)]
  end.

(** [flatten_dict(d, parent_key)]. *)
Definition flatten_dict (d : list (string * value)) (parent_key : string)
    : list (string * value) :=
  dict_of_items
    (flat_map (fun kv => flatten_entry (child_key parent_key kv.1) kv.2) d).

(** [key if key.startswith("feature.") else f"feature.{key}"]. *)
Definition gate_key_for (key : string) : string :=
  if String.prefix "feature." key then key else "feature." +:+ key.

(** [bool(value) if value is not None else False]. *)
Definition enabled_bool_of (v : value) : bool :=
  match v with
  | VNone => false
  | _ => truthy v
  end.

Section sync.
Context {S : Type}.
Variable client : GateClient S.

(** The body of the [for] loop: the inner [try] with its two handlers. *)
Definition sync_gate (gate_key : string) (enabled_bool : bool) : Call S unit :=
  try_Exception
    (bind (get_feature_gate client gate_key) (fun existing_gate =>
       match existing_gate with
       | None => raise (Exn AttributeError "enabled")
       | Some gate =>
           if negb (Bool.eqb (enabled gate) enabled_bool)
           then update_feature_gate client gate_key enabled_bool
           else ret tt
       end))
    (fun _ =>
       try_Exception (add_feature_gate client gate_key enabled_bool)
                     (fun _ => ret tt)).

Fixpoint sync_gates (flattened : list (string * value)) : Call S unit :=
  match flattened with
  | [] => ret tt
  | (key, value) :: rest =>
      bind (sync_gate (gate_key_for key) (enabled_bool_of value))
           (fun _ => sync_gates rest)
  end.

(** [sync_feature_gates_from_snap_to_cluster(client, snap)]; [Snap_new] is
    the object [snaphelpers.Snap()] builds. *)
Definition sync_feature_gates_from_snap_to_cluster (Snap_new : Snap)
    (snap : option Snap) : Call S unit :=
  try_Exception
    (fun s =>
       let snap := match snap with Some sn => sn | None => Snap_new end in
       match config_get_options snap "feature" with
       | Raise e => (Raise e, s)
       | Ok feature_dict =>
           match feature_dict with
           | [] => (Ok tt, s)
           | _ => sync_gates (flatten_dict feature_dict "") s
           end
       end)
    (fun _ => ret tt).

End sync.


End Hooks.

(** ** sunbeam/feature_gates.py: [FeatureGatedChoice] *)

Module FeatureGatedChoice.
Import Hooks.

(** [d.get(k)] on a dictionary kept as its items. *)
Fixpoint dict_get {A} (k : string) (d : list (string * A)) : option A :=
  match d with
  | [] => None
  | (k', v) :: rest => if String.eqb k' k then Some v else dict_get k rest
  end.

(** The object: the two arguments it keeps, the reverse mapping, and the
    choices handed to [click.Choice]. *)
Record FeatureGatedChoice : Type := {
  all_choices : list string;
  gated_choices : list (string * list string);
  _choice_to_gate : list (string * string);
  choices : list string;
}.

(** The reverse mapping [__init__] builds: the two nested loops assign
    [self._choice_to_gate[choice] = gate_key] in the order of the dictionary
    and of each list. *)
Definition choice_to_gate (gated_choices : list (string * list string))
    : list (string * string) :=
  dict_of_items
    (flat_map (fun entry => (fun choice => (choice, entry.1)) <$> entry.2)
              gated_choices).

Section init.
(** The snap object [Snap()] builds, which [is_feature_gate_enabled] reads
    when it is given none. *)
Variable Snap_new : Snap.

(** The loop that filters the choices. *)
Fixpoint enabled_choices (mapping : list (string * string))
    (choices : list string) : outcome (list string) :=
  match choices with
  | [] => Ok []
  | choice :: rest =>
      obind (match dict_get choice mapping with
             | Some gate_key =>
                 FeatureGates.is_feature_gate_enabled gate_key Snap_new
             | None => Ok true
             end) (fun on =>
      obind (enabled_choices mapping rest) (fun kept =>
      Ok (if on then choice :: kept else kept)))
  end.

(** [FeatureGatedChoice(choices, gated_choices)]. *)
Definition new (choices : list string)
    (gated_choices : list (string * list string)) : outcome FeatureGatedChoice :=
  let mapping := choice_to_gate gated_choices in
  obind (enabled_choices mapping choices) (fun enabled_choices =>
  Ok {| all_choices := choices;
        gated_choices := gated_choices;
        _choice_to_gate := mapping;
        choices := enabled_choices |}).

End init.

End FeatureGatedChoice.

(** ** sunbeam/storage/base.py: enabling a storage backend *)

Module Storage.
Import Cluster.

Definition ENABLED_BACKENDS_CONFIG_KEY : string := "StorageBackendsEnabled".

(** The configuration items and the gate records of the cluster, and every
    item written so far. *)
Record ConfigDb : Type := {
  config : gmap string string;
  gate_records : gmap string bool;
  config_writes : list (string * string);
}.

(** Modelled from the spec: the cluster database client
    ([sunbeam/clusterd/client.py]) is not among the sources.  Its
    configuration calls are given as [get_config(key) -> string | not-found]
    and [update_config(key, string)]: a lookup answers with the item or
    raises the not-found exception, an update stores the item. *)
Definition db_get_config (key : string) : Call ConfigDb string :=
  fun db =>
    (match config db !! key with
     | Some v => Ok v
     | None => Raise (Exn ConfigItemNotFoundException key)
     end, db).

(** Modelled from the spec: [update_config(key, string)] of the same
    client stores the item under the key. *)
Definition db_update_config (key v : string) : Call ConfigDb unit :=
  fun db =>
    (Ok tt, {| config := <[key := v]> (config db);
               gate_records := gate_records db;
               config_writes := config_writes db ++ [(key, v)] |}).

(** Modelled from the spec: what the gate resolver reads of the cluster in
    the state [db], with [get_feature_gate(key) -> {enabled} | not-found]
    over the gate records. *)
Definition view (db : ConfigDb) : ClusterView :=
  Build_ClusterView
    (fun key =>
       match gate_records db !! key with
       | Some on => Ok (Some {| gate_key_of := key; enabled := on |})
       | None => Raise (Cluster.not_found key)
       end)
    (fun key => (db_get_config key db).1).

Section backend.
(** [json.loads] and [json.dumps] of the standard library, and the snap
    object [Snap()] builds. *)
Variable json_loads : string -> outcome json.
Variable json_dumps : json -> string.
Variable Snap_new : Snap.

(** [StorageBackendBase.check_enabled(client, snap)], for a backend [self]
    and the cluster in the state [db]. *)
Definition check_enabled (self : FeatureGates.FeatureGateMixin)
    (db : ConfigDb) (snap : Snap) : outcome bool :=
  obind (FeatureGates.check_gated json_loads Snap_new self (Some (view db))
           (Some snap) (Some ENABLED_BACKENDS_CONFIG_KEY))
        (fun gated => Ok (negb gated)).

(** [StorageBackendBase.enable_backend(client)]; [backend_type] is
    [self.backend_type].  [append] exists on a list only. *)
Definition enable_backend (backend_type : string) : Call ConfigDb unit :=
  fun db =>
    match try_except
            (obind (db_get_config ENABLED_BACKENDS_CONFIG_KEY db).1 json_loads)
            [ConfigItemNotFoundException]
            (fun _ => Ok (JArr [])) with
    | Raise e => (Raise e, db)
    | Ok enabled_backends =>
        match py_in backend_type enabled_backends with
        | Raise e => (Raise e, db)
        | Ok true => (Ok tt, db)
        | Ok false =>
            match enabled_backends with
            | JArr items =>
                db_update_config ENABLED_BACKENDS_CONFIG_KEY
                  (json_dumps (JArr (items ++ [JStr backend_type]))) db
            | _ => (Raise (Exn AttributeError "append"), db)
            end
        end
    end.

End backend.

End Storage.

(** ** sunbeam/feature_manager.py: the checks before a feature is
    registered *)

Module FeatureManager.
Import Common.

Section register.
Variable json_loads : string -> outcome json.
Variable Snap_new : Snap.



End register.

End FeatureManager.

(** ** sunbeam/steps/sync_feature_gates.py *)

Module SyncFeatureGatesToCluster.
Import Common Cluster.

Section step.
Context {S : Type}.
Variable client : GateClient S.
Variable Snap_new : Snap.

(** The body of [run] around the function it imports and calls. *)
Definition run_around (sync : Call S unit) : S -> outcome Result * S :=
  try_Exception
    (bind sync (fun _ => ret (mkResult COMPLETED "")))
    (fun _ =>
       ret (mkResult COMPLETED
              "Feature gate sync failed but continuing (non-fatal)")).

(** [SyncFeatureGatesToCluster.run]. *)
Definition run : S -> outcome Result * S :=
  run_around (Hooks.sync_feature_gates_from_snap_to_cluster client Snap_new None).

(** The step as [run_plan] sees it; what it does not override is
    [BaseStep]'s. *)
Definition step : BaseStep S :=
  {| cls_name := "SyncFeatureGatesToCluster";
     step_name := "Sync feature gates";
     description := "Syncing feature gates from snap config to cluster database";
     has_prompts := BaseStep_has_prompts;
     prompt := BaseStep_prompt;
     is_skip := BaseStep_is_skip;
     Common.run := run |}.

End step.

End SyncFeatureGatesToCluster.

(** ** sunbeam/provider/local/commands.py: what [bootstrap] and [join] do
    with the roles [validate_roles] hands them *)

Module LocalCommands.
Import Common.

Definition compute_and_network : exn :=
  Exn ClickException
      "A node cannot be both a compute and network node at the same time.".

Definition region_controller_alone : exn :=
  Exn ClickException
      "The region controller role is mutually exclusive with all other roles.".

(** The two tests both commands make on the parsed roles. *)
Definition check_role_combination (roles : list Role) : outcome (list Role) :=
  let is_compute_node := existsb is_compute_node roles in
  let is_network_node := existsb is_network_node roles in
  let is_region_controller := existsb is_region_controller roles in
  if is_network_node && is_compute_node then Raise compute_and_network
  else if is_region_controller && (1 <? length roles)%nat then
    Raise region_controller_alone
  else Ok roles.

(** [bootstrap]: the control role is added when neither it nor the region
    controller role was asked for, then the combination is tested. *)
Definition bootstrap_roles (roles : list Role) : outcome (list Role) :=
  let roles :=
    if negb (bool_decide (CONTROL ∈ roles))
       && negb (bool_decide (REGION_CONTROLLER ∈ roles))
    then roles ++ [CONTROL] else roles in
  check_role_combination roles.

(** [join]. *)
Definition join_roles (roles : list Role) : outcome (list Role) :=
  check_role_combination roles.

End LocalCommands.

(** ** The retry decorator

    [tenacity.retry(wait=wait_fixed(w), stop=stop_after_delay(s),
    retry=retry_if_exception_type(C), retry_error_callback=cb)] around a
    function, after the documented behaviour of the library: the function is
    called; a returned value is returned; an exception that is not of class
    [C] is raised again; otherwise, when the time since the first call
    started has reached [s] the callback supplies the value, and if not the
    decorator sleeps [w] and calls again.  Time is counted in whole seconds
    from the start of the first call. *)

Module Tenacity.

Section retry.
Context {A : Type}.
Variable wait_fixed : nat.
Variable stop_after_delay : nat.
Variable retry_if_exception : exn -> bool.
Variable retry_error_callback : option exn -> A.
Hypothesis wait_positive : 0 < wait_fixed.

(** The [k]-th call of the wrapped function: the seconds it takes and how
    it ends. *)
Variable attempt : nat -> nat * outcome A.

(** The loop, from the [k]-th call started at second [now]; the second
    component lists the calls made, each with its start and its end. *)
Equations? retry_loop (k now : nat) : outcome A * list (nat * nat)
  by wf (stop_after_delay - now) lt :=
  retry_loop k now with attempt k => {
    | (took, Ok a) => (Ok a, [(now, now + took)]);
    | (took, Raise e) with retry_if_exception e => {
        | false => (Raise e, [(now, now + took)]);
        | true with le_lt_dec stop_after_delay (now + took) => {
            | left _ =>
                (Ok (retry_error_callback (Some e)), [(now, now + took)]);
            | right _ =>
                let later := retry_loop (S k) (now + took + wait_fixed) in
                (later.1, (now, now + took) :: later.2) } } }.
Proof. lia. Qed.

Definition retry : outcome A * list (nat * nat) := retry_loop 0 0.

(** The second at which the call [k + n] starts, when the call [k] starts
    at [now] and each of the [n] calls from there on is followed by the
    wait. *)
Fixpoint start_of (k now n : nat) : nat :=
  match n with
  | 0 => now
  | S n' => start_of (S k) (now + (attempt k).1 + wait_fixed) n'
  end.

(** The calls of a log follow one another at the fixed interval: a call
    that is followed by another ended before the ceiling, and the next one
    started [wait_fixed] seconds after it ended. *)
Fixpoint spaced (log : list (nat * nat)) : Prop :=
  match log with
  | [] => True
  | (started, ended) :: rest =>
      started <= ended
      /\ match rest with
         | [] => True
         | (started', _) :: _ =>
             ended < stop_after_delay /\ started' = ended + wait_fixed
         end
      /\ spaced rest
  end.

End retry.

End Tenacity.

(** ** sunbeam/core/ovn.py *)

Module Ovn.
Import Common Cluster.

Definition CLUSTERD_CONFIG_KEY : string := "OvnConfig".
Definition SNAP_PROVIDER_CONFIG_KEY : string := "ovn.provider".

Inductive OvnProvider : Type :=
| OVN_K8S
| MICROOVN.

Global Instance OvnProvider_eq_dec : EqDecision OvnProvider.
Proof. solve_decision. Defined.

(** [p.value]. *)
Definition OvnProvider_value (p : OvnProvider) : string :=
  match p with
  | OVN_K8S => "ovn-k8s"
  | MICROOVN => "microovn"
  end.

(** [OvnProvider(v)]: [None] is the [ValueError] of a value that is not
    the value of a member. *)
Definition OvnProvider_of_value (v : value) : option OvnProvider :=
  match v with
  | VStr s =>
      if String.eqb s "ovn-k8s" then Some OVN_K8S
      else if String.eqb s "microovn" then Some MICROOVN
      else None
  | _ => None
  end.

Record OvnConfig : Type := { provider : option OvnProvider }.

Definition DEFAULT_PROVIDER : OvnProvider := OVN_K8S.

(** The calls on the cluster the OVN code makes: reading and writing the
    provider configuration ([load_provider_config], [write_provider_config]),
    [check_sunbeam_bootstrapped] and [list_nodes_by_role], which answers with
    the machine id each node of the role has, if it has one. *)
Record OvnClient (S : Type) : Type := {
  load_provider_config : Call S OvnConfig;
  write_provider_config : OvnConfig -> Call S unit;
  check_sunbeam_bootstrapped : Call S bool;
  list_nodes_by_role : string -> Call S (list (option Z));
}.
Global Arguments load_provider_config {S} _ _.
Global Arguments write_provider_config {S} _ _ _.
Global Arguments check_sunbeam_bootstrapped {S} _ _.
Global Arguments list_nodes_by_role {S} _ _ _.

Section manager.
Context {S : Type}.
Variable client : OvnClient S.

(** [OvnManager.get_provider]. *)
Definition get_provider : Call S OvnProvider :=
  bind (load_provider_config client) (fun config =>
  ret (default DEFAULT_PROVIDER (provider config))).

(** [OvnManager.get_roles_for_microovn]. *)
Definition get_roles_for_microovn : Call S (gset Role) :=
  bind get_provider (fun provider =>
  ret (if decide (provider = MICROOVN)
       then {[NETWORK]} ∪ {[COMPUTE; CONTROL]}
       else {[NETWORK]})).

(** [OvnManager.is_microovn_necessary]. *)
Definition is_microovn_necessary (roles : list Role) : Call S bool :=
  bind get_roles_for_microovn (fun needed =>
  ret (bool_decide (0 < size (needed ∩ list_to_set roles)))).

(** [OvnManager.is_network_agent_dataplane_node]. *)
Definition is_network_agent_dataplane_node (roles : list Role) : Call S bool :=
  bind get_provider (fun provider =>
  let dataplane_roles : gset Role :=
    if decide (provider = MICROOVN) then {[NETWORK]} ∪ {[COMPUTE]}
    else {[NETWORK]} in
  ret (bool_decide (0 < size (dataplane_roles ∩ list_to_set roles)))).

(** [OvnManager.is_microovn_necessary_maas]. *)
Definition is_microovn_necessary_maas (nb_network nb_compute nb_control : Z)
    : Call S bool :=
  bind get_provider (fun provider =>
  ret (if decide (provider = MICROOVN)
       then bool_decide (0 < nb_network + nb_compute + nb_control)%Z
       else bool_decide (0 < nb_network)%Z)).

End manager.

End Ovn.

(** ** sunbeam/steps/microovn.py: [ReapplyMicroOVNTerraformPlanStep] *)

Module ReapplyMicroOVNTerraformPlanStep.
Import Common.

(** What the collaborators do during one call of [run]: how long the call
    takes, and how the three calls it makes end.  A call that is not reached
    is not looked at. *)
Record attempt_env : Type := {
  took : nat;
  get_external_network_configs : outcome unit;
  update_tfvars_and_apply_tf : outcome unit;
  wait_application_ready : outcome unit;
}.

Section run.
(** Whether [TerraformStateLockedException] derives from
    [TerraformException]; both are declared in [sunbeam/core/terraform.py]. *)
Variable locked_is_terraform_exception : bool.

(** [isinstance(e, TerraformException)]. *)
Definition is_TerraformException (e : exn) : bool :=
  match exn_cls e with
  | TerraformException => true
  | TerraformStateLockedException => locked_is_terraform_exception
  | _ => false
  end.

(** [isinstance(e, TerraformStateLockedException)]. *)
Definition is_TerraformStateLockedException (e : exn) : bool :=
  bool_decide (exn_cls e = TerraformStateLockedException).

(** The body of [run], without the decorator.  The updates of
    [self.extra_tfvars] are not modelled. *)
Definition run_body (env : attempt_env) : outcome Result :=
  obind (get_external_network_configs env) (fun _ =>
  match update_tfvars_and_apply_tf env with
  | Raise e =>
      if is_TerraformException e then Ok (mkResult FAILED (exn_msg e))
      else Raise e
  | Ok _ =>
      match wait_application_ready env with
      | Raise e =>
          if bool_decide (exn_cls e = TimeoutError)
          then Ok (mkResult FAILED (exn_msg e))
          else Raise e
      | Ok _ => Ok (mkResult COMPLETED "")
      end
  end).

Definition wait_seconds : nat := 60.
Definition stop_seconds : nat := 300.

Definition wait_seconds_positive : 0 < wait_seconds := Nat.lt_0_succ 59.

(** [run] as decorated; [attempts k] is what the [k]-th call meets. *)
Definition run (attempts : nat -> attempt_env)
    : outcome Result * list (nat * nat) :=
  Tenacity.retry wait_seconds stop_seconds
    is_TerraformStateLockedException convert_retry_failure_as_result
    wait_seconds_positive
    (fun k => (took (attempts k), run_body (attempts k))).

End run.

(** [ReapplyMicroOVNTerraformPlanStep.is_skip]: the loop over the roles
    that need MicroOVN.  The set is walked in the order [elements] gives;
    Python leaves the order of a set unspecified. *)
Fixpoint any_role_has_nodes {S : Type} (client : Ovn.OvnClient S)
    (roles : list Role) : Cluster.Call S Result :=
  match roles with
  | [] => Cluster.ret (mkResult SKIPPED "")
  | role :: rest =>
      Cluster.bind (Ovn.list_nodes_by_role client (lower (Role_name role)))
        (fun nodes =>
           match nodes with
           | [] => any_role_has_nodes client rest
           | _ => Cluster.ret (mkResult COMPLETED "")
           end)
  end.

Definition is_skip {S : Type} (client : Ovn.OvnClient S)
    : Cluster.Call S Result :=
  Cluster.bind (Ovn.get_roles_for_microovn client) (fun roles =>
  any_role_has_nodes client (elements roles)).

(** The second at which the [i]-th call of [run] starts when every call
    before it was followed by the wait. *)
Fixpoint started (attempts : nat -> attempt_env) (i : nat) : nat :=
  match i with
  | 0 => 0
  | S i' => started attempts i' + took (attempts i') + wait_seconds
  end.

(** An apply that finds the state locked, [seconds] long. *)
Definition locked_for (seconds : nat) (lock_id : string) : attempt_env :=
  {| took := seconds;
     get_external_network_configs := Ok tt;
     update_tfvars_and_apply_tf :=
       Raise (Exn TerraformStateLockedException lock_id);
     wait_application_ready := Ok tt |}.

End ReapplyMicroOVNTerraformPlanStep.

(** ** sunbeam/steps/microovn.py: [SetOvnProviderStep] *)

Module SetOvnProviderStep.
Import Common Cluster Ovn.

Section step.
Context {S : Type}.
Variable client : OvnClient S.
Variable snap : Snap.
(** [str(v)] for a value read from the snap configuration. *)
Variable str : value -> string.

(** What the step runs on: the cluster, and [self.wanted_provider]. *)
Definition world : Type := S * option OvnProvider.

Definition invalid_provider (provider_value : value) : exn :=
  Exn ValueError
      ("Invalid value '" +:+ str provider_value +:+ "' for "
       +:+ SNAP_PROVIDER_CONFIG_KEY +:+ ". Valid values are: "
       +:+ join ", " [OvnProvider_value OVN_K8S; OvnProvider_value MICROOVN]).

(** [SetOvnProviderStep.get_config_from_snap]. *)
Definition get_config_from_snap : outcome OvnProvider :=
  obind (FeatureGates.is_feature_gate_enabled "feature.microovn-sdn" snap)
    (fun gate =>
       if negb gate then Ok DEFAULT_PROVIDER
       else
         try_except
           (obind (config_get snap SNAP_PROVIDER_CONFIG_KEY) (fun provider_value =>
              if truthy provider_value then
                match OvnProvider_of_value provider_value with
                | Some MICROOVN => Ok MICROOVN
                | Some _ => Ok DEFAULT_PROVIDER
                | None => Raise (invalid_provider provider_value)
                end
              else Ok DEFAULT_PROVIDER))
           [UnknownConfigKey]
           (fun _ => Ok DEFAULT_PROVIDER)).

Definition change_not_supported : Result :=
  mkResult FAILED "Changing OVN provider is not supported.".

(** [SetOvnProviderStep.is_skip]. *)
Definition is_skip (w : world) : outcome Result * world :=
  match get_config_from_snap with
  | Raise e =>
      if bool_decide (exn_cls e = ValueError)
      then (Ok (mkResult FAILED (exn_msg e)), w)
      else (Raise e, w)
  | Ok snap_value =>
      match load_provider_config client w.1 with
      | (Raise e, s1) => (Raise e, (s1, w.2))
      | (Ok config, s1) =>
          let configured_provider := provider config in
          if bool_decide (configured_provider = Some snap_value)
          then (Ok (mkResult SKIPPED ""), (s1, w.2))
          else
            match check_sunbeam_bootstrapped client s1 with
            | (Raise e, s2) => (Raise e, (s2, w.2))
            | (Ok already_bootstrapped, s2) =>
                if already_bootstrapped
                   && negb (bool_decide (configured_provider = Some snap_value))
                then (Ok change_not_supported, (s2, w.2))
                else (Ok (mkResult COMPLETED ""), (s2, Some snap_value))
            end
      end
  end.

(** [SetOvnProviderStep.run]. *)
Definition run (w : world) : outcome Result * world :=
  match w.2 with
  | None => (Ok (mkResult FAILED "Invalid state, wanted_provider is None"), w)
  | Some wanted_provider =>
      match load_provider_config client w.1 with
      | (Raise e, s1) => (Raise e, (s1, w.2))
      | (Ok config, s1) =>
          match write_provider_config client
                  {| provider := Some wanted_provider |} s1 with
          | (Raise e, s2) => (Raise e, (s2, w.2))
          | (Ok _, s2) => (Ok (mkResult COMPLETED ""), (s2, w.2))
          end
      end
  end.

(** The step as [run_plan] sees it. *)
Definition step : BaseStep world :=
  {| cls_name := "SetOvnProviderStep";
     step_name := "Set OVN provider";
     description := "Setting OVN provider in deployment configuration";
     has_prompts := BaseStep_has_prompts;
     prompt := BaseStep_prompt;
     Common.is_skip := is_skip;
     Common.run := run |}.

End step.

(** A cluster that holds one provider configuration, is bootstrapped or
    not, and keeps every configuration written to it. *)
Record store : Type := {
  stored : OvnConfig;
  bootstrapped : bool;
  written : list OvnConfig;
}.

Definition store_client : OvnClient store :=
  {| load_provider_config := fun s => (Ok (stored s), s);
     write_provider_config := fun config s =>
       (Ok tt, {| stored := config; bootstrapped := bootstrapped s;
                  written := written s ++ [config] |});
     check_sunbeam_bootstrapped := fun s => (Ok (bootstrapped s), s);
     list_nodes_by_role := fun _ s => (Ok [], s) |}.

End SetOvnProviderStep.

(** ** Sample capabilities and collaborators *)

Section samples.
Import FeatureGates.

Definition pure_storage : FeatureGateMixin :=
  {| generally_available := false;
     backend_type := Some "pure-storage"; name := None |}.

Definition multi_region : FeatureGateMixin :=
  {| generally_available := false;
     backend_type := None; name := Some "multi-region" |}.

Definition anonymous (ga : bool) : FeatureGateMixin :=
  {| generally_available := ga; backend_type := None; name := None |}.

(** A snap where exactly one key is set to [true]. *)
Definition snap_with (key : string) : Snap :=
  {| config_get := fun k =>
       if String.eqb k key then Ok (VBool true)
       else Raise (Exn UnknownConfigKey k);
     config_get_options := fun _ => Ok [] |}.

(** A snap where nothing is set. *)
Definition snap_empty : Snap :=
  {| config_get := fun k => Raise (Exn UnknownConfigKey k);
     config_get_options := fun _ => Ok [] |}.

(** A snap that cannot be read at all. *)
Definition snap_broken : Snap :=
  {| config_get := fun k => Raise (Exn (OtherException "SnapCtlError") k);
     config_get_options := fun k => Raise (Exn (OtherException "SnapCtlError") k) |}.

(** A cluster where every gate is recorded as enabled and no enabled list
    is stored. *)
Definition cluster_all_enabled : ClusterView :=
  {| get_feature_gate := fun k => Ok (Some {| gate_key_of := k; enabled := true |});
     get_config := fun k => Raise (Exn ConfigItemNotFoundException k) |}.


(** A cluster without gate records whose enabled list is the document
    [doc]. *)
Definition cluster_listing (doc : string) : ClusterView :=
  {| get_feature_gate := fun k => Raise (Exn (OtherException "Exception") "Not found");
     get_config := fun _ => Ok doc |}.

(** A decoder that knows one document, the array holding ["ceph"]. *)
Definition json_loads_sample (doc : string) : outcome json :=
  if String.eqb doc "[ceph]" then Ok (JArr [JStr "ceph"])
  else Raise (Exn JSONDecodeError doc).

(** Steps over a world that counts the [run] calls made so far. *)
Definition sample_step (cls : string) (skip res : Common.Result)
    : Common.BaseStep nat :=
  {| Common.cls_name := cls;
     Common.step_name := cls;
     Common.description := "";
     Common.has_prompts := Common.BaseStep_has_prompts;
     Common.prompt := Common.BaseStep_prompt;
     Common.is_skip := fun w => (Ok skip, w);
     Common.run := fun w => (Ok res, S w) |}.

Definition go_on : Common.Result := Common.mkResult Common.COMPLETED "".
Definition done_already : Common.Result := Common.mkResult Common.SKIPPED "".
Definition broke (msg : string) : Common.Result :=
  Common.mkResult Common.FAILED msg.

(** A snap whose options below [feature] are [v]. *)
Definition snap_features (v : value) : Snap :=
  {| config_get := fun k => Raise (Exn UnknownConfigKey k);
     config_get_options := fun k =>
       if String.eqb k "feature" then Ok [("feature", v)] else Ok [] |}.

(** [snap set openstack feature.multi-region=true
    feature.storage.pure-storage=true feature.storage.ceph=false]. *)
Definition three_gates : value :=
  VDict [("multi-region", VBool true);
         ("storage", VDict [("pure-storage", VBool true);
                            ("ceph", VBool false)])].

(** A database that holds one of the gates, switched the other way. *)
Definition db_with_ceph_on : Cluster.ClusterDb :=
  {| Cluster.gates := {["feature.storage.ceph" := true]};
     Cluster.calls := [] |}.

(** A snap with the MicroOVN gate on and [ovn.provider] set to [provider]. *)
Definition snap_ovn (provider : value) : Snap :=
  {| config_get := fun k =>
       if String.eqb k "feature.microovn-sdn" then Ok (VBool true)
       else if String.eqb k "ovn.provider" then Ok provider
       else Raise (Exn UnknownConfigKey k);
     config_get_options := fun _ => Ok [] |}.

(** A cluster that is not bootstrapped and records no provider. *)
Definition fresh_cluster : SetOvnProviderStep.store :=
  {| SetOvnProviderStep.stored := {| Ovn.provider := None |};
     SetOvnProviderStep.bootstrapped := false;
     SetOvnProviderStep.written := [] |}.

(** A bootstrapped cluster that records the default provider. *)
Definition bootstrapped_on_k8s : SetOvnProviderStep.store :=
  {| SetOvnProviderStep.stored := {| Ovn.provider := Some Ovn.OVN_K8S |};
     SetOvnProviderStep.bootstrapped := true;
     SetOvnProviderStep.written := [] |}.

(** [str] on the strings of the snap configuration. *)
Definition str_sample (v : value) : string :=
  match v with
  | VStr s => s
  | _ => "?"
  end.

(** An encoder for the one document the sample decoder knows. *)
Definition json_dumps_sample (j : json) : string :=
  match j with
  | JArr [JStr s] => if String.eqb s "ceph" then "[ceph]" else "null"
  | _ => "null"
  end.

(** A cluster database with nothing in it. *)
Definition config_db_empty : Storage.ConfigDb :=
  {| Storage.config := ∅; Storage.gate_records := ∅;
     Storage.config_writes := [] |}.

(** A cluster on the default provider that has only compute and control
    nodes. *)
Definition compute_and_control_nodes : Ovn.OvnClient unit :=
  {| Ovn.load_provider_config := fun s =>
       (Ok {| Ovn.provider := Some Ovn.OVN_K8S |}, s);
     Ovn.write_provider_config := fun _ s => (Ok tt, s);
     Ovn.check_sunbeam_bootstrapped := fun s => (Ok true, s);
     Ovn.list_nodes_by_role := fun role s =>
       (Ok (if String.eqb role "network" then [] else [Some 0%Z]), s) |}.

(** A reapply that meets the lock twice, ten seconds each time, and
    then goes through. *)
Definition lock_released (k : nat) : ReapplyMicroOVNTerraformPlanStep.attempt_env :=
  if (k <? 2)%nat then ReapplyMicroOVNTerraformPlanStep.locked_for 10 "lock-4711"
  else
    {| ReapplyMicroOVNTerraformPlanStep.took := 45;
       ReapplyMicroOVNTerraformPlanStep.get_external_network_configs := Ok tt;
       ReapplyMicroOVNTerraformPlanStep.update_tfvars_and_apply_tf := Ok tt;
       ReapplyMicroOVNTerraformPlanStep.wait_application_ready := Ok tt |}.

(** A client every call of which finds the cluster service down. *)
Definition gate_client_down : Cluster.GateClient nat :=
  {| Cluster.get_feature_gate := fun k calls =>
       (Raise (Exn ClusterServiceUnavailableException k), S calls);
     Cluster.add_feature_gate := fun k _ calls =>
       (Raise (Exn ClusterServiceUnavailableException k), S calls);
     Cluster.update_feature_gate := fun k _ calls =>
       (Raise (Exn ClusterServiceUnavailableException k), S calls) |}.

Definition finished (msg : string) : Common.Result :=
  Common.mkResult Common.COMPLETED msg.

(** A plan in which the class ["A"] occurs twice. *)
Definition plan_with_twin : list (Common.BaseStep nat) :=
  [sample_step "A" go_on (finished "first");
   sample_step "B" go_on (finished "other");
   sample_step "A" go_on (finished "second")].

End samples.

(* ===================================================================== *)
(** * Part II: the properties                                             *)
(* ===================================================================== *)

Section gate_key_facts.
Import FeatureGates.

Lemma gate_key_backend self bt :
  backend_type self = Some bt ->
  gate_key self = Ok ("feature.storage." +:+ bt).
Proof. unfold gate_key. by intros ->. Qed.

Lemma gate_key_name self n :
  backend_type self = None -> name self = Some n ->
  gate_key self = Ok ("feature." +:+ n).
Proof. unfold gate_key. by intros -> ->. Qed.

Lemma gate_key_neither self :
  backend_type self = None -> name self = None ->
  gate_key self = Raise missing_identity.
Proof. unfold gate_key. by intros -> ->. Qed.

End gate_key_facts.

(** ** Gate-key derivation *)

Section gate_key_examples.
Import FeatureGates.

Lemma gate_key_returns_only_with_identity self k :
  gate_key self = Ok k ->
  is_Some (backend_type self) \/ is_Some (name self).
Proof.
  unfold gate_key. destruct (backend_type self); [by left; eexists|].
  destruct (name self); [by right; eexists|]. discriminate.
Qed.

End gate_key_examples.

(** C7. Gate-key derivation: a capability with a [backend_type] gets
    ["feature.storage.<backend_type>"] (also when it has a [name] as well),
    a capability with a [name] only gets ["feature.<name>"], and a
    capability with neither is built without an error and raises the
    missing-identity [ValueError] when its gate key is requested; no key is
    ever returned for a capability without an identity. *)
Theorem gate_key_derivation :
  (forall self bt,
      FeatureGates.backend_type self = Some bt ->
      FeatureGates.gate_key self = Ok ("feature.storage." +:+ bt))
  /\ (forall self n,
      FeatureGates.backend_type self = None ->
      FeatureGates.name self = Some n ->
      FeatureGates.gate_key self = Ok ("feature." +:+ n))
  /\ FeatureGates.gate_key pure_storage = Ok "feature.storage.pure-storage"
  /\ FeatureGates.gate_key multi_region = Ok "feature.multi-region"
  /\ (forall ga,
      FeatureGates.new ga None None = Ok (anonymous ga)
      /\ FeatureGates.gate_key (anonymous ga)
         = Raise (Exn ValueError
             "FeatureGateMixin requires either 'backend_type' or 'name' attribute"))
  /\ (forall self k,
      FeatureGates.gate_key self = Ok k ->
      is_Some (FeatureGates.backend_type self)
      \/ is_Some (FeatureGates.name self)).
Proof.
  split; [exact gate_key_backend|].
  split; [exact gate_key_name|].
  do 2 (split; [reflexivity|]).
  split; [by intros ga|].
  exact gate_key_returns_only_with_identity.
Qed.

Lemma gate_key_derivation_witness :
  FeatureGates.gate_key
    {| FeatureGates.generally_available := true;
       FeatureGates.backend_type := Some "ceph";
       FeatureGates.name := Some "storage" |}
  = Ok "feature.storage.ceph"
  /\ FeatureGates.gate_key
       {| FeatureGates.generally_available := false;
          FeatureGates.backend_type := None;
          FeatureGates.name := Some "telemetry" |}
     = Ok "feature.telemetry".
Proof.
  split.
  - apply (proj1 gate_key_derivation). reflexivity.
  - apply (proj1 (proj2 gate_key_derivation)); reflexivity.
Defined.

(** ** Gate resolution *)

Section check_gated_facts.
Import FeatureGates.
Variable json_loads : string -> outcome json.
Variable Snap_new : Snap.

Local Abbreviation check_gated := (check_gated json_loads Snap_new).



Lemma cluster_gate_enabled_silent self client k :
  gate_key self = Ok k ->
  gate_record_silent client k ->
  cluster_gate_enabled self client = false.
Proof.
  unfold cluster_gate_enabled, gate_record_silent. intros ->.
  destruct client as [c|]; [|done]. cbn.
  destruct (get_feature_gate c k) as [[gate|]|e]; done.
Qed.

Lemma json_is_str_existsb x items :
  existsb (json_is_str x) items = true <-> JStr x ∈ items.
Proof.
  rewrite existsb_exists. split.
  - intros (j & Hin & Hj). destruct j; try discriminate.
    cbn in Hj. apply String.eqb_eq in Hj as ->. by apply list_elem_of_In.
  - intros Hin. exists (JStr x). split; [by apply list_elem_of_In|].
    cbn. apply String.eqb_refl.
Qed.










End check_gated_facts.



(** ** The plan runner *)

Ltac in_list :=
  solve [apply list_elem_of_In; cbn;
         repeat (first [left; reflexivity | right])].

Ltac events_eq :=
  cbn; rewrite <- ?app_assoc; cbn; rewrite <- ?app_assoc; reflexivity.

Section run_plan_facts.
Import Common.
Context {W : Type}.
Implicit Types (step : BaseStep W) (plan rest : list (BaseStep W)).
Implicit Types (results : gmap string Result) (w : W) (tr : list event).

Lemma run_step_preflight {A} pos step w tr hp w1 (k : bool -> Plan A) :
  prompt_phase step w = (Ok hp, w1) ->
  bind (call pos HasPrompts (has_prompts step)) (fun hp =>
    bind (if hp : bool then call pos Prompt (prompt step) else ret tt)
         (fun _ => k hp)) (w, tr)
  = k hp (w1, tr ++ [Called pos HasPrompts]
                 ++ (if hp then [Called pos Prompt] else [])).
Proof.
  unfold prompt_phase, bind, call, ret. cbn.
  destruct (has_prompts step w) as [[[]|e] w']; cbn.
  - destruct (prompt step w') as [[[]|e] w'']; cbn; intros [= <- <-].
    by rewrite <- app_assoc.
  - by intros [= <- <-].
  - discriminate.
Qed.

Lemma run_step_run_failed no_raise pos step results w tr hp w1 rs w2 rr w3 :
  prompt_phase step w = (Ok hp, w1) ->
  is_skip step w1 = (Ok rs, w2) ->
  result_type rs = COMPLETED ->
  run step w2 = (Ok rr, w3) ->
  result_type rr = FAILED ->
  run_step no_raise pos step results (w, tr)
  = ((if no_raise then Ok (Break (<[cls_name step := rr]> results))
      else Raise (Exn ClickException (message rr))),
     (w3, tr ++ preflight_events pos hp
             ++ [Called pos Run; Assigned pos (cls_name step) rr])).
Proof.
  intros Hp Hs Hrs Hr Hrr. unfold run_step.
  rewrite (run_step_preflight _ _ _ _ _ _ _ Hp).
  unfold bind, call, assign, ret, raise, preflight_events. cbn.
  rewrite Hs. cbn. rewrite Hrs. cbn. rewrite Hr. cbn. rewrite Hrr.
  destruct no_raise; events_eq.
Qed.

Lemma run_step_skip_failed no_raise pos step results w tr hp w1 rs w2 :
  prompt_phase step w = (Ok hp, w1) ->
  is_skip step w1 = (Ok rs, w2) ->
  result_type rs = FAILED ->
  run_step no_raise pos step results (w, tr)
  = (if no_raise then
       (Ok (Break (<[cls_name step := rs]> results)),
        (w2, tr ++ preflight_events pos hp ++ [Assigned pos (cls_name step) rs]))
     else
       (Raise (Exn ClickException (message rs)),
        (w2, tr ++ preflight_events pos hp))).
Proof.
  intros Hp Hs Hrs. unfold run_step.
  rewrite (run_step_preflight _ _ _ _ _ _ _ Hp).
  unfold bind, call, assign, ret, raise, preflight_events. cbn.
  rewrite Hs. cbn. rewrite Hrs.
  destruct no_raise; events_eq.
Qed.

Lemma run_step_skipped no_raise pos step results w tr hp w1 rs w2 :
  prompt_phase step w = (Ok hp, w1) ->
  is_skip step w1 = (Ok rs, w2) ->
  result_type rs = SKIPPED ->
  run_step no_raise pos step results (w, tr)
  = (Ok (Continue (<[cls_name step := rs]> results)),
     (w2, tr ++ preflight_events pos hp ++ [Assigned pos (cls_name step) rs])).
Proof.
  intros Hp Hs Hrs. unfold run_step.
  rewrite (run_step_preflight _ _ _ _ _ _ _ Hp).
  unfold bind, call, assign, ret, raise, preflight_events. cbn.
  rewrite Hs. cbn. rewrite Hrs. events_eq.
Qed.

Lemma run_step_completed no_raise pos step results w tr hp w1 rs w2 rr w3 :
  prompt_phase step w = (Ok hp, w1) ->
  is_skip step w1 = (Ok rs, w2) ->
  result_type rs = COMPLETED ->
  run step w2 = (Ok rr, w3) ->
  result_type rr <> FAILED ->
  run_step no_raise pos step results (w, tr)
  = (Ok (Continue (<[cls_name step := rr]> results)),
     (w3, tr ++ preflight_events pos hp
             ++ [Called pos Run; Assigned pos (cls_name step) rr])).
Proof.
  intros Hp Hs Hrs Hr Hrr. unfold run_step.
  rewrite (run_step_preflight _ _ _ _ _ _ _ Hp).
  unfold bind, call, assign, ret, raise, preflight_events. cbn.
  rewrite Hs. cbn. rewrite Hrs. cbn. rewrite Hr. cbn.
  destruct (result_type rr); [|done|]; events_eq.
Qed.

(** A step that halts the plan hides whatever follows it. *)
Lemma run_steps_halt no_raise pos step rest results st o st' :
  run_step no_raise pos step results st = (o, st') ->
  (forall v, o <> Ok (Continue v)) ->
  run_steps no_raise pos (step :: rest) results st
  = (match o with
     | Ok (Break r) => Ok r
     | Ok (Continue r) => Ok r
     | Raise e => Raise e
     end, st').
Proof.
  intros Hstep Hne. cbn. unfold bind at 1. rewrite Hstep.
  destruct o as [[v|v]|e]; [by destruct (Hne v)|done|done].
Qed.

Lemma run_steps_continue no_raise pos step rest results st r st' :
  run_step no_raise pos step results st = (Ok (Continue r), st') ->
  run_steps no_raise pos (step :: rest) results st
  = run_steps no_raise (S pos) rest r st'.
Proof. intros Hstep. cbn. unfold bind at 1. by rewrite Hstep. Qed.

Lemma preflight_events_pos pos hp :
  Forall (fun ev => event_pos ev = pos) (preflight_events pos hp).
Proof. unfold preflight_events. destruct hp; repeat constructor. Qed.

Lemma run_steps_halts_in_run no_raise pos step rest results w tr hp w1 rs w2 rr w3 :
  prompt_phase step w = (Ok hp, w1) ->
  is_skip step w1 = (Ok rs, w2) ->
  result_type rs = COMPLETED ->
  run step w2 = (Ok rr, w3) ->
  result_type rr = FAILED ->
  run_steps no_raise pos (step :: rest) results (w, tr)
  = ((if no_raise then Ok (<[cls_name step := rr]> results)
      else Raise (Exn ClickException (message rr))),
     (w3, tr ++ preflight_events pos hp
             ++ [Called pos Run; Assigned pos (cls_name step) rr])).
Proof.
  intros Hp Hs Hrs Hr Hrr.
  pose proof (run_step_run_failed no_raise pos step results w tr
                _ _ _ _ _ _ Hp Hs Hrs Hr Hrr) as Hstep.
  rewrite (run_steps_halt _ _ _ rest _ _ _ _ Hstep); by destruct no_raise.
Qed.

Lemma run_steps_halts_in_is_skip no_raise pos step rest results w tr hp w1 rs w2 :
  prompt_phase step w = (Ok hp, w1) ->
  is_skip step w1 = (Ok rs, w2) ->
  result_type rs = FAILED ->
  run_steps no_raise pos (step :: rest) results (w, tr)
  = (if no_raise then
       (Ok (<[cls_name step := rs]> results),
        (w2, tr ++ preflight_events pos hp ++ [Assigned pos (cls_name step) rs]))
     else
       (Raise (Exn ClickException (message rs)),
        (w2, tr ++ preflight_events pos hp))).
Proof.
  intros Hp Hs Hrs.
  pose proof (run_step_skip_failed no_raise pos step results w tr
                _ _ _ _ Hp Hs Hrs) as Hstep.
  destruct no_raise; by rewrite (run_steps_halt _ _ _ rest _ _ _ _ Hstep).
Qed.

End run_plan_facts.

(** C2. A plan halts at its first failure.  For a plan [A :: rest] (so for
    [[A; B; C]]) whose first step gets through its prompt phase: when
    [A.run] returns [FAILED], [run_plan] with [no_raise=False] raises a
    [ClickException] carrying the message, with [no_raise=True] it returns
    the results recorded so far, the failure included; the same when
    [A.is_skip] returns [FAILED].  In all four cases the events of the run
    are those of [A] alone: no method of a later step is called. *)
Theorem run_plan_halts_on_failure :
  forall (W : Type) (A : Common.BaseStep W) (rest : list (Common.BaseStep W))
         (w : W) (hp : bool) (w1 : W),
    Common.prompt_phase A w = (Ok hp, w1) ->
    (forall rs w2 rr w3,
        Common.is_skip A w1 = (Ok rs, w2) ->
        Common.result_type rs = Common.COMPLETED ->
        Common.run A w2 = (Ok rr, w3) ->
        Common.result_type rr = Common.FAILED ->
        let tr := Common.preflight_events 0 hp
                  ++ [Common.Called 0 Common.Run;
                      Common.Assigned 0 (Common.cls_name A) rr] in
        Common.run_plan (A :: rest) false w
        = (Raise (Exn ClickException (Common.message rr)), (w3, tr))
        /\ Common.run_plan (A :: rest) true w
           = (Ok {[Common.cls_name A := rr]}, (w3, tr))
        /\ Forall (fun ev => Common.event_pos ev = 0) tr)
    /\ (forall rs w2,
        Common.is_skip A w1 = (Ok rs, w2) ->
        Common.result_type rs = Common.FAILED ->
        let tr := Common.preflight_events 0 hp in
        Common.run_plan (A :: rest) false w
        = (Raise (Exn ClickException (Common.message rs)), (w2, tr))
        /\ Common.run_plan (A :: rest) true w
           = (Ok {[Common.cls_name A := rs]},
              (w2, tr ++ [Common.Assigned 0 (Common.cls_name A) rs]))
        /\ Forall (fun ev => Common.event_pos ev = 0)
                  (tr ++ [Common.Assigned 0 (Common.cls_name A) rs])).
Proof.
  intros W A rest w hp w1 Hp. split.
  - intros rs w2 rr w3 Hs Hrs Hr Hrr tr. unfold Common.run_plan.
    rewrite !(run_steps_halts_in_run _ 0 A rest ∅ w [] _ _ _ _ _ _
                Hp Hs Hrs Hr Hrr).
    cbn [app]. rewrite insert_empty. split_and!; [done..|].
    apply Forall_app. split; [apply preflight_events_pos|by repeat constructor].
  - intros rs w2 Hs Hrs tr. unfold Common.run_plan.
    rewrite !(run_steps_halts_in_is_skip _ 0 A rest ∅ w [] _ _ _ _
                Hp Hs Hrs).
    cbn [app]. rewrite insert_empty. split_and!; [done..|].
    apply Forall_app. split; [apply preflight_events_pos|by repeat constructor].
Qed.

Lemma run_plan_halts_on_failure_witness :
  Common.run_plan
    [sample_step "A" go_on (broke "boom");
     sample_step "B" go_on go_on;
     sample_step "C" go_on go_on] false 0
  = (Raise (Exn ClickException "boom"),
     (1, [Common.Called 0 Common.HasPrompts; Common.Called 0 Common.IsSkip;
          Common.Called 0 Common.Run;
          Common.Assigned 0 "A" (broke "boom")]))
  /\ Common.run_plan
       [sample_step "A" (broke "no") go_on;
        sample_step "B" go_on go_on;
        sample_step "C" go_on go_on] false 0
     = (Raise (Exn ClickException "no"),
        (0, [Common.Called 0 Common.HasPrompts; Common.Called 0 Common.IsSkip])).
Proof.
  split.
  - apply (proj1 (run_plan_halts_on_failure nat
             (sample_step "A" go_on (broke "boom")) _ 0 false 0 eq_refl)
             go_on 0 (broke "boom") 1); reflexivity.
  - apply (proj2 (run_plan_halts_on_failure nat
             (sample_step "A" (broke "no") go_on) _ 0 false 0 eq_refl)
             (broke "no") 0); reflexivity.
Defined.


(** ** The results mapping *)

Section results_facts.
Import Common.
Context {W : Type}.
Implicit Types (step : BaseStep W) (plan rest : list (BaseStep W)).
Implicit Types (results : gmap string Result) (w : W) (tr : list event).
Implicit Types (log : list (nat * string * Result)).

Definition earlier (a b : nat * string * Result) : Prop := a.1.1 < b.1.1.

Lemma assignments_app tr1 tr2 :
  assignments (tr1 ++ tr2) = assignments tr1 ++ assignments tr2.
Proof. unfold assignments. apply omap_app. Qed.

Lemma elem_of_assignments tr pos cls r :
  (pos, cls, r) ∈ assignments tr <-> Assigned pos cls r ∈ tr.
Proof.
  unfold assignments. rewrite list_elem_of_omap. split.
  - intros (ev & Hin & Hev). destruct ev as [|p c r']; [discriminate|].
    by injection Hev as -> -> ->.
  - intros Hin. by exists (Assigned pos cls r).
Qed.

Lemma results_of_app results log1 log2 :
  results_of results (log1 ++ log2) = results_of (results_of results log1) log2.
Proof. unfold results_of. apply foldl_app. Qed.

Lemma results_of_untouched log results cls :
  (forall b, b ∈ log -> b.1.2 <> cls) ->
  results_of results log !! cls = results !! cls.
Proof.
  revert results. induction log as [|x log IH]; intros results Hne; [done|].
  cbn. rewrite IH.
  - unfold record. apply lookup_insert_ne. apply Hne. by left.
  - intros b Hb. apply Hne. by right.
Qed.

Lemma results_of_lookup_last log :
  StronglySorted earlier log ->
  forall results a,
    a ∈ log ->
    (forall b, b ∈ log -> b.1.2 = a.1.2 -> b.1.1 <= a.1.1) ->
    results_of results log !! a.1.2 = Some a.2.
Proof.
  induction 1 as [|x log Hsorted IH Hall]; intros results a Hin Hlast.
  - by apply elem_of_nil in Hin.
  - cbn. destruct (decide (a ∈ log)) as [Hin'|Hnot].
    + apply IH; [done|]. intros b Hb. apply Hlast. by right.
    + apply elem_of_cons in Hin as [->|]; [|done].
      rewrite results_of_untouched.
      * unfold record. apply lookup_insert_eq.
      * intros b Hb Hcls. rewrite Forall_forall in Hall.
        specialize (Hall b Hb). unfold earlier in Hall.
        specialize (Hlast b ltac:(by right) Hcls). lia.
Qed.

Lemma run_step_events no_raise pos step results st o st' :
  run_step no_raise pos step results st = (o, st') ->
  exists new,
    st'.2 = st.2 ++ new
    /\ Forall (fun a => a.1.1 = pos /\ a.1.2 = cls_name step) (assignments new)
    /\ length (assignments new) <= 1
    /\ forall v, o = Ok v ->
         match v with Continue r | Break r => r end
         = results_of results (assignments new).
Proof.
  unfold run_step, bind, call, assign, ret, raise.
  destruct st as [w tr]. cbn. intros Hrun.
  repeat (case_match; simplify_eq/=);
    (eexists; split; [rewrite <- ?app_assoc; reflexivity|]);
    cbn; (split_and!;
      [ first [by apply Forall_nil_2
              | apply Forall_cons_2; [done|apply Forall_nil_2]]
      | lia
      | intros v Hv; first [discriminate Hv | by injection Hv as <-] ]).
Qed.

Lemma run_steps_events plan :
  forall no_raise pos results st o st',
    run_steps no_raise pos plan results st = (o, st') ->
    exists new,
      st'.2 = st.2 ++ new
      /\ StronglySorted earlier (assignments new)
      /\ Forall (fun a => pos <= a.1.1
                         /\ cls_name <$> plan !! (a.1.1 - pos) = Some a.1.2)
                (assignments new)
      /\ forall r, o = Ok r -> r = results_of results (assignments new).
Proof.
  induction plan as [|step rest IH]; intros no_raise pos results st o st'.
  - cbn. unfold ret. intros [= <- <-]. exists []. rewrite app_nil_r.
    split_and!; [done|constructor|constructor|]. by intros r [= <-].
  - cbn. unfold bind at 1.
    destruct (run_step no_raise pos step results st) as [o1 st1] eqn:Hstep.
    apply run_step_events in Hstep as (new1 & Htr1 & Hpos1 & Hlen1 & Hres1).
    assert (Hhere : Forall (fun a => pos <= a.1.1
                      /\ cls_name <$> (step :: rest) !! (a.1.1 - pos) = Some a.1.2)
                    (assignments new1)).
    { eapply Forall_impl; [exact Hpos1|]. intros a [-> ->].
      by rewrite Nat.sub_diag. }
    destruct o1 as [[r1|r1]|e].
    + intros Hrest.
      apply IH in Hrest as (new2 & Htr2 & Hsorted2 & Hpos2 & Hres2).
      exists (new1 ++ new2). rewrite assignments_app.
      split_and!.
      * rewrite Htr2, Htr1. by rewrite app_assoc.
      * destruct (assignments new1) as [|a [|]]; cbn in *; [done| |lia].
        constructor; [done|]. apply Forall_cons_1 in Hpos1 as [[Ha _] _].
        eapply Forall_impl; [exact Hpos2|]. intros b [Hb _].
        unfold earlier. lia.
      * apply Forall_app. split; [done|].
        eapply Forall_impl; [exact Hpos2|]. intros b [Hb Hcls].
        split; [lia|]. replace (b.1.1 - pos) with (S (b.1.1 - S pos)) by lia.
        done.
      * intros r ->. rewrite results_of_app.
        rewrite (Hres2 _ eq_refl). f_equal. exact (Hres1 _ eq_refl).
    + unfold ret. intros [= <- <-]. exists new1.
      split_and!; [done| |done|].
      * destruct (assignments new1) as [|a [|]]; cbn in *;
          [constructor|repeat constructor|lia].
      * intros r [= <-]. exact (Hres1 _ eq_refl).
    + intros [= <- <-]. exists new1.
      split_and!; [done| |done|done].
      destruct (assignments new1) as [|a [|]]; cbn in *;
        [constructor|repeat constructor|lia].
Qed.

(** An assignment that no later step of the same class follows is the one
    the returned mapping holds. *)
Lemma run_plan_lookup_last plan no_raise w results w' tr pos cls r :
  run_plan plan no_raise w = (Ok results, (w', tr)) ->
  Assigned pos cls r ∈ tr ->
  (forall k, pos < k -> cls_name <$> plan !! k <> Some cls) ->
  results !! cls = Some r.
Proof.
  unfold run_plan. intros Hrun Hin Hlast.
  apply run_steps_events in Hrun as (new & Htr & Hsorted & Hpos & Hres).
  cbn in Htr. subst new. rewrite (Hres _ eq_refl).
  apply elem_of_assignments in Hin.
  apply (results_of_lookup_last _ Hsorted ∅ (pos, cls, r) Hin).
  intros b Hb Hcls. cbn in *. rewrite Forall_forall in Hpos.
  destruct (Hpos b Hb) as [_ Hb']. rewrite Nat.sub_0_r in Hb'.
  destruct (decide (b.1.1 <= pos)) as [|Hgt]; [done|].
  destruct (Hlast b.1.1 ltac:(lia)). by rewrite Hb', Hcls.
Qed.

Lemma run_plan_assigned_class plan no_raise w o w' tr pos cls r :
  run_plan plan no_raise w = (o, (w', tr)) ->
  Assigned pos cls r ∈ tr ->
  cls_name <$> plan !! pos = Some cls.
Proof.
  unfold run_plan. intros Hrun Hin.
  apply run_steps_events in Hrun as (new & Htr & _ & Hpos & _).
  cbn in Htr. subst new. apply elem_of_assignments in Hin.
  rewrite Forall_forall in Hpos. destruct (Hpos _ Hin) as [_ Hcls].
  cbn in Hcls. by rewrite Nat.sub_0_r in Hcls.
Qed.

Lemma filter_none {A} (P : A -> Prop) `{forall x, Decision (P x)} (l : list A) :
  (forall x, x ∈ l -> ~ P x) -> filter P l = [].
Proof.
  induction l as [|x l IH]; intros Hnot; [done|].
  rewrite filter_cons_False; [|apply Hnot; by left].
  apply IH. intros y Hy. apply Hnot. by right.
Qed.

(** A key of a dictionary has one entry. *)
Lemma one_entry_per_key results cls r :
  results !! cls = Some r ->
  filter (fun kv => kv.1 = cls) (map_to_list results) = [(cls, r)].
Proof.
  intros Hlook. apply Permutation_singleton_r.
  rewrite <- (insert_delete_id results cls r Hlook) at 1.
  rewrite map_to_list_insert by apply lookup_delete_eq.
  rewrite filter_cons_True by done.
  rewrite filter_none; [done|].
  intros [k v] Hin Hk. cbn in Hk. subst k.
  apply elem_of_map_to_list in Hin. by rewrite lookup_delete_eq in Hin.
Qed.

End results_facts.

(** C9. The mapping [run_plan] returns is keyed by the class name of the
    steps.  Every assignment is made under the class name of the step at its
    position.  When two steps of the plan, at positions [i < j], are the only
    ones of their class and both have a result recorded, the mapping holds
    one entry for the class and it is the result of the later step.  When a
    step is the only one of its class, its recorded result is the one the
    mapping holds: steps of other classes do not overwrite it. *)
Theorem run_plan_results_keyed_by_type :
  forall (W : Type) (plan : list (Common.BaseStep W)) (no_raise : bool) (w w' : W)
         (results : gmap string Common.Result) (tr : list Common.event),
    Common.run_plan plan no_raise w = (Ok results, (w', tr)) ->
    (forall pos cls r,
        Common.Assigned pos cls r ∈ tr ->
        Common.cls_name <$> plan !! pos = Some cls)
    /\ (forall i j cls ri rj,
        i < j ->
        Common.Assigned i cls ri ∈ tr ->
        Common.Assigned j cls rj ∈ tr ->
        (forall k, Common.cls_name <$> plan !! k = Some cls -> k = i \/ k = j) ->
        results !! cls = Some rj
        /\ filter (fun kv => kv.1 = cls) (map_to_list results) = [(cls, rj)])
    /\ (forall i cls r,
        Common.Assigned i cls r ∈ tr ->
        (forall k, Common.cls_name <$> plan !! k = Some cls -> k = i) ->
        results !! cls = Some r).
Proof.
  intros W plan no_raise w w' results tr Hrun. split_and!.
  - intros pos cls r. by apply (run_plan_assigned_class _ _ _ _ _ _ _ _ _ Hrun).
  - intros i j cls ri rj Hij Hi Hj Honly.
    assert (results !! cls = Some rj) as Hlook.
    { apply (run_plan_lookup_last _ _ _ _ _ _ _ _ _ Hrun Hj).
      intros k Hk Hcls. destruct (Honly k Hcls); lia. }
    split; [done|]. by apply one_entry_per_key.
  - intros i cls r Hi Honly.
    apply (run_plan_lookup_last _ _ _ _ _ _ _ _ _ Hrun Hi).
    intros k Hk Hcls. specialize (Honly k Hcls). lia.
Qed.

Lemma run_plan_results_keyed_by_type_witness :
  exists results w' tr,
    Common.run_plan plan_with_twin false 0 = (Ok results, (w', tr))
    /\ results !! "A" = Some (finished "second")
    /\ results !! "B" = Some (finished "other")
    /\ size results = 2.
Proof.
  eexists _, _, _. split; [reflexivity|].
  pose proof (run_plan_results_keyed_by_type nat plan_with_twin false 0 _ _ _
                eq_refl) as (_ & Htwin & Hsingle).
  split_and!.
  - refine (proj1 (Htwin 0 2 "A" (finished "first") (finished "second")
                     ltac:(lia) _ _ _)).
    + in_list.
    + in_list.
    + intros [|[|[|k]]]; cbn; intros [=]; auto.
  - refine (Hsingle 1 "B" (finished "other") _ _).
    + in_list.
    + intros [|[|[|k]]]; cbn; intros [=]; auto.
  - vm_compute. reflexivity.
Defined.

(** ** Role parsing and the role combinations *)

Section role_facts.
Import Common LocalCommands.
Variable Snap_new : Snap.

Local Abbreviation names_enabled_role := (names_enabled_role Snap_new).

Lemma validate_role_ok s role :
  names_enabled_role s role -> validate_role Snap_new s = Ok role.
Proof. unfold validate_role. intros [-> Hon]. by rewrite Hon. Qed.

Lemma validate_each_ok role_strs :
  (forall s, s ∈ role_strs -> exists role, names_enabled_role s role) ->
  exists roles,
    validate_each Snap_new role_strs = Ok roles
    /\ Forall2 names_enabled_role role_strs roles.
Proof.
  induction role_strs as [|s rest IH]; intros Hall.
  - exists []. by split; [|constructor].
  - destruct (Hall s ltac:(by left)) as [role Hrole].
    destruct IH as (roles & Hrest & Hnames).
    { intros s' Hs'. apply Hall. by right. }
    exists (role :: roles). cbn.
    rewrite (validate_role_ok _ _ Hrole). cbn. rewrite Hrest. cbn.
    split; [done|]. by constructor.
Qed.

Lemma validate_roles_accepts value :
  (forall s, s ∈ role_strings value -> exists role, names_enabled_role s role) ->
  exists roles,
    validate_roles Snap_new value = Ok roles
    /\ forall role,
         role ∈ roles <->
         exists s, s ∈ role_strings value /\ Role_of_name (upper s) = Some role.
Proof.
  intros Hall. unfold validate_roles.
  destruct (validate_each_ok (elements (role_strings value))) as (roles & Hok & Hnames).
  { intros s Hs. apply Hall. by apply elem_of_elements. }
  exists roles. split; [done|]. intros role. split.
  - intros Hin. apply list_elem_of_lookup in Hin as [i Hi].
    destruct (Forall2_lookup_r _ _ _ _ _ Hnames Hi) as (s & Hs & [Hname _]).
    exists s. split; [|done].
    apply elem_of_elements. apply list_elem_of_lookup. by exists i.
  - intros (s & Hs & Hname).
    apply elem_of_elements, list_elem_of_lookup in Hs as [i Hi].
    destruct (Forall2_lookup_l _ _ _ _ _ Hnames Hi) as (role' & Hrole' & [Hname' _]).
    rewrite Hname in Hname'. injection Hname' as <-.
    apply list_elem_of_lookup. by exists i.
Qed.

Lemma validate_roles_region_controller_alone :
  FeatureGates.is_feature_gate_enabled "feature.multi-region" Snap_new = Ok true ->
  validate_roles Snap_new ["region_controller"] = Ok [REGION_CONTROLLER].
Proof.
  intros Hgate. unfold validate_roles.
  replace (elements (role_strings ["region_controller"]))
    with ["region_controller"] by (vm_compute; reflexivity).
  cbn. unfold validate_role.
  replace (Role_of_name (upper "region_controller"))
    with (Some REGION_CONTROLLER) by (vm_compute; reflexivity).
  unfold _is_role_enabled. cbn. by rewrite Hgate.
Qed.

Lemma existsb_role (p : Role -> bool) (role : Role) (roles : list Role) :
  role ∈ roles -> p role = true -> existsb p roles = true.
Proof.
  intros Hin Hp. apply existsb_exists. exists role.
  split; [by apply list_elem_of_In|done].
Qed.

Lemma check_role_combination_compute_network roles :
  COMPUTE ∈ roles -> NETWORK ∈ roles ->
  check_role_combination roles = Raise compute_and_network.
Proof.
  intros Hc Hn. unfold check_role_combination.
  rewrite (existsb_role is_network_node NETWORK roles Hn eq_refl).
  by rewrite (existsb_role is_compute_node COMPUTE roles Hc eq_refl).
Qed.

Lemma check_role_combination_region_controller roles :
  REGION_CONTROLLER ∈ roles -> 1 < length roles ->
  exists e, check_role_combination roles = Raise e
            /\ exn_cls e = ClickException.
Proof.
  intros Hr Hlen. unfold check_role_combination.
  destruct (existsb is_network_node roles && existsb is_compute_node roles);
    [by eexists|].
  rewrite (existsb_role is_region_controller REGION_CONTROLLER roles Hr eq_refl).
  replace (1 <? length roles)%nat with true by (symmetry; apply Nat.ltb_lt; lia).
  by eexists.
Qed.

End role_facts.

Lemma bootstrap_roles_keeps (roles : list Common.Role) :
  Common.REGION_CONTROLLER ∈ roles ->
  LocalCommands.bootstrap_roles roles = LocalCommands.check_role_combination roles.
Proof.
  intros Hr. unfold LocalCommands.bootstrap_roles.
  rewrite (bool_decide_eq_true_2 (Common.REGION_CONTROLLER ∈ roles) Hr).
  cbn. by rewrite andb_false_r.
Qed.

(** C3, as the code has it.  [validate_roles] parses the role names and
    tests the gate of each role, nothing else: for every input all of whose
    names are enabled roles it returns them (exactly the roles named, compute
    next to network and region_controller next to another role included).
    [region_controller] alone with its gate enabled passes [validate_roles]
    and both commands.  The exclusions are made afterwards by the bootstrap
    and join commands on the parsed roles: a list with both compute and
    network, and a list of more than one role that holds region_controller,
    make them raise a [ClickException]. *)
Theorem validate_roles_then_commands_exclude :
  (forall Snap_new value,
      (forall s, s ∈ Common.role_strings value ->
                 exists role, Common.names_enabled_role Snap_new s role) ->
      exists roles,
        Common.validate_roles Snap_new value = Ok roles
        /\ forall role,
             role ∈ roles <->
             exists s, s ∈ Common.role_strings value
                       /\ Common.Role_of_name (Common.upper s) = Some role)
  /\ (forall Snap_new,
      FeatureGates.is_feature_gate_enabled "feature.multi-region" Snap_new = Ok true ->
      Common.validate_roles Snap_new ["region_controller"]
      = Ok [Common.REGION_CONTROLLER]
      /\ LocalCommands.bootstrap_roles [Common.REGION_CONTROLLER]
         = Ok [Common.REGION_CONTROLLER]
      /\ LocalCommands.join_roles [Common.REGION_CONTROLLER]
         = Ok [Common.REGION_CONTROLLER])
  /\ (forall roles,
      Common.COMPUTE ∈ roles -> Common.NETWORK ∈ roles ->
      LocalCommands.bootstrap_roles roles = Raise LocalCommands.compute_and_network
      /\ LocalCommands.join_roles roles = Raise LocalCommands.compute_and_network)
  /\ (forall roles,
      Common.REGION_CONTROLLER ∈ roles -> 1 < length roles ->
      (exists e, LocalCommands.bootstrap_roles roles = Raise e
                 /\ exn_cls e = ClickException)
      /\ (exists e, LocalCommands.join_roles roles = Raise e
                    /\ exn_cls e = ClickException)).
Proof.
  split_and!.
  - exact validate_roles_accepts.
  - intros Snap_new Hgate. split_and!; [|done|done].
    by apply validate_roles_region_controller_alone.
  - intros roles Hc Hn. split.
    + unfold LocalCommands.bootstrap_roles.
      apply check_role_combination_compute_network;
        case_match; rewrite ?elem_of_app; auto.
    + by apply check_role_combination_compute_network.
  - intros roles Hr Hlen. split.
    + rewrite bootstrap_roles_keeps by done.
      by apply check_role_combination_region_controller.
    + by apply check_role_combination_region_controller.
Qed.

Lemma validate_roles_then_commands_exclude_witness :
  (exists roles,
      Common.validate_roles snap_empty ["control,compute"; "storage,compute"]
      = Ok roles
      /\ forall role,
           role ∈ roles <->
           exists s, s ∈ Common.role_strings ["control,compute"; "storage,compute"]
                     /\ Common.Role_of_name (Common.upper s) = Some role)
  /\ Common.validate_roles (snap_with "feature.multi-region") ["region_controller"]
     = Ok [Common.REGION_CONTROLLER]
  /\ LocalCommands.join_roles [Common.COMPUTE; Common.NETWORK]
     = Raise LocalCommands.compute_and_network
  /\ (exists e,
       LocalCommands.bootstrap_roles [Common.REGION_CONTROLLER; Common.COMPUTE]
       = Raise e /\ exn_cls e = ClickException).
Proof.
  destruct validate_roles_then_commands_exclude as (Hparse & Halone & Hcn & Hrc).
  split_and!.
  - apply Hparse. intros s Hs.
    assert (s = "control" \/ s = "compute" \/ s = "storage") as Hcases.
    { unfold Common.role_strings in Hs. apply elem_of_list_to_set in Hs.
      apply list_elem_of_In in Hs. cbn in Hs. intuition. }
    destruct Hcases as [-> | [-> | ->]];
      [exists Common.CONTROL | exists Common.COMPUTE | exists Common.STORAGE];
      by split.
  - by apply Halone.
  - destruct (Hcn [Common.COMPUTE; Common.NETWORK]) as [_ Hjoin];
      [in_list | in_list | exact Hjoin].
  - destruct (Hrc [Common.REGION_CONTROLLER; Common.COMPUTE]) as [Hboot _];
      [in_list | cbn; lia | exact Hboot].
Defined.

(** C3, as the claim words it, fails: [validate_roles] returns the roles
    for compute with network, and for region_controller with compute. *)
Lemma validate_roles_accepts_excluded_combinations :
  (exists roles,
      Common.validate_roles snap_empty ["compute,network"] = Ok roles
      /\ Common.COMPUTE ∈ roles /\ Common.NETWORK ∈ roles)
  /\ (exists roles,
       Common.validate_roles (snap_with "feature.multi-region")
         ["region_controller"; "compute"] = Ok roles
       /\ Common.REGION_CONTROLLER ∈ roles /\ Common.COMPUTE ∈ roles).
Proof.
  split; eexists; (split; [vm_compute; reflexivity|]);
    split; in_list.
Qed.

(** ** The background status thread *)

Section status_thread_facts.
Import Common.
Implicit Types (apps : gmap string nat) (ticks before : list tick).

Lemma reports_for_app app ticks1 ticks2 :
  reports_for app (ticks1 ++ ticks2)
  = reports_for app ticks1 ++ reports_for app ticks2.
Proof. unfold reports_for. apply omap_app. Qed.

Lemma ready_streak_silent app before t :
  reports_for app [t] = [] ->
  ready_streak app (before ++ [t]) = ready_streak app before.
Proof.
  intros Ht. unfold ready_streak. by rewrite reports_for_app, Ht, app_nil_r.
Qed.

Lemma ready_streak_report app before status :
  ready_streak app (before ++ [Got status app])
  = if String.eqb status STATUS_READY then S (ready_streak app before) else 0.
Proof.
  unfold ready_streak. rewrite reports_for_app. cbn.
  rewrite String.eqb_refl. cbn. rewrite reverse_snoc. cbn.
  by destruct (String.eqb status STATUS_READY).
Qed.

Lemma ready_streak_other app a before status :
  a <> app ->
  ready_streak app (before ++ [Got status a]) = ready_streak app before.
Proof.
  intros Hne. apply ready_streak_silent. cbn.
  by apply String.eqb_neq in Hne as ->.
Qed.

Lemma on_event_same apps status app count :
  apps !! app = Some count ->
  on_event apps status app !! app
  = Some (if String.eqb status STATUS_READY then S count else 0).
Proof.
  unfold on_event. intros ->.
  destruct (String.eqb status STATUS_READY); apply lookup_insert_eq.
Qed.

Lemma on_event_other apps status app other :
  other <> app -> on_event apps status app !! other = apps !! other.
Proof.
  unfold on_event. intros Hne. destruct (apps !! app); [|done].
  destruct (String.eqb status STATUS_READY); by apply lookup_insert_ne.
Qed.

Lemma status_loop_counts nb_apps ticks :
  forall before apps nb shown exit st,
    (forall a n, apps !! a = Some n -> n = ready_streak a before) ->
    nb = _nb_active_apps apps ->
    status_loop nb_apps ticks apps nb shown = (exit, st) ->
    exists consumed,
      ticks = consumed ++ unread st
      /\ (forall a, is_Some (Common.apps st !! a) <-> is_Some (apps !! a))
      /\ (forall a n, Common.apps st !! a = Some n ->
                      n = ready_streak a (before ++ consumed))
      /\ nb_active_apps st = _nb_active_apps (Common.apps st).
Proof.
  induction ticks as [|t rest IH]; intros before apps nb shown exit st Hinv Hnb.
  - cbn. destruct (nb_apps <=? nb)%nat; intros [= <- <-]; exists [];
      cbn; rewrite app_nil_r; done.
  - cbn. destruct (nb_apps <=? nb)%nat.
    { intros [= <- <-]. exists []. cbn. rewrite app_nil_r. done. }
    destruct t as [| |status app].
    + intros [= <- <-]. exists [StopSet]. cbn. split_and!; [done|done| |done].
      intros a n Ha. rewrite ready_streak_silent by done. by apply Hinv.
    + intros Hloop.
      apply (IH (before ++ [QueueEmpty])) in Hloop
        as (consumed & Hticks & Hdom & Hcount & Hactive); [|..|done].
      * exists (QueueEmpty :: consumed). cbn. rewrite <- Hticks.
        split_and!; [done|done| |done].
        intros a n Ha. specialize (Hcount a n Ha).
        by rewrite <- app_assoc in Hcount.
      * intros a n Ha. rewrite ready_streak_silent by done. by apply Hinv.
    + destruct (apps !! app) as [count|] eqn:Happ.
      * intros Hloop.
        apply (IH (before ++ [Got status app])) in Hloop
          as (consumed & Hticks & Hdom & Hcount & Hactive); [|..|done].
        -- exists (Got status app :: consumed). cbn. rewrite <- Hticks.
           split_and!; [done| | |done].
           ++ intros a. rewrite Hdom. destruct (decide (a = app)) as [->|Hne].
              ** rewrite (on_event_same _ _ _ _ Happ), Happ. by split; eexists.
              ** by rewrite on_event_other.
           ++ intros a n Ha. specialize (Hcount a n Ha).
              by rewrite <- app_assoc in Hcount.
        -- intros a n. destruct (decide (a = app)) as [->|Hne].
           ++ rewrite (on_event_same _ _ _ _ Happ). intros [= <-].
              rewrite ready_streak_report. rewrite <- (Hinv _ _ Happ). done.
           ++ rewrite on_event_other by done. intros Ha.
              rewrite ready_streak_other by done. by apply Hinv.
      * intros Hloop.
        apply (IH (before ++ [Got status app])) in Hloop
          as (consumed & Hticks & Hdom & Hcount & Hactive); [|..|done].
        -- exists (Got status app :: consumed). cbn. rewrite <- Hticks.
           split_and!; [done|done| |done].
           intros a n Ha. specialize (Hcount a n Ha).
           by rewrite <- app_assoc in Hcount.
        -- intros a n Ha. rewrite ready_streak_other; [by apply Hinv|].
           intros ->. by rewrite Happ in Ha.
Qed.

Lemma fromkeys_lookup applications a n :
  fromkeys applications !! a = Some n -> n = 0 /\ a ∈ applications.
Proof.
  unfold fromkeys. intros Hlook.
  apply elem_of_list_to_map_2 in Hlook.
  apply list_elem_of_fmap in Hlook as (app & [= -> ->] & Hin). done.
Qed.

Lemma fromkeys_watched applications a :
  a ∈ applications -> fromkeys applications !! a = Some 0.
Proof.
  unfold fromkeys. induction applications as [|app rest IH]; intros Hin.
  - by apply elem_of_nil in Hin.
  - cbn. destruct (decide (a = app)) as [->|Hne].
    + apply lookup_insert_eq.
    + rewrite lookup_insert_ne by done. apply IH.
      apply elem_of_cons in Hin as [|]; done.
Qed.

Lemma nb_active_apps_none apps :
  (forall a n, apps !! a = Some n -> n < 4) -> _nb_active_apps apps = 0.
Proof.
  intros Hlow. unfold _nb_active_apps.
  rewrite filter_none; [done|].
  intros n Hn. apply list_elem_of_fmap in Hn as ([a n'] & -> & Hin).
  apply elem_of_map_to_list in Hin. cbn. specialize (Hlow a n' Hin). lia.
Qed.

(** A service adds one to the number of active services exactly when its
    counter has reached four. *)
Lemma nb_active_apps_insert apps app count :
  _nb_active_apps (<[app := count]> apps)
  = (if bool_decide (4 <= count) then 1 else 0)
    + _nb_active_apps (delete app apps).
Proof.
  unfold _nb_active_apps.
  rewrite <- (insert_delete_eq apps app count).
  rewrite map_to_list_insert by apply lookup_delete_eq.
  rewrite fmap_cons. cbn [snd].
  case_bool_decide.
  - by rewrite filter_cons_True.
  - by rewrite filter_cons_False.
Qed.

End status_thread_facts.

(** C4. Debounce of the status thread.  (1) A service adds one to the
    number of active services exactly when its counter is at least 4.
    (2) A ready report for a watched service adds one to its counter, any
    other report sets it to 0, and the counters of the other services stay.
    (3) Hence, after the thread has consumed a sequence of ticks, the counter
    of every watched service is the number of ready reports it sent in a row,
    counted back from its latest one, and the number the thread shows is the
    number of counters at 4 or above.  (4) For ready, ready, ready,
    not-ready, ready, ready, ready, ready on one service, the thread shows 0
    active services after each of the first seven reports and is still
    waiting; after the eighth it shows 1 and finishes. *)
Theorem status_thread_debounce :
  (forall (apps : gmap string nat) app count,
      Common._nb_active_apps (<[app := count]> apps)
      = (if bool_decide (4 <= count) then 1 else 0)
        + Common._nb_active_apps (delete app apps))
  /\ (forall (apps : gmap string nat) status app count,
      apps !! app = Some count ->
      Common.on_event apps status app !! app
      = Some (if String.eqb status Common.STATUS_READY then S count else 0)
      /\ forall other, other <> app ->
           Common.on_event apps status app !! other = apps !! other)
  /\ (forall applications ticks exit st,
      Common.UpdateStatusThread_run true applications ticks = (exit, st) ->
      exists consumed,
        ticks = consumed ++ Common.unread st
        /\ (forall app, app ∈ applications ->
              Common.apps st !! app = Some (Common.ready_streak app consumed))
        /\ Common.nb_active_apps st = Common._nb_active_apps (Common.apps st))
  /\ (forall k, k < 8 ->
      fst (Common.UpdateStatusThread_run true ["keystone"]
             (take k (Common.flapping "keystone"))) = Common.Blocked
      /\ Common.nb_active_apps
           (snd (Common.UpdateStatusThread_run true ["keystone"]
                   (take k (Common.flapping "keystone")))) = 0)
  /\ fst (Common.UpdateStatusThread_run true ["keystone"]
            (Common.flapping "keystone")) = Common.Finished
  /\ Common.nb_active_apps
       (snd (Common.UpdateStatusThread_run true ["keystone"]
               (Common.flapping "keystone"))) = 1.
Proof.
  split_and!.
  - exact nb_active_apps_insert.
  - intros apps status app count Happ. split.
    + by apply on_event_same.
    + intros other Hne. by apply on_event_other.
  - intros applications ticks exit st. unfold Common.UpdateStatusThread_run.
    intros Hloop.
    apply (status_loop_counts _ _ []) in Hloop
      as (consumed & Hticks & Hdom & Hcount & Hactive).
    + exists consumed. split_and!; [done| |done].
      intros app Hin.
      destruct (proj2 (Hdom app)) as [n Hn].
      { rewrite (fromkeys_watched _ _ Hin). by eexists. }
      rewrite Hn. f_equal. by apply Hcount.
    + intros a n Ha. by apply fromkeys_lookup in Ha as [-> _].
    + symmetry. apply nb_active_apps_none.
      intros a n Ha. apply fromkeys_lookup in Ha as [-> _]. lia.
  - intros k Hk.
    do 8 (destruct k as [|k]; [by vm_compute|]). lia.
  - by vm_compute.
  - by vm_compute.
Qed.

Lemma status_thread_debounce_witness :
  Common.on_event {["keystone" := 3]} "ready" "keystone" !! "keystone" = Some 4
  /\ (exists consumed,
        [Common.Got "ready" "keystone"; Common.QueueEmpty;
         Common.Got "ready" "keystone"; Common.StopSet;
         Common.Got "ready" "keystone"]
        = consumed ++ [Common.Got "ready" "keystone"]
        /\ Common.ready_streak "keystone" consumed = 2)
  /\ fst (Common.UpdateStatusThread_run true ["keystone"]
            (take 3 (Common.flapping "keystone"))) = Common.Blocked.
Proof.
  destruct status_thread_debounce as (_ & Hevent & Hrun & Hflap & _).
  split_and!.
  - exact (proj1 (Hevent {["keystone" := 3]} "ready" "keystone" 3 eq_refl)).
  - destruct (Hrun ["keystone"]
                [Common.Got "ready" "keystone"; Common.QueueEmpty;
                 Common.Got "ready" "keystone"; Common.StopSet;
                 Common.Got "ready" "keystone"] _ _ eq_refl)
      as (consumed & Hticks & Hcount & _).
    exists consumed. split; [exact Hticks|].
    specialize (Hcount "keystone" ltac:(by left)).
    assert (Some (Common.ready_streak "keystone" consumed) = Some 2) as Heq
      by (rewrite <- Hcount; by vm_compute).
    by injection Heq.
  - exact (proj1 (Hflap 3 ltac:(lia))).
Defined.

(** ** The retry policy *)

Ltac retry_case Hk :=
  match goal with
  | H : _ = Tenacity.retry_loop _ _ _ _ _ _ _ _ |- _ => clear H
  end;
  rewrite Hk in *;
  repeat match goal with
         | H : (_, _) = (_, _) |- _ => injection H as ? ?
         end;
  repeat match goal with
         | H : Ok _ = Ok _ |- _ => injection H as ?
         | H : Raise _ = Raise _ |- _ => injection H as ?
         | H : Ok _ = Raise _ |- _ => discriminate H
         | H : Raise _ = Ok _ |- _ => discriminate H
         end;
  subst; try congruence; try lia; try reflexivity.

Section retry_facts.
Context {A : Type}.
Variable wait_fixed : nat.
Variable stop_after_delay : nat.
Variable retry_if_exception : exn -> bool.
Variable retry_error_callback : option exn -> A.
Variable wait_positive : 0 < wait_fixed.
Variable attempt : nat -> nat * outcome A.

Local Abbreviation retry_loop :=
  (Tenacity.retry_loop wait_fixed stop_after_delay retry_if_exception
     retry_error_callback wait_positive attempt).
Local Abbreviation spaced := (Tenacity.spaced wait_fixed stop_after_delay).

Lemma retry_loop_returns k now took a :
  attempt k = (took, Ok a) ->
  retry_loop k now = (Ok a, [(now, now + took)]).
Proof.
  intros Hk. funelim (retry_loop k now); retry_case Hk.
Qed.

Lemma retry_loop_propagates k now took e :
  attempt k = (took, Raise e) ->
  retry_if_exception e = false ->
  retry_loop k now = (Raise e, [(now, now + took)]).
Proof.
  intros Hk He. funelim (retry_loop k now); retry_case Hk.
Qed.

Lemma retry_loop_exhausted k now took e :
  attempt k = (took, Raise e) ->
  retry_if_exception e = true ->
  stop_after_delay <= now + took ->
  retry_loop k now = (Ok (retry_error_callback (Some e)), [(now, now + took)]).
Proof.
  intros Hk He Hstop. funelim (retry_loop k now); retry_case Hk.
Qed.

Lemma retry_loop_again k now took e :
  attempt k = (took, Raise e) ->
  retry_if_exception e = true ->
  now + took < stop_after_delay ->
  retry_loop k now
  = ((retry_loop (S k) (now + took + wait_fixed)).1,
     (now, now + took) :: (retry_loop (S k) (now + took + wait_fixed)).2).
Proof.
  intros Hk He Hstop. funelim (retry_loop k now); retry_case Hk.
Qed.


End retry_facts.

Section reapply_microovn_facts.
Import Common ReapplyMicroOVNTerraformPlanStep.
Variable locked_is_terraform_exception : bool.
Variable attempts : nat -> attempt_env.

Local Abbreviation run_body := (run_body locked_is_terraform_exception).
Local Abbreviation run := (run locked_is_terraform_exception attempts).


Lemma run_body_locked_raised env msg :
  locked_is_terraform_exception = false ->
  get_external_network_configs env = Ok tt ->
  update_tfvars_and_apply_tf env = Raise (Exn TerraformStateLockedException msg) ->
  run_body env = Raise (Exn TerraformStateLockedException msg).
Proof.
  unfold ReapplyMicroOVNTerraformPlanStep.run_body. intros Hd -> ->. cbn.
  unfold is_TerraformException. cbn. by rewrite Hd.
Qed.



End reapply_microovn_facts.



(** ** Flattening the feature options *)

Section flatten_facts.
Import Hooks.

Lemma string_app_assoc (a b c : string) : (a +:+ b) +:+ c = a +:+ (b +:+ c).
Proof.
  induction a as [|ch a IH]; [done|].
  change (String ch ((a +:+ b) +:+ c) = String ch (a +:+ b +:+ c)).
  by rewrite IH.
Qed.

Lemma string_app_empty_r (a : string) : a +:+ "" = a.
Proof.
  induction a as [|ch a IH]; [done|].
  change (String ch (a +:+ "") = String ch a). by rewrite IH.
Qed.

Lemma prefix_app (p s : string) : String.prefix p (p +:+ s) = true.
Proof.
  induction p as [|ch p IH]; [by destruct s|].
  change (String.prefix (String ch p) (String ch (p +:+ s)) = true).
  cbn. by destruct (Ascii.ascii_dec ch ch).
Qed.

(** Induction on values that reaches into dictionaries. *)
Lemma value_nested_ind (P : value -> Prop) :
  P VNone ->
  (forall b, P (VBool b)) ->
  (forall z, P (VInt z)) ->
  (forall s, P (VStr s)) ->
  (forall items, Forall (fun kv => P kv.2) items -> P (VDict items)) ->
  forall v, P v.
Proof.
  intros Hnone Hbool Hint Hstr Hdict.
  fix IH 1. intros [| b | z | s | items]; [done..|].
  apply Hdict. induction items as [|[k v] rest IHrest]; constructor.
  - apply IH.
  - apply IHrest.
Qed.

Lemma dict_set_keys {A} k (v : A) d :
  (dict_set k v d).*1 = if bool_decide (k ∈ d.*1) then d.*1 else d.*1 ++ [k].
Proof.
  induction d as [|[k' v'] rest IH]; [done|]. cbn.
  destruct (String.eqb k k') eqn:Heq.
  - apply String.eqb_eq in Heq as ->. cbn.
    rewrite bool_decide_eq_true_2; [done|by left].
  - apply String.eqb_neq in Heq. cbn. rewrite IH.
    destruct (decide (k ∈ rest.*1)) as [Hin|Hnin].
    + rewrite !bool_decide_eq_true_2; [done|by right|done].
    + rewrite !bool_decide_eq_false_2; [done| |done].
      intros [|]%elem_of_cons; done.
Qed.

Lemma dict_set_NoDup {A} k (v : A) d :
  NoDup d.*1 -> NoDup (dict_set k v d).*1.
Proof.
  intros Hd. rewrite dict_set_keys. case_bool_decide; [done|].
  apply NoDup_app. split_and!; [done| |apply NoDup_singleton].
  intros x Hx ->%list_elem_of_singleton. done.
Qed.

Lemma dict_set_key_elem {A} k (v : A) d k' :
  k' ∈ (dict_set k v d).*1 -> k' = k \/ k' ∈ d.*1.
Proof.
  rewrite dict_set_keys. case_bool_decide; [by right|].
  intros [?|Hk]%elem_of_app; [by right|].
  left. by apply list_elem_of_singleton in Hk.
Qed.

Lemma dict_of_items_from {A} (items d0 : list (string * A)) :
  NoDup d0.*1 ->
  NoDup (foldl (fun d kv => dict_set kv.1 kv.2 d) d0 items).*1
  /\ forall k, k ∈ (foldl (fun d kv => dict_set kv.1 kv.2 d) d0 items).*1 ->
               k ∈ d0.*1 \/ k ∈ items.*1.
Proof.
  revert d0. induction items as [|[k v] rest IH]; intros d0 Hd0; cbn.
  - split; [done|]. intros k Hk. by left.
  - destruct (IH (dict_set k v d0) (dict_set_NoDup _ _ _ Hd0)) as [Hnodup Hkeys].
    split; [done|]. intros k' Hk'.
    destruct (Hkeys k' Hk') as [Hin|Hin].
    + destruct (dict_set_key_elem _ _ _ _ Hin) as [->|]; [|by left].
      right. by left.
    + right. by right.
Qed.

Lemma dict_of_items_NoDup {A} (items : list (string * A)) :
  NoDup (dict_of_items items).*1.
Proof. apply dict_of_items_from. constructor. Qed.

Lemma dict_of_items_keys {A} (items : list (string * A)) k :
  k ∈ (dict_of_items items).*1 -> k ∈ items.*1.
Proof.
  intros Hk. destruct (proj2 (dict_of_items_from items [] (NoDup_nil_2 : NoDup (@nil string))) k Hk)
    as [Hin|Hin]; [by apply elem_of_nil in Hin|done].
Qed.

Lemma child_key_nonempty parent k : parent <> "" -> child_key parent k <> "".
Proof.
  intros Hne. unfold child_key.
  apply String.eqb_neq in Hne as Hne'. rewrite Hne'.
  destruct parent; [done|]. discriminate.
Qed.

Lemma flat_map_keys (f : string * value -> list (string * value)) d key :
  key ∈ (flat_map f d).*1 -> exists kv, kv ∈ d /\ key ∈ (f kv).*1.
Proof.
  induction d as [|kv rest IH]; cbn.
  - by intros ?%elem_of_nil.
  - rewrite fmap_app. intros [Hin|Hin]%elem_of_app.
    + exists kv. split; [by left|done].
    + destruct (IH Hin) as (kv' & Hkv' & Hkey). exists kv'. split; [by right|done].
Qed.

(** Every key [flatten_dict] builds below a key starts with that key. *)
Lemma flatten_entry_keys v :
  forall new_key key,
    new_key <> "" ->
    key ∈ (flatten_entry new_key v).*1 ->
    exists rest, key = new_key +:+ rest.
Proof.
  induction v as [| b | z | s | items IH] using value_nested_ind;
    intros new_key key Hne; cbn;
    try (intros ->%list_elem_of_singleton; exists "";
         by rewrite string_app_empty_r).
  intros Hkey%dict_of_items_keys.
  apply flat_map_keys in Hkey as ([k v] & Hin & Hkey).
  rewrite Forall_forall in IH.
  destruct (IH (k, v) Hin (child_key new_key k) key
               (child_key_nonempty _ _ Hne) Hkey) as [rest ->].
  unfold child_key. apply String.eqb_neq in Hne as ->.
  exists ("." +:+ k +:+ rest). by rewrite !string_app_assoc.
Qed.

Lemma flatten_feature_keys v key :
  key ∈ (flatten_dict [("feature", v)] "").*1 ->
  match v with
  | VDict _ => String.prefix "feature." key = true
  | _ => key = "feature"
  end.
Proof.
  unfold flatten_dict. cbn [flat_map].
  intros Hkey%dict_of_items_keys. rewrite app_nil_r in Hkey.
  change (child_key "" "feature") with "feature" in Hkey.
  destruct v as [| b | z | s | items];
    try (cbn in Hkey; by apply list_elem_of_singleton in Hkey).
  cbn in Hkey. apply dict_of_items_keys in Hkey.
  apply flat_map_keys in Hkey as ([k v] & Hin & Hkey).
  apply flatten_entry_keys in Hkey as [rest ->]; [|done].
  change (String.prefix "feature." ("feature." +:+ (k +:+ rest)) = true).
  apply prefix_app.
Qed.

(** The gate keys of one run of the sync are pairwise different. *)
Lemma gate_keys_NoDup v :
  NoDup (gate_key_for <$> (flatten_dict [("feature", v)] "").*1).
Proof.
  apply NoDup_fmap_2_strong; [|apply dict_of_items_NoDup].
  intros k1 k2 Hk1 Hk2.
  apply flatten_feature_keys in Hk1, Hk2.
  destruct v; try (by subst).
  unfold gate_key_for. by rewrite Hk1, Hk2.
Qed.

End flatten_facts.

(** ** The gate sync against the cluster database *)

Section sync_facts.
Import Cluster Hooks.
Implicit Types (db : ClusterDb) (items : list (string * value)).

Lemma sync_gate_db gate_key on db :
  sync_gate db_client gate_key on db
  = (Ok tt, {| gates := <[gate_key := on]> (gates db);
               calls := calls db ++ GetGate gate_key
                                 :: gate_write (gates db) gate_key on |}).
Proof.
  unfold sync_gate, try_Exception, bind, gate_write. cbn.
  destruct (gates db !! gate_key) as [recorded|] eqn:Hrec; cbn.
  - destruct (Bool.eqb recorded on) eqn:Hsame; cbn.
    + apply Bool.eqb_prop in Hsame as ->.
      rewrite insert_id by done. by destruct db.
    + rewrite Hrec. by rewrite <- app_assoc.
  - rewrite Hrec. cbn. by rewrite <- app_assoc.
Qed.


Lemma sync_gates_returns items db :
  (sync_gates db_client items db).1 = Ok tt.
Proof.
  revert db. induction items as [|[key v] rest IH]; intros db; [done|].
  cbn. unfold bind at 1. rewrite sync_gate_db. apply IH.
Qed.

Lemma sync_gates_untouched items db key :
  key ∉ gate_key_for <$> items.*1 ->
  gates (sync_gates db_client items db).2 !! key = gates db !! key.
Proof.
  revert db. induction items as [|[k v] rest IH]; intros db Hnot; [done|].
  cbn in *. unfold bind at 1. rewrite sync_gate_db.
  apply not_elem_of_cons in Hnot as [Hne Hnot].
  rewrite IH by done. cbn. by apply lookup_insert_ne.
Qed.

(** After a run, the database holds every flattened key with its value. *)
Lemma sync_gates_settles items db :
  NoDup (gate_key_for <$> items.*1) ->
  forall key v,
    (key, v) ∈ items ->
    gates (sync_gates db_client items db).2 !! gate_key_for key
    = Some (enabled_bool_of v).
Proof.
  revert db. induction items as [|[k0 v0] rest IH]; intros db Hnodup key v Hin.
  - by apply elem_of_nil in Hin.
  - cbn in *. apply NoDup_cons in Hnodup as [Hfresh Hnodup].
    unfold bind at 1. rewrite sync_gate_db.
    apply elem_of_cons in Hin as [[= -> ->]|Hin].
    + rewrite sync_gates_untouched by done. cbn. apply lookup_insert_eq.
    + by apply IH.
Qed.





End sync_facts.



(** ** The sync step *)

Section sync_step_facts.
Import Common Cluster.
Context {S : Type}.

Lemma run_around_completed (sync : Call S unit) (s : S) :
  SyncFeatureGatesToCluster.run_around sync s
  = match sync s with
    | (Ok _, s') => (Ok (mkResult COMPLETED ""), s')
    | (Raise _, s') =>
        (Ok (mkResult COMPLETED
               "Feature gate sync failed but continuing (non-fatal)"), s')
    end.
Proof.
  unfold SyncFeatureGatesToCluster.run_around, try_Exception, bind, ret.
  by destruct (sync s) as [[[]|e] s'].
Qed.

Lemma sync_step_run_completed (client : GateClient S) Snap_new s :
  exists r s',
    SyncFeatureGatesToCluster.run client Snap_new s = (Ok r, s')
    /\ result_type r = COMPLETED.
Proof.
  unfold SyncFeatureGatesToCluster.run. rewrite run_around_completed.
  destruct (Hooks.sync_feature_gates_from_snap_to_cluster _ _ _ s)
    as [[[]|e] s']; by eexists _, _.
Qed.

Lemma sync_step_continues (client : GateClient S) Snap_new
    no_raise pos results (st : S * list event) :
  exists r st',
    run_step no_raise pos (SyncFeatureGatesToCluster.step client Snap_new)
      results st
    = (Ok (Continue (<["SyncFeatureGatesToCluster" := r]> results)), st')
    /\ result_type r = COMPLETED.
Proof.
  destruct st as [s tr].
  destruct (sync_step_run_completed client Snap_new s) as (r & s' & Hrun & Hr).
  exists r. eexists. split; [|done].
  apply (run_step_completed no_raise pos
           (SyncFeatureGatesToCluster.step client Snap_new) results s tr
           false s (mkResult COMPLETED "") s r s'); try done.
  by rewrite Hr.
Qed.

End sync_step_facts.

(** C10. [SyncFeatureGatesToCluster.run] always returns [COMPLETED].
    Whatever the function it calls does, the body of [run] returns
    [COMPLETED]: with the empty message when the call returns, with the
    non-fatal message when the call raises.  So for every cluster client and
    every snap [run] returns a [COMPLETED] result, and in a plan the step is
    always followed by the next one: [run_plan] records its result and goes
    on, with or without [no_raise]. *)
Theorem sync_step_always_completed :
  (forall (S : Type) (sync : Cluster.Call S unit) (s : S),
      SyncFeatureGatesToCluster.run_around sync s
      = match sync s with
        | (Ok _, s') => (Ok (Common.mkResult Common.COMPLETED ""), s')
        | (Raise _, s') =>
            (Ok (Common.mkResult Common.COMPLETED
                   "Feature gate sync failed but continuing (non-fatal)"), s')
        end)
  /\ (forall (S : Type) (client : Cluster.GateClient S) Snap_new (s : S),
      exists r s',
        SyncFeatureGatesToCluster.run client Snap_new s = (Ok r, s')
        /\ Common.result_type r = Common.COMPLETED)
  /\ (forall (S : Type) (client : Cluster.GateClient S) Snap_new
             no_raise pos results (st : S * list Common.event),
      exists r st',
        Common.run_step no_raise pos
          (SyncFeatureGatesToCluster.step client Snap_new) results st
        = (Ok (Common.Continue (<["SyncFeatureGatesToCluster" := r]> results)),
           st')
        /\ Common.result_type r = Common.COMPLETED).
Proof.
  split; [intros S; exact run_around_completed|].
  split; [intros S; exact sync_step_run_completed|].
  intros S. exact sync_step_continues.
Qed.

(** ** The provider step *)

Section set_ovn_provider_facts.
Import Common Cluster Ovn SetOvnProviderStep.
Context {S : Type}.
Variable client : OvnClient S.
Variable snap : Snap.
Variable str : value -> string.

Local Abbreviation is_skip := (SetOvnProviderStep.is_skip client snap str).
Local Abbreviation step := (SetOvnProviderStep.step client snap str).

Lemma is_skip_same_provider (w : world) desired config s1 :
  get_config_from_snap snap str = Ok desired ->
  load_provider_config client w.1 = (Ok config, s1) ->
  provider config = Some desired ->
  is_skip w = (Ok (mkResult SKIPPED ""), (s1, w.2)).
Proof.
  unfold SetOvnProviderStep.is_skip. intros -> -> Hsame.
  by rewrite bool_decide_eq_true_2.
Qed.

Lemma is_skip_conflict (w : world) desired config s1 s2 :
  get_config_from_snap snap str = Ok desired ->
  load_provider_config client w.1 = (Ok config, s1) ->
  provider config <> Some desired ->
  check_sunbeam_bootstrapped client s1 = (Ok true, s2) ->
  is_skip w = (Ok change_not_supported, (s2, w.2)).
Proof.
  unfold SetOvnProviderStep.is_skip. intros -> -> Hdiff ->.
  by rewrite bool_decide_eq_false_2.
Qed.

Lemma is_skip_first_choice (w : world) desired config s1 s2 :
  get_config_from_snap snap str = Ok desired ->
  load_provider_config client w.1 = (Ok config, s1) ->
  provider config <> Some desired ->
  check_sunbeam_bootstrapped client s1 = (Ok false, s2) ->
  is_skip w = (Ok (mkResult COMPLETED ""), (s2, Some desired)).
Proof.
  unfold SetOvnProviderStep.is_skip. intros -> -> Hdiff ->.
  by rewrite bool_decide_eq_false_2.
Qed.

Lemma set_ovn_step_skipped no_raise pos results (w : world) tr desired config s1 :
  get_config_from_snap snap str = Ok desired ->
  load_provider_config client w.1 = (Ok config, s1) ->
  provider config = Some desired ->
  run_step no_raise pos step results (w, tr)
  = (Ok (Continue (<["SetOvnProviderStep" := mkResult SKIPPED ""]> results)),
     ((s1, w.2),
      tr ++ [Called pos HasPrompts; Called pos IsSkip;
             Assigned pos "SetOvnProviderStep" (mkResult SKIPPED "")])).
Proof.
  intros Hsnap Hload Hsame.
  by rewrite (run_step_skipped no_raise pos step results w tr false w
                (mkResult SKIPPED "") (s1, w.2) eq_refl
                (is_skip_same_provider w _ _ _ Hsnap Hload Hsame) eq_refl).
Qed.

Lemma set_ovn_step_conflict pos rest results (w : world) tr desired config s1 s2 :
  get_config_from_snap snap str = Ok desired ->
  load_provider_config client w.1 = (Ok config, s1) ->
  provider config <> Some desired ->
  check_sunbeam_bootstrapped client s1 = (Ok true, s2) ->
  run_steps false pos (step :: rest) results (w, tr)
  = (Raise (Exn ClickException "Changing OVN provider is not supported."),
     ((s2, w.2), tr ++ [Called pos HasPrompts; Called pos IsSkip])).
Proof.
  intros Hsnap Hload Hdiff Hboot.
  by rewrite (run_steps_halts_in_is_skip false pos step rest results w tr false w
                change_not_supported (s2, w.2) eq_refl
                (is_skip_conflict w _ _ _ _ Hsnap Hload Hdiff Hboot) eq_refl).
Qed.

End set_ovn_provider_facts.

(** C8. The provider step on a provider that is already chosen.  With
    [desired] the provider the snap configuration asks for and [config] the
    configuration the cluster records: when the recorded provider is the
    desired one, [is_skip] returns [SKIPPED], and in a plan the result is
    recorded and [run] is not called; when it is another one (or none) and
    the cluster is bootstrapped, [is_skip] returns the [FAILED] result
    "Changing OVN provider is not supported.", [self.wanted_provider] stays
    as it was, and a plan run with [no_raise=False] raises on it without
    calling [run].  In both cases the cluster is left in the state the two
    lookups left it in: nothing is written. *)
Theorem set_ovn_provider_conflict :
  forall (S : Type) (client : Ovn.OvnClient S) (snap : Snap) (str : value -> string)
         (w : S * option Ovn.OvnProvider) desired config (s1 : S),
    SetOvnProviderStep.get_config_from_snap snap str = Ok desired ->
    Ovn.load_provider_config client w.1 = (Ok config, s1) ->
    (Ovn.provider config = Some desired ->
     SetOvnProviderStep.is_skip client snap str w
     = (Ok (Common.mkResult Common.SKIPPED ""), (s1, w.2))
     /\ forall no_raise pos results tr,
          Common.run_step no_raise pos
            (SetOvnProviderStep.step client snap str) results (w, tr)
          = (Ok (Common.Continue
                   (<["SetOvnProviderStep" := Common.mkResult Common.SKIPPED ""]>
                      results)),
             ((s1, w.2),
              tr ++ [Common.Called pos Common.HasPrompts;
                     Common.Called pos Common.IsSkip;
                     Common.Assigned pos "SetOvnProviderStep"
                       (Common.mkResult Common.SKIPPED "")])))
    /\ (Ovn.provider config <> Some desired ->
        forall s2,
          Ovn.check_sunbeam_bootstrapped client s1 = (Ok true, s2) ->
          SetOvnProviderStep.is_skip client snap str w
          = (Ok (Common.mkResult Common.FAILED
                   "Changing OVN provider is not supported."), (s2, w.2))
          /\ forall pos rest results tr,
               Common.run_steps false pos
                 (SetOvnProviderStep.step client snap str :: rest) results (w, tr)
               = (Raise (Exn ClickException
                           "Changing OVN provider is not supported."),
                  ((s2, w.2),
                   tr ++ [Common.Called pos Common.HasPrompts;
                          Common.Called pos Common.IsSkip]))).
Proof.
  intros S client snap str w desired config s1 Hsnap Hload. split.
  - intros Hsame. split.
    + by apply (is_skip_same_provider client snap str w desired config).
    + intros no_raise pos results tr.
      by apply (set_ovn_step_skipped client snap str _ _ _ w tr desired config).
  - intros Hdiff s2 Hboot. split.
    + by apply (is_skip_conflict client snap str w desired config s1).
    + intros pos rest results tr.
      by apply (set_ovn_step_conflict client snap str _ _ _ w tr desired config s1).
Qed.

Lemma set_ovn_provider_conflict_witness :
  SetOvnProviderStep.is_skip SetOvnProviderStep.store_client
    (snap_ovn (VStr "microovn")) str_sample (bootstrapped_on_k8s, None)
  = (Ok (Common.mkResult Common.FAILED "Changing OVN provider is not supported."),
     (bootstrapped_on_k8s, None))
  /\ SetOvnProviderStep.is_skip SetOvnProviderStep.store_client
       (snap_ovn (VStr "ovn-k8s")) str_sample (bootstrapped_on_k8s, None)
     = (Ok (Common.mkResult Common.SKIPPED ""), (bootstrapped_on_k8s, None)).
Proof.
  split.
  - refine (proj1 (proj2 (set_ovn_provider_conflict _
             SetOvnProviderStep.store_client (snap_ovn (VStr "microovn"))
             str_sample (bootstrapped_on_k8s, None) Ovn.MICROOVN
             {| Ovn.provider := Some Ovn.OVN_K8S |} bootstrapped_on_k8s
             eq_refl eq_refl) _ bootstrapped_on_k8s eq_refl)).
    cbn. discriminate.
  - exact (proj1 (proj1 (set_ovn_provider_conflict _
             SetOvnProviderStep.store_client (snap_ovn (VStr "ovn-k8s"))
             str_sample (bootstrapped_on_k8s, None) Ovn.OVN_K8S
             {| Ovn.provider := Some Ovn.OVN_K8S |} bootstrapped_on_k8s
             eq_refl eq_refl) eq_refl)).
Defined.

(* ===================================================================== *)
(** * Part III: further properties of the modelled code                   *)
(* ===================================================================== *)

(** ** More on the plan runner *)

Section run_plan_more.
Import Common.
Context {W : Type}.
Implicit Types (step : BaseStep W) (plan rest : list (BaseStep W)).
Implicit Types (results : gmap string Result) (w : W) (tr : list event).

Lemma run_step_strict pos step results st v st' :
  run_step false pos step results st = (Ok v, st') ->
  exists r, v = Continue (<[cls_name step := r]> results)
            /\ result_type r <> FAILED.
Proof.
  unfold run_step, bind, call, assign, ret, raise.
  destruct st as [w tr]. cbn. intros Hrun.
  repeat (case_match; simplify_eq/=);
    eexists; (split; [reflexivity|congruence]).
Qed.

Lemma run_steps_strict plan :
  forall pos results st res st',
    run_steps false pos plan results st = (Ok res, st') ->
    (forall c r, results !! c = Some r -> result_type r <> FAILED) ->
    (forall c r, res !! c = Some r -> result_type r <> FAILED)
    /\ (forall c, is_Some (results !! c) -> is_Some (res !! c))
    /\ (forall step, step ∈ plan -> is_Some (res !! cls_name step)).
Proof.
  induction plan as [|step rest IH]; intros pos results st res st'.
  - cbn. unfold ret. intros [= <- <-] Hok. split_and!; [done|done|].
    by intros step ?%elem_of_nil.
  - cbn. unfold bind at 1.
    destruct (run_step false pos step results st) as [[v|e] st1] eqn:Hstep;
      [|discriminate].
    apply run_step_strict in Hstep as (r & -> & Hr). intros Hrest Hok.
    apply IH in Hrest as (Hall & Hkeep & Hrest).
    + split_and!; [done| |].
      * intros c Hc. apply Hkeep.
        destruct (decide (cls_name step = c)) as [->|Hne].
        -- rewrite lookup_insert_eq. by eexists.
        -- by rewrite lookup_insert_ne.
      * intros step' [->|Hin]%elem_of_cons; [|by apply Hrest].
        apply Hkeep. rewrite lookup_insert_eq. by eexists.
    + intros c r'. destruct (decide (cls_name step = c)) as [->|Hne].
      * rewrite lookup_insert_eq. by intros [= <-].
      * rewrite lookup_insert_ne by done. apply Hok.
Qed.

Lemma prompt_phase_returns step w :
  never_raises step -> exists hp w1, prompt_phase step w = (Ok hp, w1).
Proof.
  intros Htotal. unfold prompt_phase.
  destruct (Htotal w) as (Hhp & _).
  destruct (has_prompts step w) as [[[]|e] w1]; [|by eexists _, _|done].
  destruct (Htotal w1) as (_ & Hp & _).
  destruct (prompt step w1) as [[[]|e] w2]; [|done]. by eexists _, _.
Qed.

Lemma run_step_best_effort pos step results st :
  never_raises step ->
  exists v st', run_step true pos step results st = (Ok v, st').
Proof.
  intros Htotal. destruct st as [w tr].
  destruct (prompt_phase_returns step w Htotal) as (hp & w1 & Hp).
  destruct (Htotal w1) as (_ & _ & Hs & _).
  destruct (is_skip step w1) as [[rs|e] w2] eqn:Hskip; [|done].
  destruct (result_type rs) eqn:Hrs.
  - destruct (Htotal w2) as (_ & _ & _ & Hr).
    destruct (run step w2) as [[rr|e] w3] eqn:Hrun; [|done].
    destruct (decide (result_type rr = FAILED)) as [Hrr|Hrr].
    + rewrite (run_step_run_failed true pos step results w tr
                 _ _ _ _ _ _ Hp Hskip Hrs Hrun Hrr). by eexists _, _.
    + rewrite (run_step_completed true pos step results w tr
                 _ _ _ _ _ _ Hp Hskip Hrs Hrun Hrr). by eexists _, _.
  - rewrite (run_step_skip_failed true pos step results w tr
               _ _ _ _ Hp Hskip Hrs). by eexists _, _.
  - rewrite (run_step_skipped true pos step results w tr
               _ _ _ _ Hp Hskip Hrs). by eexists _, _.
Qed.

Lemma run_steps_best_effort plan :
  Forall never_raises plan ->
  forall pos results st,
    exists res st', run_steps true pos plan results st = (Ok res, st').
Proof.
  induction 1 as [|step rest Hstep Hrest IH]; intros pos results st.
  - by eexists _, _.
  - cbn. unfold bind at 1.
    destruct (run_step_best_effort pos step results st Hstep) as (v & st1 & ->).
    destruct v; [apply IH|by eexists _, _].
Qed.

Lemma run_step_event_positions no_raise pos step results st o st' :
  run_step no_raise pos step results st = (o, st') ->
  exists new, st'.2 = st.2 ++ new
              /\ Forall (fun ev => event_pos ev = pos) new.
Proof.
  unfold run_step, bind, call, assign, ret, raise.
  destruct st as [w tr]. cbn. intros Hrun.
  repeat (case_match; simplify_eq/=);
    (eexists; split; [rewrite <- ?app_assoc; reflexivity|]);
    repeat constructor.
Qed.

Lemma run_steps_event_positions plan :
  forall no_raise pos results st o st',
    run_steps no_raise pos plan results st = (o, st') ->
    exists new,
      st'.2 = st.2 ++ new
      /\ StronglySorted not_after new
      /\ Forall (fun ev => pos <= event_pos ev < pos + length plan) new.
Proof.
  induction plan as [|step rest IH]; intros no_raise pos results st o st'.
  - cbn. unfold ret. intros [= <- <-]. exists []. rewrite app_nil_r.
    by split_and!; constructor.
  - cbn. unfold bind at 1.
    destruct (run_step no_raise pos step results st) as [o1 st1] eqn:Hstep.
    apply run_step_event_positions in Hstep as (new1 & Htr1 & Hpos1).
    assert (StronglySorted not_after new1) as Hsorted1.
    { clear Htr1. induction Hpos1 as [|ev l Hev Hl IHl]; constructor; [done|].
      eapply Forall_impl; [exact Hl|]. intros ev' Hev'.
      unfold not_after. cbn beta in *. lia. }
    assert (Forall (fun ev => pos <= event_pos ev < pos + S (length rest)) new1)
      as Hrange1.
    { eapply Forall_impl; [exact Hpos1|]. intros ev Hev. cbn beta in *. lia. }
    destruct o1 as [[r1|r1]|e].
    + intros Hrest.
      apply IH in Hrest as (new2 & Htr2 & Hsorted2 & Hpos2).
      exists (new1 ++ new2). split_and!.
      * rewrite Htr2, Htr1. by rewrite app_assoc.
      * clear Htr1 Hrange1 Hsorted1.
        induction Hpos1 as [|ev l Hev Hl IHl]; [done|].
        cbn. constructor; [done|].
        apply Forall_app. split.
        -- eapply Forall_impl; [exact Hl|]. intros ev' Hev'.
           unfold not_after. cbn beta in *. lia.
        -- eapply Forall_impl; [exact Hpos2|]. intros ev' Hev'.
           unfold not_after. cbn beta in *. lia.
      * apply Forall_app. split; [done|].
        eapply Forall_impl; [exact Hpos2|]. intros ev Hev. cbn in *. lia.
    + unfold ret. intros [= <- <-]. by exists new1.
    + intros [= <- <-]. by exists new1.
Qed.



End run_plan_more.

Lemma sample_step_never_raises cls skip res :
  Common.never_raises (sample_step cls skip res).
Proof. intros w. by cbn. Qed.

(** X1. [run_plan] with [no_raise=False] returns a mapping only when every
    step has a result that is not [FAILED]: the mapping has an entry under
    the class name of every step of the plan, and no entry is [FAILED]. *)
Theorem run_plan_returns_only_when_complete :
  forall (W : Type) (plan : list (Common.BaseStep W)) (w : W) results st',
    Common.run_plan plan false w = (Ok results, st') ->
    (forall step, step ∈ plan ->
       exists r, results !! Common.cls_name step = Some r
                 /\ Common.result_type r <> Common.FAILED)
    /\ (forall c r, results !! c = Some r ->
                    Common.result_type r <> Common.FAILED).
Proof.
  intros W plan w results st' Hrun. unfold Common.run_plan in Hrun.
  apply run_steps_strict in Hrun as (Hall & _ & Hsteps); [|done].
  split; [|done]. intros step Hin.
  destruct (Hsteps step Hin) as [r Hr]. exists r. split; [done|].
  by apply (Hall _ _ Hr).
Qed.

Lemma run_plan_returns_only_when_complete_witness :
  exists results st',
    Common.run_plan plan_with_twin false 0 = (Ok results, st')
    /\ (forall c r, results !! c = Some r ->
                    Common.result_type r <> Common.FAILED).
Proof.
  eexists _, _. split; [reflexivity|].
  exact (proj2 (run_plan_returns_only_when_complete nat plan_with_twin 0 _ _
                  eq_refl)).
Defined.

(** X2. With [no_raise=True], [run_plan] raises nothing of its own: when no
    method of any step raises, it returns a mapping, whatever results the
    steps give. *)
Theorem run_plan_best_effort_returns :
  forall (W : Type) (plan : list (Common.BaseStep W)) (w : W),
    Forall Common.never_raises plan ->
    exists results st', Common.run_plan plan true w = (Ok results, st').
Proof.
  intros W plan w Htotal. unfold Common.run_plan.
  by apply run_steps_best_effort.
Qed.

Lemma run_plan_best_effort_returns_witness :
  exists results st',
    Common.run_plan
      [sample_step "A" go_on go_on; sample_step "B" go_on (broke "boom");
       sample_step "C" go_on go_on] true 0
    = (Ok results, st').
Proof.
  apply run_plan_best_effort_returns.
  repeat (constructor; [apply sample_step_never_raises|]). constructor.
Defined.

(** X3. [run_plan] goes through the plan in list order: in the sequence of
    calls and assignments it makes, one that belongs to a later step never
    comes before one that belongs to an earlier step, and all belong to steps
    of the plan. *)
Theorem run_plan_follows_list_order :
  forall (W : Type) (plan : list (Common.BaseStep W)) no_raise (w w' : W) o tr,
    Common.run_plan plan no_raise w = (o, (w', tr)) ->
    StronglySorted Common.not_after tr
    /\ Forall (fun ev => Common.event_pos ev < length plan) tr.
Proof.
  intros W plan no_raise w w' o tr Hrun. unfold Common.run_plan in Hrun.
  apply run_steps_event_positions in Hrun as (new & Htr & Hsorted & Hpos).
  cbn in Htr. subst new. split; [done|].
  eapply Forall_impl; [exact Hpos|]. intros ev Hev. cbn in Hev. lia.
Qed.

Lemma run_plan_follows_list_order_witness :
  exists o w' tr,
    Common.run_plan plan_with_twin false 0 = (o, (w', tr))
    /\ StronglySorted Common.not_after tr
    /\ length tr = 12.
Proof.
  eexists _, _, _. split; [reflexivity|].
  split; [|reflexivity].
  exact (proj1 (run_plan_follows_list_order nat plan_with_twin false 0 _ _ _
                  eq_refl)).
Defined.

(** X4. A step whose [is_skip] returns [SKIPPED] is not run: the skip
    result is recorded under its class name, [run] is not called on it, and
    the plan goes on with the next step. *)
Theorem skipped_step_is_not_run :
  forall (W : Type) (step : Common.BaseStep W) rest no_raise pos results
         (w : W) tr hp w1 rs w2,
    Common.prompt_phase step w = (Ok hp, w1) ->
    Common.is_skip step w1 = (Ok rs, w2) ->
    Common.result_type rs = Common.SKIPPED ->
    Common.run_steps no_raise pos (step :: rest) results (w, tr)
    = Common.run_steps no_raise (S pos) rest
        (<[Common.cls_name step := rs]> results)
        (w2, tr ++ Common.preflight_events pos hp
                ++ [Common.Assigned pos (Common.cls_name step) rs])
    /\ Common.Called pos Common.Run
       ∉ Common.preflight_events pos hp
         ++ [Common.Assigned pos (Common.cls_name step) rs].
Proof.
  intros W step rest no_raise pos results w tr hp w1 rs w2 Hp Hs Hrs. split.
  - apply run_steps_continue.
    by apply (run_step_skipped no_raise pos step results w tr hp w1 rs w2).
  - unfold Common.preflight_events.
    destruct hp; cbn; rewrite !elem_of_cons, elem_of_nil; intuition discriminate.
Qed.

Lemma skipped_step_is_not_run_witness :
  Common.run_plan
    [sample_step "A" done_already (broke "never"); sample_step "B" go_on go_on]
    false 0
  = (Ok {["A" := done_already; "B" := go_on]},
     (1, [Common.Called 0 Common.HasPrompts; Common.Called 0 Common.IsSkip;
          Common.Assigned 0 "A" done_already;
          Common.Called 1 Common.HasPrompts; Common.Called 1 Common.IsSkip;
          Common.Called 1 Common.Run; Common.Assigned 1 "B" go_on])).
Proof.
  unfold Common.run_plan.
  rewrite (proj1 (skipped_step_is_not_run nat
             (sample_step "A" done_already (broke "never"))
             [sample_step "B" go_on go_on] false 0 ∅ 0 [] false 0
             done_already 0 eq_refl eq_refl eq_refl)).
  vm_compute. reflexivity.
Defined.



(** ** Further properties of the status thread *)

Section status_thread_more.
Import Common.
Implicit Types (apps : gmap string nat) (ticks : list tick).

Lemma status_loop_finished nb_apps ticks :
  forall apps nb shown st,
    status_loop nb_apps ticks apps nb shown = (Finished, st) ->
    nb_apps <= nb_active_apps st /\ last (Common.shown st) = Some AllOnline.
Proof.
  induction ticks as [|t rest IH]; intros apps nb shown st; cbn.
  - destruct (nb_apps <=? nb)%nat eqn:Hle; intros [= <-]; cbn.
    split; [by apply Nat.leb_le|apply last_snoc].
  - destruct (nb_apps <=? nb)%nat eqn:Hle.
    { intros [= <-]. cbn. split; [by apply Nat.leb_le|apply last_snoc]. }
    destruct t as [| |status app]; [done|apply IH|].
    destruct (apps !! app); apply IH.
Qed.

Lemma fromkeys_size applications :
  size (fromkeys applications) <= length applications
  /\ (size (fromkeys applications) = length applications -> NoDup applications).
Proof.
  unfold fromkeys. induction applications as [|app rest [IHle IHeq]]; cbn.
  - rewrite map_size_empty. split; [done|constructor].
  - rewrite map_size_insert.
    destruct (list_to_map _ !! app) as [n|] eqn:Hlook; cbn.
    + split; [lia|]. intros Hsize. lia.
    + split; [lia|]. intros Hsize. constructor; [|apply IHeq; lia].
      intros Hin. apply fromkeys_watched in Hin. unfold fromkeys in Hin.
      by rewrite Hlook in Hin.
Qed.

Lemma nb_active_apps_size apps :
  _nb_active_apps apps <= size apps
  /\ (_nb_active_apps apps = size apps ->
      forall a n, apps !! a = Some n -> 4 <= n).
Proof.
  unfold _nb_active_apps. rewrite <- length_map_to_list.
  rewrite <- (length_fmap snd (map_to_list apps)). split.
  - apply length_filter.
  - intros Hall a n Ha. destruct (decide (4 <= n)) as [|Hlow]; [done|].
    assert (n ∈ (map_to_list apps).*2) as Hin.
    { apply list_elem_of_fmap. exists (a, n). split; [done|].
      by apply elem_of_map_to_list. }
    pose proof (length_filter_lt (fun count => 4 <= count) _ n Hin Hlow). lia.
Qed.

Lemma on_event_watched apps status app a :
  is_Some (on_event apps status app !! a) <-> is_Some (apps !! a).
Proof.
  destruct (decide (a = app)) as [->|Hne].
  - destruct (apps !! app) as [count|] eqn:Happ.
    + rewrite (on_event_same _ _ _ _ Happ). by split; eexists.
    + unfold on_event. by rewrite !Happ.
  - by rewrite on_event_other.
Qed.

Lemma status_loop_attended applications nb_apps ticks :
  forall apps nb shown,
    (forall a, is_Some (apps !! a) <-> a ∈ applications) ->
    let all := status_loop nb_apps ticks apps nb shown in
    let some :=
      status_loop nb_apps (List.filter (attended applications) ticks)
        apps nb shown in
    all.1 = some.1
    /\ Common.apps all.2 = Common.apps some.2
    /\ nb_active_apps all.2 = nb_active_apps some.2
    /\ Common.shown all.2 = Common.shown some.2.
Proof.
  induction ticks as [|t rest IH]; intros apps nb shown Hdom; cbn zeta.
  - done.
  - destruct (nb_apps <=? nb)%nat eqn:Hle.
    { destruct (List.filter _ (t :: rest)); cbn; by rewrite Hle. }
    destruct t as [| |status app]; cbn [List.filter attended].
    + cbn. by rewrite Hle.
    + cbn [status_loop]. rewrite Hle. by apply IH.
    + destruct (decide (app ∈ applications)) as [Hin|Hnin].
      * rewrite (bool_decide_eq_true_2 _ Hin). cbn [status_loop]. rewrite Hle.
        destruct (proj2 (Hdom app) Hin) as [count Hcount]. rewrite Hcount.
        apply IH. intros a. rewrite on_event_watched. apply Hdom.
      * rewrite (bool_decide_eq_false_2 _ Hnin). cbn [status_loop]. rewrite Hle.
        destruct (apps !! app) as [count|] eqn:Hcount.
        { destruct Hnin. apply Hdom. by eexists. }
        by apply IH.
Qed.

Lemma fromkeys_keys applications a :
  is_Some (fromkeys applications !! a) <-> a ∈ applications.
Proof.
  split.
  - intros [n Hn]. by apply fromkeys_lookup in Hn as [_ ?].
  - intros Hin. rewrite (fromkeys_watched _ _ Hin). by eexists.
Qed.

End status_thread_more.

(** X6. The status thread reports that all services are online only when
    every service of its list has sent at least four ready reports in a row,
    counted back from its latest report.  It can do so only for a list
    without repeated names: the services are counted with repetitions and
    the counters are kept per name, so with a name listed twice the thread
    never finishes. *)
Theorem status_thread_finishes_only_when_all_ready :
  forall applications ticks st,
    Common.UpdateStatusThread_run true applications ticks
    = (Common.Finished, st) ->
    NoDup applications
    /\ last (Common.shown st) = Some Common.AllOnline
    /\ exists consumed,
         ticks = consumed ++ Common.unread st
         /\ forall app, app ∈ applications ->
                        4 <= Common.ready_streak app consumed.
Proof.
  intros applications ticks st Hrun. unfold Common.UpdateStatusThread_run in Hrun.
  destruct (status_loop_finished _ _ _ _ _ _ Hrun) as [Hdone Hlast].
  apply (status_loop_counts _ _ []) in Hrun
    as (consumed & Hticks & Hdom & Hcount & Hactive).
  2: { intros a n Ha. by apply fromkeys_lookup in Ha as [-> _]. }
  2: { symmetry. apply nb_active_apps_none.
       intros a n Ha. apply fromkeys_lookup in Ha as [-> _]. lia. }
  assert (size (Common.apps st) = size (Common.fromkeys applications)) as Hsize.
  { rewrite <- !(size_dom (D := gset string)). f_equal.
    apply set_eq. intros a. rewrite !elem_of_dom. apply Hdom. }
  destruct (fromkeys_size applications) as [Hle Hnodup].
  destruct (nb_active_apps_size (Common.apps st)) as [Hle' Hall].
  split; [apply Hnodup; lia|]. split; [done|].
  exists consumed. split; [done|]. intros app Hin.
  destruct (proj2 (Hdom app)) as [n Hn].
  { by apply fromkeys_keys. }
  specialize (Hcount _ _ Hn). change ([] ++ consumed) with consumed in Hcount.
  rewrite <- Hcount. apply (Hall ltac:(lia) app n Hn).
Qed.

Lemma status_thread_finishes_only_when_all_ready_witness :
  exists st,
    Common.UpdateStatusThread_run true ["keystone"] (Common.flapping "keystone")
    = (Common.Finished, st)
    /\ exists consumed,
         Common.flapping "keystone" = consumed ++ Common.unread st
         /\ 4 <= Common.ready_streak "keystone" consumed.
Proof.
  eexists. split; [reflexivity|].
  destruct (status_thread_finishes_only_when_all_ready ["keystone"]
              (Common.flapping "keystone") _ eq_refl)
    as (_ & _ & consumed & Hticks & Hready).
  exists consumed. split; [exact Hticks|]. apply Hready. in_list.
Defined.

(** X7. Timeouts of the queue and reports of services that are not in the
    list change nothing: the thread ends the same way, with the same
    counters and the same lines shown, as on the ticks without them. *)
Theorem status_thread_ignores_unwatched :
  forall applications ticks,
    let all := Common.UpdateStatusThread_run true applications ticks in
    let some :=
      Common.UpdateStatusThread_run true applications
        (List.filter (Common.attended applications) ticks) in
    all.1 = some.1
    /\ Common.apps all.2 = Common.apps some.2
    /\ Common.nb_active_apps all.2 = Common.nb_active_apps some.2
    /\ Common.shown all.2 = Common.shown some.2.
Proof.
  intros applications ticks. unfold Common.UpdateStatusThread_run.
  apply status_loop_attended. apply fromkeys_keys.
Qed.

(** ** Further properties of the role parsing *)

Section role_more.
Import Common LocalCommands.
Variable Snap_new : Snap.

Local Abbreviation names_enabled_role := (names_enabled_role Snap_new).



Lemma validate_role_raises s e :
  (forall role, exists on, _is_role_enabled Snap_new role = Ok on) ->
  validate_role Snap_new s = Raise e ->
  exn_cls e = BadParameter /\ ~ exists role, names_enabled_role s role.
Proof.
  intros Hgates. unfold validate_role, Common.names_enabled_role.
  destruct (Role_of_name (upper s)) as [role|].
  - destruct (Hgates role) as [[] Hon]; rewrite Hon; cbn; [done|].
    intros [= <-]. split; [done|]. intros (role' & [= <-] & Hon'). congruence.
  - assert (exists names, enabled_values Snap_new = Ok names) as [names ->].
    { unfold enabled_values.
      induction Role_members as [|role rest [names IH]]; [by eexists|].
      cbn. destruct (Hgates role) as [on ->]. cbn. rewrite IH. by eexists. }
    cbn. intros [= <-]. split; [done|]. by intros (role' & [=] & _).
Qed.

Lemma validate_each_raises role_strs e :
  (forall role, exists on, _is_role_enabled Snap_new role = Ok on) ->
  validate_each Snap_new role_strs = Raise e ->
  exn_cls e = BadParameter
  /\ exists s, s ∈ role_strs /\ ~ exists role, names_enabled_role s role.
Proof.
  intros Hgates. induction role_strs as [|s rest IH]; cbn; [done|].
  destruct (validate_role Snap_new s) as [role|e'] eqn:Hrole; cbn.
  - destruct (validate_each Snap_new rest) as [validated|e'] eqn:Hrest; [done|].
    cbn. intros [= ->]. destruct (IH eq_refl) as (Hcls & s' & Hin & Hbad).
    split; [done|]. exists s'. split; [by right|done].
  - intros [= ->]. destruct (validate_role_raises _ _ Hgates Hrole) as [Hcls Hbad].
    split; [done|]. exists s. split; [by left|done].
Qed.

Lemma split_on_role_name role :
  split_on ","%char (lower (Role_name role)) = [lower (Role_name role)].
Proof. by destruct role. Qed.

Lemma role_strings_of_roles roles s :
  s ∈ role_strings (roles_to_str_list roles)
  <-> exists role, role ∈ roles /\ s = lower (Role_name role).
Proof.
  unfold role_strings, roles_to_str_list. rewrite elem_of_list_to_set.
  induction roles as [|role rest IH]; cbn.
  - rewrite elem_of_nil. split; [done|]. by intros (role & ?%elem_of_nil & _).
  - rewrite split_on_role_name. cbn. rewrite elem_of_cons, IH. split.
    + intros [->|(role' & Hin & ->)].
      * exists role. split; [by left|done].
      * exists role'. split; [by right|done].
    + intros (role' & [->|Hin]%elem_of_cons & ->); [by left|].
      right. by exists role'.
Qed.

Lemma Role_of_lower_name role :
  Role_of_name (upper (lower (Role_name role))) = Some role.
Proof. by destruct role. Qed.

Lemma existsb_role_false (p : Role -> bool) (role : Role) (roles : list Role) :
  existsb p roles = false -> p role = true -> role ∉ roles.
Proof.
  intros Hnone Hp Hin.
  by rewrite (existsb_role p role roles Hin Hp) in Hnone.
Qed.

Lemma check_role_combination_inv roles r :
  check_role_combination roles = Ok r ->
  r = roles
  /\ ~ (COMPUTE ∈ roles /\ NETWORK ∈ roles)
  /\ (REGION_CONTROLLER ∈ roles -> roles = [REGION_CONTROLLER]).
Proof.
  unfold check_role_combination.
  destruct (existsb is_network_node roles && existsb is_compute_node roles)
    eqn:Hcn; [done|].
  destruct (existsb is_region_controller roles && (1 <? length roles)%nat)
    eqn:Hrc; [done|].
  intros [= <-]. split; [done|]. split.
  - intros [Hc Hn]. apply andb_false_iff in Hcn as [Hcn|Hcn].
    + by apply (existsb_role_false _ NETWORK) in Hcn.
    + by apply (existsb_role_false _ COMPUTE) in Hcn.
  - intros Hin. apply andb_false_iff in Hrc as [Hrc|Hrc].
    + by apply (existsb_role_false _ REGION_CONTROLLER) in Hrc.
    + apply Nat.ltb_ge in Hrc.
      destruct roles as [|role [|role' rest]]; cbn in Hrc; try lia.
      * by apply elem_of_nil in Hin.
      * by apply list_elem_of_singleton in Hin as <-.
Qed.

End role_more.



(** X9. How [validate_roles] fails.  When the gate of every role can be
    read, the only exception [validate_roles] raises is [BadParameter], and
    it raises it only when one of the strings given does not name an enabled
    role. *)
Theorem validate_roles_raises_bad_parameter :
  forall Snap_new value e,
    (forall role, exists on, Common._is_role_enabled Snap_new role = Ok on) ->
    Common.validate_roles Snap_new value = Raise e ->
    exn_cls e = BadParameter
    /\ exists s, s ∈ Common.role_strings value
                 /\ ~ exists role, Common.names_enabled_role Snap_new s role.
Proof.
  intros Snap_new value e Hgates Hraise. unfold Common.validate_roles in Hraise.
  destruct (validate_each_raises _ _ _ Hgates Hraise) as (Hcls & s & Hin & Hbad).
  split; [done|]. exists s. split; [by apply elem_of_elements|done].
Qed.

Lemma validate_roles_raises_bad_parameter_witness :
  exists e,
    Common.validate_roles snap_empty ["control,region_controller"] = Raise e
    /\ exn_cls e = BadParameter.
Proof.
  eexists. split; [vm_compute; reflexivity|].
  refine (proj1 (validate_roles_raises_bad_parameter snap_empty
                   ["control,region_controller"] _ _
                   ltac:(vm_compute; reflexivity))).
  intros []; eexists; vm_compute; reflexivity.
Defined.

(** X10. Round trip of the role names.  The names [roles_to_str_list]
    writes for a list of enabled roles are read back by [validate_roles] as
    the same roles. *)
Theorem validate_roles_reads_back_role_names :
  forall Snap_new roles,
    (forall role, role ∈ roles ->
       Common._is_role_enabled Snap_new role = Ok true) ->
    exists parsed,
      Common.validate_roles Snap_new (Common.roles_to_str_list roles) = Ok parsed
      /\ forall role, role ∈ parsed <-> role ∈ roles.
Proof.
  intros Snap_new roles Hon.
  destruct (validate_roles_accepts Snap_new (Common.roles_to_str_list roles))
    as (parsed & Hok & Hparsed).
  { intros s (role & Hin & ->)%role_strings_of_roles. exists role.
    split; [apply Role_of_lower_name|by apply Hon]. }
  exists parsed. split; [done|]. intros role. rewrite Hparsed. split.
  - intros (s & (role' & Hin & ->)%role_strings_of_roles & Hname).
    rewrite Role_of_lower_name in Hname. by injection Hname as <-.
  - intros Hin. exists (Common.lower (Common.Role_name role)).
    split; [|apply Role_of_lower_name].
    apply role_strings_of_roles. by exists role.
Qed.

Lemma validate_roles_reads_back_role_names_witness :
  exists parsed,
    Common.validate_roles (snap_with "feature.multi-region")
      (Common.roles_to_str_list [Common.REGION_CONTROLLER; Common.STORAGE])
    = Ok parsed
    /\ forall role,
         role ∈ parsed <-> role ∈ [Common.REGION_CONTROLLER; Common.STORAGE].
Proof.
  apply validate_roles_reads_back_role_names.
  intros role Hin. apply list_elem_of_In in Hin. cbn in Hin.
  by repeat (destruct Hin as [Heq|Hin]; [by rewrite <- Heq|]).
Defined.

(** X11. The role lists the bootstrap and join commands go on with.
    When the tests of the join command pass, the list has not both compute
    and network, and holds region_controller only as its single role.  The
    bootstrap command goes on with the list it was given, or with that list
    and the control role appended; the list it goes on with holds control or
    region_controller, and passes the same tests. *)
Theorem commands_go_on_with_allowed_roles :
  (forall roles r,
      LocalCommands.join_roles roles = Ok r ->
      r = roles
      /\ ~ (Common.COMPUTE ∈ r /\ Common.NETWORK ∈ r)
      /\ (Common.REGION_CONTROLLER ∈ r -> r = [Common.REGION_CONTROLLER]))
  /\ (forall roles r,
      LocalCommands.bootstrap_roles roles = Ok r ->
      (r = roles \/ r = roles ++ [Common.CONTROL])
      /\ (Common.CONTROL ∈ r \/ Common.REGION_CONTROLLER ∈ r)
      /\ ~ (Common.COMPUTE ∈ r /\ Common.NETWORK ∈ r)
      /\ (Common.REGION_CONTROLLER ∈ r -> r = [Common.REGION_CONTROLLER])).
Proof.
  split.
  - intros roles r Hok. unfold LocalCommands.join_roles in Hok.
    by apply check_role_combination_inv in Hok as (-> & ? & ?).
  - intros roles r Hok. unfold LocalCommands.bootstrap_roles in Hok.
    apply check_role_combination_inv in Hok as (-> & Hcn & Hrc).
    split_and!; [| |done|done].
    + destruct (_ && _); auto.
    + destruct (decide (Common.CONTROL ∈ roles)) as [Hc|Hc].
      { rewrite (bool_decide_eq_true_2 _ Hc). cbn. by left. }
      rewrite (bool_decide_eq_false_2 _ Hc). cbn.
      destruct (decide (Common.REGION_CONTROLLER ∈ roles)) as [Hr|Hr].
      { rewrite (bool_decide_eq_true_2 _ Hr). cbn. by right. }
      rewrite (bool_decide_eq_false_2 _ Hr). cbn.
      left. apply elem_of_app. right. by left.
Qed.

Lemma commands_go_on_with_allowed_roles_witness :
  LocalCommands.bootstrap_roles [Common.COMPUTE; Common.STORAGE]
  = Ok [Common.COMPUTE; Common.STORAGE; Common.CONTROL]
  /\ ~ (Common.COMPUTE ∈ [Common.COMPUTE; Common.STORAGE; Common.CONTROL]
        /\ Common.NETWORK ∈ [Common.COMPUTE; Common.STORAGE; Common.CONTROL]).
Proof.
  split; [reflexivity|].
  exact (proj1 (proj2 (proj2 (proj2 commands_go_on_with_allowed_roles
           [Common.COMPUTE; Common.STORAGE]
           [Common.COMPUTE; Common.STORAGE; Common.CONTROL] eq_refl)))).
Defined.

(** ** Risk levels *)

Section risk_facts.
Import Common.

Lemma RiskLevel_lt_from_unknown (level : RiskLevel) (s : string) :
  s ∉ RiskLevel_ordering ->
  RiskLevel_lt_from (RiskLevel_value level) s RiskLevel_ordering = true.
Proof.
  intros Hnot. unfold RiskLevel_ordering in *.
  repeat (apply not_elem_of_cons in Hnot as [?Hne Hnot]).
  cbn in *.
  repeat match goal with
         | H : s <> ?v |- _ => apply String.eqb_neq in H; rewrite H; clear H
         end.
  by destruct level.
Qed.

End risk_facts.

(** X12. The comparisons of [RiskLevel].  Between two levels, [<] holds
    exactly when the first comes before the second in [__ordering__]
    (stable, candidate, beta, edge), [>] is [<] with the sides swapped, [<=]
    is not [>], and [>=] is not [<].  A string that is not the value of a
    level is above every level: [<] and [<=] hold against it, [>] and [>=]
    do not. *)
Theorem risk_level_order :
  (forall a b : Common.RiskLevel,
      (Common.RiskLevel_lt a (Common.RiskLevel_value b) = true <->
       exists i j,
         Common.RiskLevel_ordering !! i = Some (Common.RiskLevel_value a)
         /\ Common.RiskLevel_ordering !! j = Some (Common.RiskLevel_value b)
         /\ i < j)
      /\ Common.RiskLevel_gt a (Common.RiskLevel_value b)
         = Common.RiskLevel_lt b (Common.RiskLevel_value a)
      /\ Common.RiskLevel_le a (Common.RiskLevel_value b)
         = negb (Common.RiskLevel_gt a (Common.RiskLevel_value b))
      /\ Common.RiskLevel_ge a (Common.RiskLevel_value b)
         = negb (Common.RiskLevel_lt a (Common.RiskLevel_value b)))
  /\ (forall (a : Common.RiskLevel) (s : string),
      s ∉ Common.RiskLevel_ordering ->
      Common.RiskLevel_lt a s = true
      /\ Common.RiskLevel_le a s = true
      /\ Common.RiskLevel_gt a s = false
      /\ Common.RiskLevel_ge a s = false).
Proof.
  split.
  - intros a b. split_and!; [|by destruct a, b..]. split.
    + intros Hlt.
      exists (match a with Common.STABLE => 0 | Common.CANDIDATE => 1
                      | Common.BETA => 2 | Common.EDGE => 3 end),
             (match b with Common.STABLE => 0 | Common.CANDIDATE => 1
                      | Common.BETA => 2 | Common.EDGE => 3 end).
      destruct a, b; (split; [reflexivity|]); (split; [reflexivity|]);
        first [lia | by vm_compute in Hlt].
    + intros (i & j & Hi & Hj & Hij).
      destruct a, b; try reflexivity; exfalso;
        destruct i as [|[|[|[|i]]]]; try discriminate Hi;
        destruct j as [|[|[|[|j]]]]; try discriminate Hj; lia.
  - intros a s Hnot.
    assert (Common.RiskLevel_eq a s = false) as Hne.
    { apply String.eqb_neq. intros <-. apply Hnot. destruct a; in_list. }
    unfold Common.RiskLevel_le, Common.RiskLevel_gt, Common.RiskLevel_ge,
      Common.RiskLevel_lt.
    rewrite Hne, RiskLevel_lt_from_unknown by done. done.
Qed.

Lemma risk_level_order_witness :
  Common.RiskLevel_lt Common.EDGE "latest" = true
  /\ Common.RiskLevel_ge Common.EDGE "latest" = false.
Proof.
  destruct (proj2 risk_level_order Common.EDGE "latest") as (Hlt & _ & _ & Hge).
  - intros Hin. apply list_elem_of_In in Hin. cbn in Hin.
    by repeat (destruct Hin as [Heq|Hin]; [discriminate Heq|]).
  - by split.
Defined.

(** X13. [infer_risk] reads the risk level back from its value: a
    configuration that holds the value of a level gives that level.  Any
    other value, and a key that is not set, give [stable]. *)
Theorem infer_risk_reads_level :
  (forall snap level,
      config_get snap "deployment.risk" = Ok (VStr (Common.RiskLevel_value level)) ->
      Common.infer_risk snap = Ok level)
  /\ (forall snap v,
      config_get snap "deployment.risk" = Ok v ->
      (forall level, v <> VStr (Common.RiskLevel_value level)) ->
      Common.infer_risk snap = Ok Common.STABLE)
  /\ (forall snap e,
      config_get snap "deployment.risk" = Raise e ->
      exn_cls e = UnknownConfigKey ->
      Common.infer_risk snap = Ok Common.STABLE).
Proof.
  unfold Common.infer_risk. split_and!.
  - intros snap level ->. by destruct level.
  - intros snap v -> Hother. cbn. f_equal.
    destruct v as [| | |s|]; try done.
    destruct (String.eqb s "candidate") eqn:Hc.
    { apply String.eqb_eq in Hc as ->. by destruct (Hother Common.CANDIDATE). }
    destruct (String.eqb s "beta") eqn:Hb.
    { apply String.eqb_eq in Hb as ->. by destruct (Hother Common.BETA). }
    destruct (String.eqb s "edge") eqn:He; [|done].
    apply String.eqb_eq in He as ->. by destruct (Hother Common.EDGE).
  - intros snap e -> Hcls. cbn. rewrite Hcls. done.
Qed.

Lemma infer_risk_reads_level_witness :
  Common.infer_risk
    {| config_get := fun _ => Ok (VStr "beta");
       config_get_options := fun _ => Ok [] |} = Ok Common.BETA
  /\ Common.infer_risk snap_empty = Ok Common.STABLE.
Proof.
  destruct infer_risk_reads_level as (Hlevel & _ & Hunset). split.
  - by apply (Hlevel _ Common.BETA).
  - by eapply Hunset.
Defined.

(** ** Visibility and the gate of an option *)

(** X14. [is_visible] and [is_feature_gate_enabled] agree.  For a
    capability that is not generally available, the property [is_visible]
    gives what [is_feature_gate_enabled] gives for its gate key: both read
    the local snap configuration only, and end the same way, by a value or by
    an exception. *)
Theorem is_visible_is_feature_gate_enabled :
  forall json_loads Snap_new self k,
    FeatureGates.generally_available self = false ->
    FeatureGates.gate_key self = Ok k ->
    FeatureGates.is_visible json_loads Snap_new self
    = FeatureGates.is_feature_gate_enabled k Snap_new.
Proof.
  intros json_loads Snap_new self k Hga Hkey.
  unfold FeatureGates.is_visible, FeatureGates.is_gated, FeatureGates.check_gated,
    FeatureGates.is_feature_gate_enabled, FeatureGates.is_feature_gate_enabled_in,
    FeatureGates.FEATURE_GATES, FeatureGates.snap_config_enabled.
  rewrite Hga, Hkey, lookup_empty. cbn.
  destruct (config_get Snap_new k) as [v|e]; cbn.
  - by destruct (truthy v).
  - by case_bool_decide.
Qed.

Lemma is_visible_is_feature_gate_enabled_witness :
  FeatureGates.is_visible json_loads_sample (snap_with "feature.multi-region")
    multi_region = Ok true
  /\ FeatureGates.is_visible json_loads_sample snap_empty multi_region = Ok false.
Proof.
  split.
  - by rewrite (is_visible_is_feature_gate_enabled json_loads_sample
                  (snap_with "feature.multi-region") multi_region
                  "feature.multi-region" eq_refl eq_refl).
  - by rewrite (is_visible_is_feature_gate_enabled json_loads_sample
                  snap_empty multi_region "feature.multi-region"
                  eq_refl eq_refl).
Defined.

(** ** Further properties of the gate sync *)

Section flatten_more.
Import Hooks.

Lemma dict_set_elem {A} k (v : A) d kv :
  kv ∈ dict_set k v d -> kv = (k, v) \/ kv ∈ d.
Proof.
  induction d as [|[k' v'] rest IH]; cbn.
  - intros ->%list_elem_of_singleton. by left.
  - destruct (String.eqb k k') eqn:Heq.
    + apply String.eqb_eq in Heq as <-.
      intros [->|Hin]%elem_of_cons; [by left|]. right. by right.
    + intros [->|Hin]%elem_of_cons; [right; by left|].
      destruct (IH Hin) as [->|Hrest]; [by left|]. right. by right.
Qed.

Lemma dict_of_items_elem {A} (items : list (string * A)) kv :
  kv ∈ dict_of_items items -> kv ∈ items.
Proof.
  unfold dict_of_items.
  assert (forall d0, kv ∈ foldl (fun d kv => dict_set kv.1 kv.2 d) d0 items ->
                     kv ∈ d0 \/ kv ∈ items) as Hfrom.
  { induction items as [|[k v] rest IH]; intros d0; cbn; [by left|].
    intros [Hin|Hin]%IH; [|right; by right].
    destruct (dict_set_elem _ _ _ _ Hin) as [->|Hd0]; [|by left].
    right. by left. }
  intros [Hin|Hin]%Hfrom; [by apply elem_of_nil in Hin|done].
Qed.

Lemma flat_map_elem (f : string * value -> list (string * value)) d kv :
  kv ∈ flat_map f d -> exists kv', kv' ∈ d /\ kv ∈ f kv'.
Proof.
  induction d as [|kv0 rest IH]; cbn.
  - by intros ?%elem_of_nil.
  - intros [Hin|Hin]%elem_of_app.
    + exists kv0. split; [by left|done].
    + destruct (IH Hin) as (kv' & Hkv' & Hkv). exists kv'. split; [by right|done].
Qed.

Lemma flatten_entry_leaves v :
  forall new_key kv,
    kv ∈ flatten_entry new_key v -> forall items, kv.2 <> VDict items.
Proof.
  induction v as [| b | z | s | d IH] using value_nested_ind;
    intros new_key kv; cbn;
    try (by intros ->%list_elem_of_singleton).
  intros Hin%dict_of_items_elem.
  apply flat_map_elem in Hin as ([k v] & Hkv & Hin).
  rewrite Forall_forall in IH. by apply (IH (k, v) Hkv _ _ Hin).
Qed.

End flatten_more.

(** X15. [flatten_dict] returns leaves under different keys: no two
    items of the result have the same key, no value of the result is a
    dictionary, every item comes from a leaf of the input, and below a
    parent key every key starts with that key and a dot. *)
Theorem flatten_dict_leaves :
  forall d parent_key,
    NoDup (Hooks.flatten_dict d parent_key).*1
    /\ (forall kv, kv ∈ Hooks.flatten_dict d parent_key ->
          forall items, kv.2 <> VDict items)
    /\ (parent_key <> "" ->
        forall key, key ∈ (Hooks.flatten_dict d parent_key).*1 ->
          exists rest, key = parent_key +:+ "." +:+ rest).
Proof.
  intros d parent_key. unfold Hooks.flatten_dict. split_and!.
  - apply dict_of_items_NoDup.
  - intros kv Hin%dict_of_items_elem.
    apply flat_map_elem in Hin as ([k v] & Hkv & Hin).
    by apply (flatten_entry_leaves _ _ _ Hin).
  - intros Hne key Hkey%dict_of_items_keys.
    apply flat_map_keys in Hkey as ([k v] & Hkv & Hkey).
    apply flatten_entry_keys in Hkey as [rest ->];
      [|by apply child_key_nonempty].
    unfold Hooks.child_key. apply String.eqb_neq in Hne as ->.
    exists (k +:+ rest). by rewrite !string_app_assoc.
Qed.

Lemma flatten_dict_leaves_witness :
  Hooks.flatten_dict
    [("storage", VDict [("ceph", VBool true); ("pure", VNone)]);
     ("multi-region", VBool false)] "feature"
  = [("feature.storage.ceph", VBool true); ("feature.storage.pure", VNone);
     ("feature.multi-region", VBool false)]
  /\ exists rest, "feature.storage.pure" = "feature" +:+ "." +:+ rest.
Proof.
  split; [reflexivity|].
  apply (proj2 (proj2 (flatten_dict_leaves
           [("storage", VDict [("ceph", VBool true); ("pure", VNone)]);
            ("multi-region", VBool false)] "feature"))); [discriminate|].
  vm_compute. in_list.
Defined.

(** X16. What a sync leaves in the cluster database.  After
    [sync_feature_gates_from_snap_to_cluster] has run against the database
    with a snap that holds options below [feature], the database holds a
    record for the gate key of every flattened option, enabled exactly when
    the value of the option is truthy ([None] counts as not enabled), and
    every other record is as it was. *)
Theorem sync_records_every_local_gate :
  forall Snap_new snap db v,
    config_get_options (FeatureGates.effective_snap Snap_new snap) "feature"
    = Ok [("feature", v)] ->
    let after :=
      (Hooks.sync_feature_gates_from_snap_to_cluster
         Cluster.db_client Snap_new snap db).2 in
    (forall key value,
        (key, value) ∈ Hooks.flatten_dict [("feature", v)] "" ->
        Cluster.gates after !! Hooks.gate_key_for key
        = Some (Hooks.enabled_bool_of value))
    /\ (forall key,
        key ∉ Hooks.gate_key_for <$> (Hooks.flatten_dict [("feature", v)] "").*1 ->
        Cluster.gates after !! key = Cluster.gates db !! key).
Proof.
  intros Snap_new snap db v Hoptions.
  unfold Hooks.sync_feature_gates_from_snap_to_cluster, Cluster.try_Exception.
  unfold FeatureGates.effective_snap in Hoptions. rewrite Hoptions.
  set (items := Hooks.flatten_dict [("feature", v)] "").
  pose proof (sync_gates_returns items db) as Hret.
  pose proof (sync_gates_settles items db (gate_keys_NoDup v)) as Hsettles.
  pose proof (sync_gates_untouched items db) as Hrest.
  destruct (Hooks.sync_gates Cluster.db_client items db) as [o db'] eqn:Hrun.
  cbn in Hret. subst o. cbn. split.
  - intros key value Hin. by apply Hsettles.
  - intros key Hnot. by apply Hrest.
Qed.

Lemma sync_records_every_local_gate_witness :
  Cluster.gates
    (Hooks.sync_feature_gates_from_snap_to_cluster Cluster.db_client
       snap_empty (Some (snap_features three_gates)) db_with_ceph_on).2
  !! "feature.storage.ceph" = Some false.
Proof.
  refine (proj1 (sync_records_every_local_gate snap_empty
            (Some (snap_features three_gates)) db_with_ceph_on three_gates
            eq_refl) "feature.storage.ceph" (VBool false) _).
  vm_compute. in_list.
Defined.

(** X17. The sync takes every failure on itself, so the step never
    reports one: for every cluster client and every snap,
    [sync_feature_gates_from_snap_to_cluster] returns, and
    [SyncFeatureGatesToCluster.run] returns [COMPLETED] with the empty
    message; the message of its [except] branch is never returned. *)
Theorem sync_step_never_reports_failure :
  forall (S : Type) (client : Cluster.GateClient S) (Snap_new : Snap) (s : S),
    (forall snap,
        (Hooks.sync_feature_gates_from_snap_to_cluster client Snap_new snap s).1
        = Ok tt)
    /\ (SyncFeatureGatesToCluster.run client Snap_new s).1
       = Ok (Common.mkResult Common.COMPLETED "").
Proof.
  intros S client Snap_new s.
  assert (forall snap,
             (Hooks.sync_feature_gates_from_snap_to_cluster
                client Snap_new snap s).1 = Ok tt) as Hsync.
  { intros snap.
    unfold Hooks.sync_feature_gates_from_snap_to_cluster, Cluster.try_Exception.
    repeat (case_match; simplify_eq/=); try done;
      by match goal with |- Ok ?a = _ => destruct a end. }
  split; [done|].
  unfold SyncFeatureGatesToCluster.run. rewrite run_around_completed.
  specialize (Hsync None).
  by destruct (Hooks.sync_feature_gates_from_snap_to_cluster _ _ _ s)
    as [[[]|e] s']; cbn in *.
Qed.

(** ** The OVN manager *)

Section ovn_facts.
Import Common Cluster Ovn.

Lemma size_pos_iff (X : gset Role) : 0 < size X <-> exists role, role ∈ X.
Proof.
  split; [apply size_pos_elem_of|].
  intros [role Hrole]. destruct (decide (size X = 0)) as [Hzero|]; [|lia].
  apply size_empty_iff in Hzero. by apply Hzero in Hrole.
Qed.

Lemma needed_role (needed : gset Role) (roles : list Role) :
  0 < size (needed ∩ list_to_set roles)
  <-> exists role, role ∈ needed /\ role ∈ roles.
Proof.
  rewrite size_pos_iff. split.
  - intros [role Hrole].
    apply elem_of_intersection in Hrole as [Hneeded Hin].
    apply elem_of_list_to_set in Hin. by exists role.
  - intros (role & Hneeded & Hin). exists role.
    apply elem_of_intersection. split; [done|by apply elem_of_list_to_set].
Qed.

End ovn_facts.

(** X18. Where MicroOVN is needed.  With [config] the provider
    configuration the cluster records: a node needs MicroOVN when it has the
    network role, or when the provider is MicroOVN and it has the compute or
    the control role; it is a dataplane node of the network agents when it
    has the network role, or the provider is MicroOVN and it has the compute
    role, so every dataplane node needs MicroOVN.  The MAAS variant, given
    for each of the three roles a count that is positive exactly when the
    list has the role, answers as the variant on the list. *)
Theorem microovn_needed_roles :
  forall (S : Type) (client : Ovn.OvnClient S) (s s' : S) config roles,
    Ovn.load_provider_config client s = (Ok config, s') ->
    Ovn.is_microovn_necessary client roles s
    = (Ok (bool_decide
             (Common.NETWORK ∈ roles
              \/ (Ovn.provider config = Some Ovn.MICROOVN
                  /\ (Common.COMPUTE ∈ roles \/ Common.CONTROL ∈ roles)))), s')
    /\ Ovn.is_network_agent_dataplane_node client roles s
       = (Ok (bool_decide
                (Common.NETWORK ∈ roles
                 \/ (Ovn.provider config = Some Ovn.MICROOVN
                     /\ Common.COMPUTE ∈ roles))), s')
    /\ (forall nb_network nb_compute nb_control : Z,
          (0 <= nb_network /\ 0 <= nb_compute /\ 0 <= nb_control)%Z ->
          ((0 < nb_network)%Z <-> Common.NETWORK ∈ roles) ->
          ((0 < nb_compute)%Z <-> Common.COMPUTE ∈ roles) ->
          ((0 < nb_control)%Z <-> Common.CONTROL ∈ roles) ->
          Ovn.is_microovn_necessary_maas client nb_network nb_compute nb_control s
          = Ovn.is_microovn_necessary client roles s).
Proof.
  intros S client s s' config roles Hload.
  assert (Ovn.is_microovn_necessary client roles s
          = (Ok (bool_decide
                   (Common.NETWORK ∈ roles
                    \/ (Ovn.provider config = Some Ovn.MICROOVN
                        /\ (Common.COMPUTE ∈ roles \/ Common.CONTROL ∈ roles)))),
             s')) as Hneeded.
  { unfold Ovn.is_microovn_necessary, Ovn.get_roles_for_microovn,
      Ovn.get_provider, Cluster.bind, Cluster.ret. rewrite Hload.
    f_equal. f_equal. apply bool_decide_ext. rewrite needed_role.
    unfold Ovn.DEFAULT_PROVIDER.
    destruct (Ovn.provider config) as [[]|]; cbn [default];
      [rewrite decide_False by done|rewrite decide_True by done
      |rewrite decide_False by done];
      set_unfold; naive_solver. }
  split; [done|]. split.
  - unfold Ovn.is_network_agent_dataplane_node, Ovn.get_provider,
      Cluster.bind, Cluster.ret. rewrite Hload.
    f_equal. f_equal. apply bool_decide_ext. rewrite needed_role.
    unfold Ovn.DEFAULT_PROVIDER.
    destruct (Ovn.provider config) as [[]|]; cbn [default];
      [rewrite decide_False by done|rewrite decide_True by done
      |rewrite decide_False by done];
      set_unfold; naive_solver.
  - intros nb_network nb_compute nb_control (Hn & Hc & Hk) Hnet Hcomp Hctl.
    rewrite Hneeded.
    unfold Ovn.is_microovn_necessary_maas, Ovn.get_provider,
      Cluster.bind, Cluster.ret. rewrite Hload.
    f_equal. f_equal. unfold Ovn.DEFAULT_PROVIDER.
    destruct (Ovn.provider config) as [[]|]; cbn [default];
      [rewrite decide_False by done|rewrite decide_True by done
      |rewrite decide_False by done];
      apply bool_decide_ext; rewrite <- ?Hnet, <- ?Hcomp, <- ?Hctl;
      first [ split; [by left | by intros [?|[[=] _]]]
            | split; [intros ?; destruct (decide (0 < nb_network)%Z);
                      [by left|right; split; [done|lia]]
                     |intros [?|[_ [?|?]]]; lia] ].
Qed.

Lemma microovn_needed_roles_witness :
  Ovn.is_microovn_necessary SetOvnProviderStep.store_client
    [Common.CONTROL; Common.STORAGE] bootstrapped_on_k8s
  = (Ok false, bootstrapped_on_k8s)
  /\ Ovn.is_microovn_necessary_maas SetOvnProviderStep.store_client 0 3 3
       bootstrapped_on_k8s
     = (Ok false, bootstrapped_on_k8s).
Proof.
  destruct (microovn_needed_roles _ SetOvnProviderStep.store_client
              bootstrapped_on_k8s bootstrapped_on_k8s
              {| Ovn.provider := Some Ovn.OVN_K8S |}
              [Common.CONTROL; Common.STORAGE] eq_refl) as (Hneeded & _ & _).
  split; [|reflexivity].
  rewrite Hneeded. reflexivity.
Defined.

(** ** The provider the snap asks for *)

(** X19. [get_config_from_snap] gives MicroOVN exactly when the gate
    [feature.microovn-sdn] is enabled and [ovn.provider] is set to
    "microovn".  While the gate is not enabled it gives the default provider
    whatever [ovn.provider] holds, a value that names no provider included;
    with the gate enabled such a value makes it raise the [ValueError], and
    [is_skip] then returns a [FAILED] result with that message and leaves
    the cluster and [wanted_provider] as they were. *)
Theorem provider_asked_by_snap :
  forall (snap : Snap) (str : value -> string),
    (SetOvnProviderStep.get_config_from_snap snap str = Ok Ovn.MICROOVN <->
     FeatureGates.is_feature_gate_enabled "feature.microovn-sdn" snap = Ok true
     /\ config_get snap Ovn.SNAP_PROVIDER_CONFIG_KEY = Ok (VStr "microovn"))
    /\ (FeatureGates.is_feature_gate_enabled "feature.microovn-sdn" snap = Ok false ->
        SetOvnProviderStep.get_config_from_snap snap str = Ok Ovn.DEFAULT_PROVIDER)
    /\ (forall v,
          FeatureGates.is_feature_gate_enabled "feature.microovn-sdn" snap = Ok true ->
          config_get snap Ovn.SNAP_PROVIDER_CONFIG_KEY = Ok v ->
          truthy v = true ->
          Ovn.OvnProvider_of_value v = None ->
          SetOvnProviderStep.get_config_from_snap snap str
          = Raise (SetOvnProviderStep.invalid_provider str v)
          /\ forall (S : Type) (client : Ovn.OvnClient S) (w : S * option Ovn.OvnProvider),
               SetOvnProviderStep.is_skip client snap str w
               = (Ok (Common.mkResult Common.FAILED
                        (exn_msg (SetOvnProviderStep.invalid_provider str v))), w)).
Proof.
  intros snap str. unfold SetOvnProviderStep.get_config_from_snap. split_and!.
  - split.
    + destruct (FeatureGates.is_feature_gate_enabled _ snap) as [[]|e]; cbn;
        [|done..].
      destruct (config_get snap Ovn.SNAP_PROVIDER_CONFIG_KEY) as [v|e]; cbn.
      * destruct (truthy v); [|done].
        destruct v as [| | |s|]; cbn; try done.
        destruct (String.eqb s "ovn-k8s") eqn:Hk; [done|].
        destruct (String.eqb s "microovn") eqn:Hm; [|done].
        apply String.eqb_eq in Hm as ->. done.
      * by case_bool_decide.
    + by intros [-> ->].
  - by intros ->.
  - intros v Hgate Hget Htruthy Hnone.
    assert (SetOvnProviderStep.get_config_from_snap snap str
            = Raise (SetOvnProviderStep.invalid_provider str v)) as Hraise.
    { unfold SetOvnProviderStep.get_config_from_snap.
      rewrite Hgate. cbn. rewrite Hget. cbn. by rewrite Htruthy, Hnone. }
    split; [done|]. intros S client w.
    unfold SetOvnProviderStep.is_skip. by rewrite Hraise.
Qed.

Lemma provider_asked_by_snap_witness :
  SetOvnProviderStep.get_config_from_snap (snap_ovn (VStr "microovn")) str_sample
  = Ok Ovn.MICROOVN
  /\ SetOvnProviderStep.get_config_from_snap
       {| config_get := fun k =>
            if String.eqb k "ovn.provider" then Ok (VStr "ovs")
            else Raise (Exn UnknownConfigKey k);
          config_get_options := fun _ => Ok [] |} str_sample
     = Ok Ovn.OVN_K8S
  /\ SetOvnProviderStep.is_skip SetOvnProviderStep.store_client
       (snap_ovn (VStr "ovs")) str_sample (fresh_cluster, None)
     = (Ok (Common.mkResult Common.FAILED
              "Invalid value 'ovs' for ovn.provider. Valid values are: ovn-k8s, microovn"),
        (fresh_cluster, None)).
Proof.
  split_and!.
  - by apply (proj1 (provider_asked_by_snap (snap_ovn (VStr "microovn")) str_sample)).
  - by apply (proj1 (proj2 (provider_asked_by_snap _ str_sample))).
  - by rewrite (proj2 (proj2 (proj2 (provider_asked_by_snap
                  (snap_ovn (VStr "ovs")) str_sample)) (VStr "ovs")
                  eq_refl eq_refl eq_refl eq_refl) _
                  SetOvnProviderStep.store_client (fresh_cluster, None)).
Defined.

(** X20. The provider step settles.  On a cluster that is not
    bootstrapped and records another provider than the one asked for, or
    none: [is_skip] returns [COMPLETED], writes nothing and sets
    [wanted_provider]; [run] then records the provider asked for, with one
    write; after that [is_skip] returns [SKIPPED], whatever
    [wanted_provider] holds, and the cluster stays as it is. *)
Theorem set_ovn_provider_settles :
  forall (snap : Snap) (str : value -> string)
         (st : SetOvnProviderStep.store) (w : option Ovn.OvnProvider) desired,
    SetOvnProviderStep.get_config_from_snap snap str = Ok desired ->
    SetOvnProviderStep.bootstrapped st = false ->
    Ovn.provider (SetOvnProviderStep.stored st) <> Some desired ->
    let st' :=
      {| SetOvnProviderStep.stored := {| Ovn.provider := Some desired |};
         SetOvnProviderStep.bootstrapped := false;
         SetOvnProviderStep.written :=
           SetOvnProviderStep.written st ++ [{| Ovn.provider := Some desired |}] |} in
    SetOvnProviderStep.is_skip SetOvnProviderStep.store_client snap str (st, w)
    = (Ok (Common.mkResult Common.COMPLETED ""), (st, Some desired))
    /\ SetOvnProviderStep.run SetOvnProviderStep.store_client (st, Some desired)
       = (Ok (Common.mkResult Common.COMPLETED ""), (st', Some desired))
    /\ forall w',
         SetOvnProviderStep.is_skip SetOvnProviderStep.store_client snap str
           (st', w')
         = (Ok (Common.mkResult Common.SKIPPED ""), (st', w')).
Proof.
  intros snap str st w desired Hsnap Hfresh Hdiff st'. split_and!.
  - apply (is_skip_first_choice SetOvnProviderStep.store_client snap str
             (st, w) desired (SetOvnProviderStep.stored st) st st);
      [done|done|done|cbn; by rewrite Hfresh].
  - unfold SetOvnProviderStep.run. cbn. by rewrite Hfresh.
  - intros w'.
    by apply (is_skip_same_provider SetOvnProviderStep.store_client snap str
                (st', w') desired {| Ovn.provider := Some desired |} st').
Qed.

Lemma set_ovn_provider_settles_witness :
  SetOvnProviderStep.run SetOvnProviderStep.store_client
    (fresh_cluster, Some Ovn.MICROOVN)
  = (Ok (Common.mkResult Common.COMPLETED ""),
     ({| SetOvnProviderStep.stored := {| Ovn.provider := Some Ovn.MICROOVN |};
         SetOvnProviderStep.bootstrapped := false;
         SetOvnProviderStep.written := [{| Ovn.provider := Some Ovn.MICROOVN |}] |},
      Some Ovn.MICROOVN)).
Proof.
  exact (proj1 (proj2 (set_ovn_provider_settles (snap_ovn (VStr "microovn"))
           str_sample fresh_cluster None Ovn.MICROOVN eq_refl eq_refl
           ltac:(discriminate)))).
Defined.

(** ** Further properties of the retry policy *)

Section retry_more.
Context {A : Type}.
Variable wait_fixed : nat.
Variable stop_after_delay : nat.
Variable retry_if_exception : exn -> bool.
Variable retry_error_callback : option exn -> A.
Variable wait_positive : 0 < wait_fixed.
Variable attempt : nat -> nat * outcome A.

Local Abbreviation retry_loop :=
  (Tenacity.retry_loop wait_fixed stop_after_delay retry_if_exception
     retry_error_callback wait_positive attempt).
Local Abbreviation spaced := (Tenacity.spaced wait_fixed stop_after_delay).
Local Abbreviation start_of := (Tenacity.start_of wait_fixed attempt).

(** Whatever the calls do: the log starts with the call at [now], its
    calls are spaced, a log of [n + 2] calls left room for [n] waits before
    the ceiling, and an exception that comes out is not one the policy
    retries on. *)
Lemma retry_loop_bounded :
  forall budget k now,
    stop_after_delay - now = budget ->
    spaced (retry_loop k now).2
    /\ (exists ended rest, (retry_loop k now).2 = (now, ended) :: rest)
    /\ (forall n, length (retry_loop k now).2 = S (S n) ->
                  now + wait_fixed * n < stop_after_delay)
    /\ (forall e, (retry_loop k now).1 = Raise e -> retry_if_exception e = false).
Proof.
  intros budget.
  pose proof (Wf_nat.lt_wf budget) as Hacc. induction Hacc as [budget _ IH].
  intros k now Hbudget.
  destruct (attempt k) as [took [a|e]] eqn:Hk.
  - rewrite (retry_loop_returns _ _ _ _ _ _ _ _ _ _ Hk). cbn.
    split_and!; first [lia | done | by eexists _, _].
  - destruct (retry_if_exception e) eqn:He.
    + destruct (le_lt_dec stop_after_delay (now + took)) as [Hstop|Hgo].
      * rewrite (retry_loop_exhausted _ _ _ _ _ _ _ _ _ _ Hk He Hstop). cbn.
        split_and!; first [lia | done | by eexists _, _].
      * rewrite (retry_loop_again _ _ _ _ _ _ _ _ _ _ Hk He Hgo). cbn.
        destruct (IH (stop_after_delay - (now + took + wait_fixed)) ltac:(lia)
                     (S k) (now + took + wait_fixed) eq_refl)
          as (Hspaced & (ended & rest & Hlog) & Hroom & Hraise).
        rewrite Hlog in *.
        split; [cbn; cbn in Hspaced; split; [lia|split; [done|exact Hspaced]]|].
        split; [by eexists _, _|].
        split; [|done].
        intros n Hlen. destruct n as [|n]; [lia|].
        assert (now + took + wait_fixed + wait_fixed * n < stop_after_delay)
          by (apply Hroom; cbn in *; lia).
        lia.
    + rewrite (retry_loop_propagates _ _ _ _ _ _ _ _ _ _ Hk He). cbn.
      split_and!; first [lia | done | by eexists _, _ | by intros e' [= <-]].
Qed.

(** Calls that end, before the ceiling, in an exception the policy retries
    on are followed by the next call. *)
Lemma retry_loop_skips n :
  forall k now,
    (forall i, i < n ->
       exists took e,
         attempt (k + i) = (took, Raise e)
         /\ retry_if_exception e = true
         /\ start_of k now i + took < stop_after_delay) ->
    (retry_loop k now).1 = (retry_loop (k + n) (start_of k now n)).1
    /\ length (retry_loop k now).2
       = n + length (retry_loop (k + n) (start_of k now n)).2.
Proof.
  induction n as [|n IH]; intros k now Hlocked.
  - cbn. by rewrite Nat.add_0_r.
  - destruct (Hlocked 0 ltac:(lia)) as (took & e & Hk & He & Hgo).
    rewrite Nat.add_0_r in Hk. cbn in Hgo.
    rewrite (retry_loop_again _ _ _ _ _ _ _ _ _ _ Hk He Hgo). cbn.
    rewrite Hk. cbn.
    destruct (IH (S k) (now + took + wait_fixed)) as [Hres Hlen].
    { intros i Hi. destruct (Hlocked (S i) ltac:(lia))
        as (took' & e' & Hk' & He' & Hgo').
      exists took', e'. rewrite Nat.add_succ_r in Hk'. cbn in Hgo'.
      rewrite Hk in Hgo'. done. }
    rewrite Nat.add_succ_r. cbn in Hres, Hlen. by rewrite Hres, Hlen.
Qed.

Lemma start_of_next n :
  forall k now,
    start_of k now (S n) = start_of k now n + (attempt (k + n)).1 + wait_fixed.
Proof.
  induction n as [|n IH]; intros k now.
  - cbn. by rewrite Nat.add_0_r.
  - change (start_of k now (S (S n)))
      with (start_of (S k) (now + (attempt k).1 + wait_fixed) (S n)).
    rewrite IH. cbn. by rewrite Nat.add_succ_r.
Qed.

End retry_more.

Section reapply_microovn_more.
Import Common ReapplyMicroOVNTerraformPlanStep.
Variable attempts : nat -> attempt_env.

Lemma started_start_of derives i :
  started attempts i
  = Tenacity.start_of wait_seconds
      (fun k => (took (attempts k), run_body derives (attempts k))) 0 0 i.
Proof.
  induction i as [|i IH]; [done|].
  rewrite start_of_next. cbn [started]. by rewrite IH.
Qed.

End reapply_microovn_more.

(** X21. The retry policy of [ReapplyMicroOVNTerraformPlanStep.run]
    bounds every run, whatever the calls meet and either way the two
    Terraform exception classes are related: [run] is called at least once
    and at most six times; a call that is followed by another ended before
    the 300 seconds, and the next one started 60 seconds after it ended; and
    the state-locked exception never comes out of the decorated [run]. *)
Theorem reapply_microovn_calls_bounded :
  forall locked_is_terraform_exception attempts,
    1 <= length (ReapplyMicroOVNTerraformPlanStep.run
                   locked_is_terraform_exception attempts).2 <= 6
    /\ Tenacity.spaced 60 300
         (ReapplyMicroOVNTerraformPlanStep.run
            locked_is_terraform_exception attempts).2
    /\ forall e,
         (ReapplyMicroOVNTerraformPlanStep.run
            locked_is_terraform_exception attempts).1 = Raise e ->
         exn_cls e <> TerraformStateLockedException.
Proof.
  intros derives attempts.
  unfold ReapplyMicroOVNTerraformPlanStep.run, Tenacity.retry.
  destruct (retry_loop_bounded ReapplyMicroOVNTerraformPlanStep.wait_seconds
              ReapplyMicroOVNTerraformPlanStep.stop_seconds
              ReapplyMicroOVNTerraformPlanStep.is_TerraformStateLockedException
              Common.convert_retry_failure_as_result
              ReapplyMicroOVNTerraformPlanStep.wait_seconds_positive
              (fun k => (ReapplyMicroOVNTerraformPlanStep.took (attempts k),
                         ReapplyMicroOVNTerraformPlanStep.run_body derives
                           (attempts k)))
              ReapplyMicroOVNTerraformPlanStep.stop_seconds 0 0 eq_refl)
    as (Hspaced & (ended & rest & Hlog) & Hroom & Hraise).
  split_and!.
  - rewrite Hlog. cbn. lia.
  - destruct (length _) as [|[|n]] eqn:Hlen; [lia|lia|].
    specialize (Hroom n eq_refl).
    unfold ReapplyMicroOVNTerraformPlanStep.wait_seconds,
      ReapplyMicroOVNTerraformPlanStep.stop_seconds in Hroom. lia.
  - exact Hspaced.
  - intros e He Hcls. apply Hraise in He.
    unfold ReapplyMicroOVNTerraformPlanStep.is_TerraformStateLockedException in He.
    by rewrite bool_decide_eq_true_2 in He.
Qed.

(** X22. The retry gets through once the lock is released.  When the
    state-locked exception is not caught in the body as a
    [TerraformException]: if each of the first [n] calls finds the state
    locked and ends before the 300 seconds, then [run] is called [n + 1]
    times and ends as its last call ends, with the result that call returns
    or the exception it raises. *)
Theorem reapply_microovn_recovers :
  forall attempts n,
    (forall i, i < n ->
       ReapplyMicroOVNTerraformPlanStep.get_external_network_configs (attempts i)
       = Ok tt
       /\ (exists msg,
             ReapplyMicroOVNTerraformPlanStep.update_tfvars_and_apply_tf (attempts i)
             = Raise (Exn TerraformStateLockedException msg))
       /\ ReapplyMicroOVNTerraformPlanStep.started attempts i
          + ReapplyMicroOVNTerraformPlanStep.took (attempts i) < 300) ->
    (forall e,
        ReapplyMicroOVNTerraformPlanStep.run_body false (attempts n) = Raise e ->
        exn_cls e <> TerraformStateLockedException) ->
    (ReapplyMicroOVNTerraformPlanStep.run false attempts).1
    = ReapplyMicroOVNTerraformPlanStep.run_body false (attempts n)
    /\ length (ReapplyMicroOVNTerraformPlanStep.run false attempts).2 = S n.
Proof.
  intros attempts n Hlocked Hlast.
  unfold ReapplyMicroOVNTerraformPlanStep.run, Tenacity.retry.
  set (attempt := fun k => (ReapplyMicroOVNTerraformPlanStep.took (attempts k),
                            ReapplyMicroOVNTerraformPlanStep.run_body false
                              (attempts k))).
  destruct (retry_loop_skips ReapplyMicroOVNTerraformPlanStep.wait_seconds
              ReapplyMicroOVNTerraformPlanStep.stop_seconds
              ReapplyMicroOVNTerraformPlanStep.is_TerraformStateLockedException
              Common.convert_retry_failure_as_result
              ReapplyMicroOVNTerraformPlanStep.wait_seconds_positive
              attempt n 0 0) as [Hres Hlen].
  { intros i Hi. destruct (Hlocked i Hi) as (Hnet & (msg & Happly) & Hgo).
    exists (ReapplyMicroOVNTerraformPlanStep.took (attempts i)),
           (Exn TerraformStateLockedException msg).
    split_and!.
    - unfold attempt. cbn.
      by rewrite (run_body_locked_raised false _ _ eq_refl Hnet Happly).
    - done.
    - unfold attempt. rewrite <- (started_start_of attempts false i).
      exact Hgo. }
  rewrite Hres, Hlen. cbn [Nat.add].
  destruct (ReapplyMicroOVNTerraformPlanStep.run_body false (attempts n))
    as [r|e] eqn:Hbody.
  - rewrite (retry_loop_returns _ _ _ _ _ attempt n _
               (ReapplyMicroOVNTerraformPlanStep.took (attempts n)) r)
      by (unfold attempt; by rewrite Hbody).
    cbn. split; [done|lia].
  - rewrite (retry_loop_propagates _ _ _ _ _ attempt n _
               (ReapplyMicroOVNTerraformPlanStep.took (attempts n)) e).
    + cbn. split; [done|lia].
    + unfold attempt. by rewrite Hbody.
    + apply bool_decide_eq_false_2. by apply Hlast.
Qed.

Lemma reapply_microovn_recovers_witness :
  (ReapplyMicroOVNTerraformPlanStep.run false lock_released).1
  = Ok (Common.mkResult Common.COMPLETED "")
  /\ length (ReapplyMicroOVNTerraformPlanStep.run false lock_released).2 = 3.
Proof.
  apply (reapply_microovn_recovers lock_released 2).
  - intros i Hi. destruct i as [|[|i]]; [| |lia];
      (split; [reflexivity|]); (split; [by eexists|]); cbn; lia.
  - intros e. discriminate.
Defined.

(** ** Further properties of the gate resolution *)

(** X23. The enabled list of the cluster decides before the local snap
    configuration.  For a capability that is not generally available, when
    the list kept under the given configuration key is a JSON array that
    holds the backend type (or, without a backend type, the name) of the
    capability, [check_gated] answers "not gated" whatever the snap
    configuration holds or raises.  Membership is Python's [in]: when the
    document is a JSON string instead of an array, a capability whose
    identity is a substring of it passes as well. *)
Theorem check_gated_enabled_list :
  forall json_loads Snap_new self c snap key doc x,
    FeatureGates.generally_available self = false ->
    FeatureGates.listed_identity self = Some x ->
    get_config c key = Ok doc ->
    (forall items,
        json_loads doc = Ok (JArr items) -> JStr x ∈ items ->
        FeatureGates.check_gated json_loads Snap_new self (Some c) snap (Some key)
        = Ok false)
    /\ (forall s,
        json_loads doc = Ok (JStr s) -> is_substring x s = true ->
        FeatureGates.check_gated json_loads Snap_new self (Some c) snap (Some key)
        = Ok false).
Proof.
  intros json_loads Snap_new self c snap key doc x Hga Hid Hdoc.
  assert (forall j,
             json_loads doc = Ok j -> py_in x j = Ok true ->
             FeatureGates.check_gated json_loads Snap_new self (Some c) snap
               (Some key) = Ok false) as Hlisted.
  { intros j Hj Hin. unfold FeatureGates.check_gated. rewrite Hga.
    destruct (FeatureGates.cluster_gate_enabled self (Some c)); [done|].
    unfold FeatureGates.cluster_list_enabled. rewrite Hdoc. cbn.
    unfold FeatureGates.listed_identity in Hid.
    destruct (FeatureGates.backend_type self) as [bt|].
    - injection Hid as ->. rewrite Hj. cbn. by rewrite Hin.
    - rewrite Hid, Hj. cbn. by rewrite Hin. }
  split.
  - intros items Hj Hin. apply (Hlisted _ Hj). cbn. f_equal.
    by apply json_is_str_existsb.
  - intros s Hj Hin. apply (Hlisted _ Hj). cbn. by rewrite Hin.
Qed.

Lemma check_gated_enabled_list_witness :
  FeatureGates.check_gated json_loads_sample snap_empty
    {| FeatureGates.generally_available := false;
       FeatureGates.backend_type := Some "ceph";
       FeatureGates.name := None |}
    (Some (cluster_listing "[ceph]")) (Some snap_broken)
    (Some "StorageBackendsEnabled")
  = Ok false.
Proof.
  refine (proj1 (check_gated_enabled_list json_loads_sample snap_empty
            {| FeatureGates.generally_available := false;
               FeatureGates.backend_type := Some "ceph";
               FeatureGates.name := None |}
            (cluster_listing "[ceph]") (Some snap_broken)
            "StorageBackendsEnabled" "[ceph]" "ceph" eq_refl eq_refl eq_refl)
            [JStr "ceph"] eq_refl _).
  in_list.
Defined.

(** X24. When [check_gated] raises.  A capability that is not
    generally available and has neither a backend type nor a name makes it
    raise the [ValueError] of [gate_key], whatever the cluster records, as
    long as reading the enabled list does not raise another exception than
    the two the code expects.  An enabled list that [json.loads] cannot
    decode makes it raise the exception of [json.loads], even when the
    local snap configuration enables the gate. *)
Theorem check_gated_raises :
  (forall json_loads Snap_new self client snap key,
      FeatureGates.generally_available self = false ->
      FeatureGates.backend_type self = None ->
      FeatureGates.name self = None ->
      (forall c k e,
          client = Some c -> key = Some k -> get_config c k = Raise e ->
          exn_cls e = ConfigItemNotFoundException
          \/ exn_cls e = ClusterServiceUnavailableException) ->
      FeatureGates.check_gated json_loads Snap_new self client snap key
      = Raise FeatureGates.missing_identity)
  /\ (forall json_loads Snap_new self c snap key k x doc e,
      FeatureGates.generally_available self = false ->
      FeatureGates.gate_key self = Ok k ->
      FeatureGates.listed_identity self = Some x ->
      FeatureGates.gate_record_silent (Some c) k ->
      get_config c key = Ok doc ->
      json_loads doc = Raise e ->
      exn_cls e <> ConfigItemNotFoundException ->
      exn_cls e <> ClusterServiceUnavailableException ->
      FeatureGates.check_gated json_loads Snap_new self (Some c) snap (Some key)
      = Raise e).
Proof.
  split.
  - intros json_loads Snap_new self client snap key Hga Hbt Hname Hlist.
    unfold FeatureGates.check_gated, FeatureGates.cluster_gate_enabled,
      FeatureGates.cluster_list_enabled, FeatureGates.snap_config_enabled,
      FeatureGates.gate_key.
    rewrite Hga, Hbt, Hname. cbn.
    assert (forall (c : ClusterView) (k : string),
               client = Some c -> key = Some k ->
               try_except (obind (get_config c k) (fun _ => Ok false))
                 [ConfigItemNotFoundException; ClusterServiceUnavailableException]
                 (fun _ => Ok false) = Ok false) as Hno.
    { intros c k Hc Hk. destruct (get_config c k) as [doc|e] eqn:Hget; [done|].
      cbn. destruct (Hlist c k e Hc Hk Hget) as [-> | ->]; done. }
    destruct client as [c|], key as [k|]; cbn; try done.
    by rewrite (Hno c k eq_refl eq_refl).
  - intros json_loads Snap_new self c snap key k x doc e
      Hga Hk Hid Hsilent Hdoc Hj Hne1 Hne2.
    unfold FeatureGates.check_gated. rewrite Hga.
    rewrite (cluster_gate_enabled_silent _ _ _ Hk Hsilent).
    unfold FeatureGates.cluster_list_enabled. rewrite Hdoc. cbn.
    unfold FeatureGates.listed_identity in Hid.
    assert (try_except (obind (json_loads doc) (py_in x))
              [ConfigItemNotFoundException; ClusterServiceUnavailableException]
              (fun _ => Ok false) = Raise e) as Hraise.
    { rewrite Hj. cbn. rewrite bool_decide_eq_false_2; [done|].
      intros [?|[?|[]%elem_of_nil]%elem_of_cons]%elem_of_cons; congruence. }
    destruct (FeatureGates.backend_type self) as [bt|].
    + injection Hid as ->. by rewrite Hraise.
    + rewrite Hid. by rewrite Hraise.
Qed.

Lemma check_gated_raises_witness :
  FeatureGates.check_gated json_loads_sample snap_empty (anonymous false)
    (Some cluster_all_enabled) None None
  = Raise FeatureGates.missing_identity
  /\ FeatureGates.check_gated json_loads_sample snap_empty pure_storage
       (Some (cluster_listing "not json")) (Some (snap_with "feature.storage.pure-storage"))
       (Some "StorageBackendsEnabled")
     = Raise (Exn JSONDecodeError "not json").
Proof.
  destruct check_gated_raises as [Hanonymous Hmalformed]. split.
  - apply Hanonymous; try reflexivity. intros c k e _ [=].
  - apply (Hmalformed _ _ _ _ _ _ "feature.storage.pure-storage" "pure-storage"
             "not json"); try reflexivity; discriminate.
Defined.

(** ** Choices behind gates *)

Section gated_choice_facts.
Import Hooks FeatureGatedChoice.

Lemma dict_get_dict_set {A} k k' (v : A) d :
  dict_get k (dict_set k' v d) = if String.eqb k' k then Some v else dict_get k d.
Proof.
  induction d as [|[k0 v0] rest IH]; [done|]. cbn.
  destruct (String.eqb k' k0) eqn:Hk0; cbn.
  - apply String.eqb_eq in Hk0 as ->. by destruct (String.eqb k0 k).
  - rewrite IH. destruct (String.eqb k0 k) eqn:Hk; [|done].
    apply String.eqb_eq in Hk as ->. by rewrite Hk0.
Qed.

Lemma dict_get_dict_of_items {A} k (items : list (string * A)) :
  dict_get k (dict_of_items items) = dict_get k (reverse items).
Proof.
  unfold dict_of_items.
  induction items as [|[k' v] items IH] using rev_ind; [done|].
  rewrite foldl_app, reverse_snoc. cbn. by rewrite dict_get_dict_set, IH.
Qed.

Lemma dict_get_app {A} k (d1 d2 : list (string * A)) :
  dict_get k (d1 ++ d2)
  = match dict_get k d1 with Some v => Some v | None => dict_get k d2 end.
Proof.
  induction d1 as [|[k' v] rest IH]; [done|]. cbn.
  by destruct (String.eqb k' k).
Qed.

Lemma dict_get_None {A} k (d : list (string * A)) :
  k ∉ d.*1 -> dict_get k d = None.
Proof.
  induction d as [|[k' v] rest IH]; [done|]. cbn.
  intros [Hne Hnot]%not_elem_of_cons.
  destruct (String.eqb k' k) eqn:Hk; [|by apply IH].
  apply String.eqb_eq in Hk. congruence.
Qed.

Lemma dict_get_elem {A} k (v : A) (d : list (string * A)) :
  dict_get k d = Some v -> (k, v) ∈ d.
Proof.
  induction d as [|[k' v'] rest IH]; [done|]. cbn.
  destruct (String.eqb k' k) eqn:Hk.
  - apply String.eqb_eq in Hk as ->. intros [= ->]. by left.
  - intros Hrest. right. by apply IH.
Qed.

Lemma dict_get_is_Some {A} k (d : list (string * A)) :
  k ∈ d.*1 -> is_Some (dict_get k d).
Proof.
  induction d as [|[k' v] rest IH]; cbn.
  - by intros ?%elem_of_nil.
  - destruct (String.eqb k' k) eqn:Hk; [by eexists|].
    intros [->|Hin]%elem_of_cons; [|by apply IH].
    by rewrite String.eqb_refl in Hk.
Qed.

Lemma enabled_choices_spec Snap_new mapping all :
  forall kept,
    enabled_choices Snap_new mapping all = Ok kept ->
    sublist kept all
    /\ forall c,
         c ∈ kept <->
         c ∈ all
         /\ forall g, dict_get c mapping = Some g ->
                      FeatureGates.is_feature_gate_enabled g Snap_new = Ok true.
Proof.
  induction all as [|choice rest IH]; intros kept; cbn.
  - intros [= <-]. split; [constructor|]. intros c. split.
    + by intros ?%elem_of_nil.
    + by intros [?%elem_of_nil _].
  - destruct (match dict_get choice mapping with
              | Some gate_key =>
                  FeatureGates.is_feature_gate_enabled gate_key Snap_new
              | None => Ok true
              end) as [on|e] eqn:Hon; [|done]. cbn.
    destruct (enabled_choices Snap_new mapping rest) as [kept'|e] eqn:Hrest;
      [|done]. cbn.
    intros [= <-]. destruct (IH kept' eq_refl) as [Hsub Hkept]. split.
    + destruct on; by constructor.
    + intros c. split.
      * intros Hin.
        assert (c = choice /\ on = true \/ c ∈ kept') as [[-> ->]|Hin'].
        { destruct on; [|by right].
          apply elem_of_cons in Hin as [->|Hin]; [by left|by right]. }
        -- split; [by left|]. intros g Hg. by rewrite Hg in Hon.
        -- apply Hkept in Hin' as [Hin' Hgate]. split; [by right|done].
      * intros [[->|Hin]%elem_of_cons Hgate].
        -- assert (on = true) as ->.
           { destruct (dict_get choice mapping) as [g|]; [|by injection Hon].
             rewrite (Hgate g eq_refl) in Hon. by injection Hon. }
           by left.
        -- assert (c ∈ kept') as Hin' by (by apply Hkept).
           destruct on; [by right|done].
Qed.

Lemma flat_map_app_entries {A B} (f : A -> list B) (l1 l2 : list A) :
  flat_map f (l1 ++ l2) = flat_map f l1 ++ flat_map f l2.
Proof. induction l1 as [|x l1 IH]; cbn; [done|]. by rewrite IH, app_assoc. Qed.

Lemma flat_map_entry {A B} (f : A -> list B) (l : list A) y :
  y ∈ flat_map f l -> exists x, x ∈ l /\ y ∈ f x.
Proof.
  induction l as [|x0 rest IH]; cbn.
  - by intros ?%elem_of_nil.
  - intros [Hin|Hin]%elem_of_app.
    + exists x0. split; [by left|done].
    + destruct (IH Hin) as (x & Hx & Hy). exists x. split; [by right|done].
Qed.

Lemma gate_pairs_keys (gated : list (string * list string)) c :
  c ∈ (flat_map (fun entry => (fun choice => (choice, entry.1)) <$> entry.2)
         gated).*1 ->
  exists entry, entry ∈ gated /\ c ∈ entry.2.
Proof.
  induction gated as [|entry rest IH]; cbn.
  - by intros ?%elem_of_nil.
  - rewrite fmap_app. intros [Hin|Hin]%elem_of_app.
    + exists entry. split; [by left|].
      rewrite <- list_fmap_compose in Hin. cbn in Hin.
      by rewrite list_fmap_id in Hin.
    + destruct (IH Hin) as (entry' & Hentry & Hc). exists entry'.
      split; [by right|done].
Qed.

End gated_choice_facts.

(** X25. The choices a [FeatureGatedChoice] offers.  When the object
    can be built, it keeps all the choices it was given for the help text,
    and offers them in the order given, without those whose gate is not
    enabled: a choice is offered exactly when it was given and is listed
    under no gate, or the gate that governs it is enabled.  The gate that
    governs a choice is one that lists it, and when several gates list it,
    it is the last of them in [gated_choices]. *)
Theorem gated_choices_offered :
  (forall Snap_new all gated obj,
      FeatureGatedChoice.new Snap_new all gated = Ok obj ->
      FeatureGatedChoice.all_choices obj = all
      /\ sublist (FeatureGatedChoice.choices obj) all
      /\ forall c,
           c ∈ FeatureGatedChoice.choices obj <->
           c ∈ all
           /\ forall g,
                FeatureGatedChoice.dict_get c
                  (FeatureGatedChoice.choice_to_gate gated) = Some g ->
                FeatureGates.is_feature_gate_enabled g Snap_new = Ok true)
  /\ (forall gated c g,
      FeatureGatedChoice.dict_get c (FeatureGatedChoice.choice_to_gate gated)
      = Some g ->
      exists l, (g, l) ∈ gated /\ c ∈ l)
  /\ (forall pre g l post c,
      c ∈ l ->
      (forall entry, entry ∈ post -> c ∉ entry.2) ->
      FeatureGatedChoice.dict_get c
        (FeatureGatedChoice.choice_to_gate (pre ++ (g, l) :: post))
      = Some g).
Proof.
  split_and!.
  - intros Snap_new all gated obj. unfold FeatureGatedChoice.new.
    destruct (FeatureGatedChoice.enabled_choices _ _ all) as [kept|e] eqn:Hkept;
      [|done].
    cbn. intros [= <-]. cbn.
    destruct (enabled_choices_spec _ _ _ _ Hkept) as [Hsub Hiff]. done.
  - intros gated c g. unfold FeatureGatedChoice.choice_to_gate.
    rewrite dict_get_dict_of_items. intros Hin%dict_get_elem.
    rewrite elem_of_reverse in Hin.
    apply flat_map_entry in Hin as ([g' l] & Hentry & Hin).
    apply list_elem_of_fmap in Hin as (c' & [= -> ->] & Hc).
    by exists l.
  - intros pre g l post c Hc Hpost. unfold FeatureGatedChoice.choice_to_gate.
    rewrite dict_get_dict_of_items, flat_map_app_entries. cbn [flat_map fst snd].
    rewrite !reverse_app, !dict_get_app.
    rewrite (dict_get_None c (reverse (flat_map _ post))).
    2: { rewrite fmap_reverse, elem_of_reverse.
         intros (entry & Hentry & Hin)%gate_pairs_keys.
         by apply (Hpost entry Hentry). }
    destruct (dict_get_is_Some c (reverse ((fun choice => (choice, g)) <$> l)))
      as [g' Hg'].
    { rewrite fmap_reverse, elem_of_reverse, <- list_fmap_compose. cbn.
      by rewrite list_fmap_id. }
    rewrite Hg'. f_equal.
    apply dict_get_elem in Hg'. rewrite elem_of_reverse in Hg'.
    by apply list_elem_of_fmap in Hg' as (c' & [= -> ->] & _).
Qed.

Lemma gated_choices_offered_witness :
  exists obj,
    FeatureGatedChoice.new (snap_with "feature.multi-region")
      ["control"; "compute"; "region_controller"]
      [("feature.experimental", ["region_controller"]);
       ("feature.multi-region", ["region_controller"])]
    = Ok obj
    /\ FeatureGatedChoice.choices obj = ["control"; "compute"; "region_controller"]
    /\ FeatureGatedChoice.dict_get "region_controller"
         (FeatureGatedChoice._choice_to_gate obj) = Some "feature.multi-region".
Proof.
  eexists. split; [reflexivity|]. split; [reflexivity|].
  apply (proj2 (proj2 gated_choices_offered)
           [("feature.experimental", ["region_controller"])]
           "feature.multi-region" ["region_controller"] [] "region_controller").
  - in_list.
  - intros entry Hin. by apply elem_of_nil in Hin.
Defined.

(** ** Enabling a storage backend *)

Section storage_facts.
Import Storage.

Lemma py_in_appended x items :
  py_in x (JArr (items ++ [JStr x])) = Ok true.
Proof.
  cbn. f_equal. apply json_is_str_existsb. apply elem_of_app. right. by left.
Qed.

Lemma check_enabled_listed json_loads Snap_new self bt db snap doc j :
  FeatureGates.generally_available self = false ->
  FeatureGates.backend_type self = Some bt ->
  config db !! ENABLED_BACKENDS_CONFIG_KEY = Some doc ->
  json_loads doc = Ok j ->
  py_in bt j = Ok true ->
  check_enabled json_loads Snap_new self db snap = Ok true.
Proof.
  intros Hga Hbt Hdoc Hj Hin.
  unfold check_enabled, FeatureGates.check_gated. rewrite Hga.
  destruct (FeatureGates.cluster_gate_enabled self (Some (view db))); [done|].
  unfold FeatureGates.cluster_list_enabled, view, db_get_config. cbn.
  rewrite Hdoc. cbn. rewrite Hbt. cbn. rewrite Hj. cbn. by rewrite Hin.
Qed.

End storage_facts.

(** X26. Enabling a storage backend makes it visible.  After
    [enable_backend] has returned, [check_enabled] answers true for the
    backend whatever the snap configuration holds, a second [enable_backend]
    changes nothing, and no other configuration item of the cluster was
    touched.  The one assumption is on the JSON library: the document
    [enable_backend] wrote, if it wrote one, decodes to the list it
    encoded. *)
Theorem enable_backend_makes_visible :
  forall json_loads json_dumps Snap_new self bt db db' snap,
    FeatureGates.generally_available self = false ->
    FeatureGates.backend_type self = Some bt ->
    Storage.enable_backend json_loads json_dumps bt db = (Ok tt, db') ->
    (forall items,
        Storage.config_writes db'
        = Storage.config_writes db
          ++ [(Storage.ENABLED_BACKENDS_CONFIG_KEY, json_dumps (JArr items))] ->
        json_loads (json_dumps (JArr items)) = Ok (JArr items)) ->
    Storage.check_enabled json_loads Snap_new self db' snap = Ok true
    /\ Storage.enable_backend json_loads json_dumps bt db' = (Ok tt, db')
    /\ (forall key,
          key <> Storage.ENABLED_BACKENDS_CONFIG_KEY ->
          Storage.config db' !! key = Storage.config db !! key).
Proof.
  intros json_loads json_dumps Snap_new self bt db db' snap Hga Hbt Hrun Hjson.
  unfold Storage.enable_backend in Hrun.
  destruct (try_except _ _ _) as [j|e] eqn:Hread in Hrun; [|done].
  destruct (py_in bt j) as [[]|e] eqn:Hin; [| |done].
  - injection Hrun as <-.
    assert (exists doc,
               Storage.config db !! Storage.ENABLED_BACKENDS_CONFIG_KEY = Some doc
               /\ json_loads doc = Ok j) as (doc & Hdoc & Hj).
    { unfold Storage.db_get_config in Hread. cbn [fst] in Hread.
      destruct (Storage.config db !! Storage.ENABLED_BACKENDS_CONFIG_KEY)
        as [doc|]; cbn in Hread.
      - destruct (json_loads doc) as [j'|e] eqn:Hj; cbn in Hread.
        + injection Hread as ->. by exists doc.
        + case_bool_decide; [|done]. by injection Hread as <-.
      - by injection Hread as <-. }
    split_and!; [by apply (check_enabled_listed _ _ _ bt _ _ doc j)| |done].
    unfold Storage.enable_backend. by rewrite Hread, Hin.
  - destruct j as [| | | |items|]; try done.
    unfold Storage.db_update_config in Hrun. injection Hrun as <-.
    specialize (Hjson (items ++ [JStr bt]) eq_refl). split_and!.
    + apply (check_enabled_listed _ _ _ bt _ _
               (json_dumps (JArr (items ++ [JStr bt])))
               (JArr (items ++ [JStr bt]))); try done.
      * cbn. apply lookup_insert_eq.
      * apply py_in_appended.
    + unfold Storage.enable_backend, Storage.db_get_config.
      cbn [fst Storage.config].
      rewrite lookup_insert_eq. cbn [obind try_except]. rewrite Hjson.
      cbn [obind try_except].
      by rewrite py_in_appended.
    + intros key Hne. cbn. by apply lookup_insert_ne.
Qed.

Lemma enable_backend_makes_visible_witness :
  exists db',
    Storage.enable_backend json_loads_sample json_dumps_sample "ceph" config_db_empty
    = (Ok tt, db')
    /\ Storage.config_writes db' = [("StorageBackendsEnabled", "[ceph]")]
    /\ Storage.check_enabled json_loads_sample snap_empty
         {| FeatureGates.generally_available := false;
            FeatureGates.backend_type := Some "ceph";
            FeatureGates.name := None |} db' snap_broken = Ok true.
Proof.
  eexists. split; [reflexivity|]. split; [reflexivity|].
  refine (proj1 (enable_backend_makes_visible json_loads_sample json_dumps_sample
            snap_empty
            {| FeatureGates.generally_available := false;
               FeatureGates.backend_type := Some "ceph";
               FeatureGates.name := None |}
            "ceph" config_db_empty _ snap_broken eq_refl eq_refl eq_refl _)).
  intros items Hwritten. injection Hwritten as Hdoc.
  destruct items as [|[| | |s| |] [|]]; try discriminate Hdoc. cbn in *.
  destruct (String.eqb s "ceph") eqn:Hs; [|discriminate Hdoc].
  apply String.eqb_eq in Hs. by rewrite Hs.
Defined.

(** ** The checks before a feature is registered *)



(** ** The names of the enabled roles *)

Section enabled_values_facts.
Import Common.
Variable Snap_new : Snap.

Lemma enabled_values_of_spec roles :
  forall names,
    enabled_values_of Snap_new roles = Ok names ->
    forall n,
      n ∈ names <->
      exists role, role ∈ roles /\ n = lower (Role_name role)
                   /\ _is_role_enabled Snap_new role = Ok true.
Proof.
  induction roles as [|role rest IH]; intros names; cbn.
  - intros [= <-] n. split; [by intros ?%elem_of_nil|].
    by intros (role & ?%elem_of_nil & _).
  - destruct (_is_role_enabled Snap_new role) as [on|e] eqn:Hon; [|done]. cbn.
    destruct (enabled_values_of Snap_new rest) as [names'|e] eqn:Hrest; [|done].
    cbn. intros [= <-] n. specialize (IH names' eq_refl n). split.
    + intros Hin.
      assert (n = lower (Role_name role) /\ on = true \/ n ∈ names')
        as [[-> ->]|Hin'].
      { destruct on; [|by right].
        apply elem_of_cons in Hin as [->|Hin]; [by left|by right]. }
      * exists role. split; [by left|done].
      * apply IH in Hin' as (role' & Hrole' & Hn & Hon'). exists role'.
        split; [by right|done].
    + intros (role' & [->|Hrole']%elem_of_cons & -> & Hon').
      * rewrite Hon in Hon'. injection Hon' as ->. by left.
      * assert (lower (Role_name role') ∈ names') as Hin
          by (apply IH; by exists role').
        destruct on; [by right|done].
Qed.

Lemma validate_roles_one_name role :
  _is_role_enabled Snap_new role = Ok true ->
  validate_roles Snap_new [lower (Role_name role)] = Ok [role].
Proof.
  intros Hon. unfold validate_roles, role_strings. cbn [fmap list_fmap concat].
  rewrite split_on_role_name. cbn [app list_to_set].
  rewrite (right_id_L ∅ (∪)), elements_singleton. cbn.
  unfold validate_role. rewrite Role_of_lower_name. by rewrite Hon.
Qed.

End enabled_values_facts.

(** X28. The role names [Role.enabled_values] lists are the ones
    [validate_roles] accepts.  When [enabled_values] returns, it lists the
    lower-case name of a role exactly when the role is enabled, and
    [validate_roles] reads every name of the list as the role it names. *)
Theorem enabled_values_are_accepted :
  forall Snap_new names,
    Common.enabled_values Snap_new = Ok names ->
    (forall role,
        Common.lower (Common.Role_name role) ∈ names <->
        Common._is_role_enabled Snap_new role = Ok true)
    /\ (forall n, n ∈ names ->
          exists role,
            n = Common.lower (Common.Role_name role)
            /\ Common.validate_roles Snap_new [n] = Ok [role]).
Proof.
  intros Snap_new names Hnames. unfold Common.enabled_values in Hnames.
  pose proof (enabled_values_of_spec _ _ _ Hnames) as Hspec. split.
  - intros role. rewrite Hspec. split.
    + intros (role' & _ & Hname & Hon).
      assert (role' = role) as <- by (by destruct role, role').
      done.
    + intros Hon. exists role. split; [destruct role; in_list|done].
  - intros n (role & _ & -> & Hon)%Hspec. exists role.
    split; [done|]. by apply validate_roles_one_name.
Qed.

Lemma enabled_values_are_accepted_witness :
  Common.enabled_values snap_empty
  = Ok ["control"; "compute"; "storage"; "network"]
  /\ (Common.lower (Common.Role_name Common.REGION_CONTROLLER)
      ∈ ["control"; "compute"; "storage"; "network"] <->
      Common._is_role_enabled snap_empty Common.REGION_CONTROLLER = Ok true).
Proof.
  split; [reflexivity|].
  exact (proj1 (enabled_values_are_accepted snap_empty
                  ["control"; "compute"; "storage"; "network"] eq_refl)
           Common.REGION_CONTROLLER).
Defined.

(** ** Skipping the reapply of the MicroOVN plan *)

Section reapply_is_skip_facts.
Import Common Cluster Ovn ReapplyMicroOVNTerraformPlanStep.
Context {S : Type}.
Variable client : OvnClient S.
Variable nodes_of : string -> list (option Z).
Hypothesis reads :
  forall role s, list_nodes_by_role client role s = (Ok (nodes_of role), s).

Lemma any_role_has_nodes_spec roles s :
  exists r,
    any_role_has_nodes client roles s = (Ok r, s)
    /\ (r = mkResult SKIPPED "" \/ r = mkResult COMPLETED "")
    /\ (result_type r = SKIPPED <->
        forall role, role ∈ roles -> nodes_of (lower (Role_name role)) = []).
Proof.
  induction roles as [|role rest (r & Hrun & Hr & Hskip)]; cbn.
  - exists (mkResult SKIPPED ""). split; [done|]. split; [by left|].
    split; [|done]. by intros _ role ?%elem_of_nil.
  - unfold bind at 1. rewrite reads.
    destruct (nodes_of (lower (Role_name role))) as [|node nodes] eqn:Hnodes.
    + exists r. split; [done|]. split; [done|]. rewrite Hskip. split.
      * intros Hall role' [->|Hin]%elem_of_cons; [done|by apply Hall].
      * intros Hall role' Hin. apply Hall. by right.
    + exists (mkResult COMPLETED ""). split; [done|]. split; [by right|].
      split; [done|]. intros Hall.
      specialize (Hall role ltac:(by left)). congruence.
Qed.

End reapply_is_skip_facts.

(** X29. When the reapply of the MicroOVN plan is skipped.  On a
    cluster whose node lists can be read, [is_skip] returns [SKIPPED] or
    [COMPLETED], and it returns [SKIPPED] exactly when no node has a role
    that needs MicroOVN: no network node, and, when the recorded provider is
    MicroOVN, no compute and no control node either.  Under the default
    provider the compute and control nodes do not count. *)
Theorem reapply_microovn_skipped_without_nodes :
  forall (S : Type) (client : Ovn.OvnClient S) nodes_of config (s s' : S),
    (forall role s1,
        Ovn.list_nodes_by_role client role s1 = (Ok (nodes_of role), s1)) ->
    Ovn.load_provider_config client s = (Ok config, s') ->
    exists r,
      ReapplyMicroOVNTerraformPlanStep.is_skip client s = (Ok r, s')
      /\ (r = Common.mkResult Common.SKIPPED ""
          \/ r = Common.mkResult Common.COMPLETED "")
      /\ (Common.result_type r = Common.SKIPPED <->
          nodes_of "network" = []
          /\ (Ovn.provider config = Some Ovn.MICROOVN ->
              nodes_of "compute" = [] /\ nodes_of "control" = [])).
Proof.
  intros S client nodes_of config s s' Hreads Hload.
  unfold ReapplyMicroOVNTerraformPlanStep.is_skip, Ovn.get_roles_for_microovn,
    Ovn.get_provider, Cluster.bind, Cluster.ret. rewrite Hload.
  match goal with
  | |- context [ReapplyMicroOVNTerraformPlanStep.any_role_has_nodes client
                  (elements ?X) s'] =>
      destruct (any_role_has_nodes_spec client nodes_of Hreads (elements X) s')
        as (r & Hrun & Hr & Hskip)
  end.
  exists r. split; [done|]. split; [done|]. rewrite Hskip.
  unfold Ovn.DEFAULT_PROVIDER.
  destruct (Ovn.provider config) as [[]|]; cbn [default];
    [rewrite decide_False by done|rewrite decide_True by done
    |rewrite decide_False by done]; split.
  all: try (intros Hall; split; [|done]; apply (Hall Common.NETWORK);
            apply elem_of_elements; by apply elem_of_singleton).
  all: try (intros [Hnet _] role Hin; apply elem_of_elements in Hin;
            by apply elem_of_singleton in Hin as ->).
  - intros Hall.
    split; [|intros _; split];
      [apply (Hall Common.NETWORK)|apply (Hall Common.COMPUTE)
      |apply (Hall Common.CONTROL)];
      apply elem_of_elements; rewrite !elem_of_union, !elem_of_singleton; auto.
  - intros [Hnet Hrest] role Hin. destruct (Hrest eq_refl) as [Hcompute Hcontrol].
    apply elem_of_elements in Hin.
    rewrite !elem_of_union, !elem_of_singleton in Hin.
    by destruct Hin as [->|[->| ->]].
Qed.

Lemma reapply_microovn_skipped_without_nodes_witness :
  ReapplyMicroOVNTerraformPlanStep.is_skip compute_and_control_nodes tt
  = (Ok (Common.mkResult Common.SKIPPED ""), tt).
Proof.
  destruct (reapply_microovn_skipped_without_nodes unit compute_and_control_nodes
              (fun role => if String.eqb role "network" then [] else [Some 0%Z])
              {| Ovn.provider := Some Ovn.OVN_K8S |} tt tt
              ltac:(reflexivity) eq_refl)
    as (r & Hrun & [-> | ->] & Hskip).
  - exact Hrun.
  - exfalso. assert (Common.COMPLETED = Common.SKIPPED) as Habsurd; [|done].
    apply Hskip. split; [reflexivity|discriminate].
Defined.
